(** * Bloodhound: the DeKalb County meeting-minutes PDF miner

    A shallow embedding of the text-extraction, keyword-classification and
    fetch code of [tool.py], [pdf_miner_fixed.py] and
    [manual_pdf_analyzer.py], and the properties of the specification
    checked against it.

    Conventions of the embedding:
    - a Python [str] is a list of characters; characters are the code
      points below 256 (type [ascii]);
    - Python integers are [Z];
    - a Python [dict] iterated in insertion order is an association list;
    - code that raises is a computation in an exception monad, code that
      also mutates an object threads the object through a state monad whose
      state survives a raised exception, as a mutated Python object does. *)

From Stdlib Require Import ZArith Lia List Ascii String Bool Sorted.
From stdpp Require Import base tactics option list gmap strings sorting.

Local Open Scope Z_scope.
Local Open Scope list_scope.

(** ** Python primitives used by the miner *)

Module Py.

Abbreviation str := (list ascii).

(** A string literal as a [str]. *)
Definition s (lit : string) : str := list_ascii_of_string lit.

Definition len (t : str) : Z := Z.of_nat (length t).

(** [str.isspace] on one character below 256: TAB..CR, FS..US, SPACE,
    NEL (0x85) and NBSP (0xA0). *)
Definition isspace (c : ascii) : bool :=
  let n := N_of_ascii c in
  ((9 <=? n) && (n <=? 13) || (28 <=? n) && (n <=? 32)
   || (n =? 133) || (n =? 160))%N.

Fixpoint lstrip (t : str) : str :=
  match t with
  | [] => []
  | c :: t' => if isspace c then lstrip t' else t
  end.

Definition rstrip (t : str) : str := rev (lstrip (rev t)).

(** [t.strip()] *)
Definition strip (t : str) : str := rstrip (lstrip t).

(** [t.split()] with no separator: the maximal runs of non-whitespace
    characters, in order.  [cur] is the word being read. *)
Fixpoint split_from (cur : str) (t : str) : list str :=
  match t with
  | [] => match cur with [] => [] | _ => [cur] end
  | c :: t' =>
      if isspace c
      then match cur with
           | [] => split_from [] t'
           | _ => cur :: split_from [] t'
           end
      else split_from (cur ++ [c]) t'
  end.

Definition split (t : str) : list str := split_from [] t.

(** [sep.join(ws)] *)
Fixpoint join (sep : str) (ws : list str) : str :=
  match ws with
  | [] => []
  | [w] => w
  | w :: ws' => w ++ sep ++ join sep ws'
  end.

(** Normalisation of one slice bound against a length, as [t[lo:hi]] does:
    a negative bound counts from the end, and both are clipped to
    [0..len]. *)
Definition slice_bound (n i : Z) : Z :=
  if i <? 0 then Z.max 0 (i + n) else Z.min i n.

(** [t[lo:hi]] *)
Definition slice (t : str) (lo hi : Z) : str :=
  let a := slice_bound (len t) lo in
  let b := slice_bound (len t) hi in
  take (Z.to_nat (b - a)) (drop (Z.to_nat a) t).

(** Truth value of an optional string: [None] and [''] are false. *)
Definition truthy (t : option str) : bool :=
  match t with
  | Some (_ :: _) => true
  | _ => false
  end.

(** [enumerate(xs, start)] *)
Fixpoint enumerate {A} (start : Z) (xs : list A) : list (Z * A) :=
  match xs with
  | [] => []
  | x :: xs' => (start, x) :: enumerate (start + 1) xs'
  end.

(** [range(n)] *)
Definition range (n : Z) : list Z :=
  map Z.of_nat (seq 0 (Z.to_nat n)).

(** Does the string hold two consecutive SPACE characters? *)
Fixpoint double_space (t : str) : bool :=
  match t with
  | c :: ((d :: _) as t') =>
      (Ascii.eqb c " " && Ascii.eqb d " ") || double_space t'
  | _ => false
  end.

(** A word of [split]: not empty, no whitespace inside. *)
Definition word (w : str) : Prop :=
  w <> [] /\ Forall (fun c => isspace c = false) w.

(** [c.lower()] for a character below 256. *)
Definition lower_char (c : ascii) : ascii :=
  let n := N_of_ascii c in
  if ((65 <=? n) && (n <=? 90) || (192 <=? n) && (n <=? 214)
      || (216 <=? n) && (n <=? 222))%N
  then ascii_of_N (n + 32) else c.

(** [t.lower()] *)
Definition lower (t : str) : str := map lower_char t.

(** [t.startswith(p)] *)
Fixpoint startswith (t p : str) : bool :=
  match p, t with
  | [], _ => true
  | _ :: _, [] => false
  | d :: p', c :: t' => Ascii.eqb c d && startswith t' p'
  end.

(** [t.endswith(p)] *)
Definition endswith (t p : str) : bool := startswith (rev t) (rev p).

(** [os.path.join(a, b)] of [posixpath]. *)
Definition os_path_join (a b : str) : str :=
  if startswith b (s "/") then b
  else if match a with [] => true | _ => endswith a (s "/") end then a ++ b
  else a ++ s "/" ++ b.

(** [os.path.basename(p)] of [posixpath], that is [p[p.rfind('/') + 1:]];
    [cur] is what was read since the last slash. *)
Fixpoint basename_from (cur : str) (p : str) : str :=
  match p with
  | [] => cur
  | c :: p' =>
      if Ascii.eqb c "/" then basename_from [] p'
      else basename_from (cur ++ [c]) p'
  end.

Definition basename (p : str) : str := basename_from [] p.

End Py.

(** ** Exceptions and mutable state *)

Module Eff.

(** The exceptions the modelled code can meet. *)
Inductive exn : Type :=
| ReError (pattern : string)      (* re.error: the pattern does not compile *)
| PdfError                        (* raised by a PDF or OCR library *)
| HTTPError (status : Z)          (* requests.HTTPError of raise_for_status *)
| ConnectionError                 (* transport error of requests *)
| OSError.                        (* open() failed *)

Inductive exc (A : Type) : Type :=
| Ok (a : A)
| Raise (e : exn).
Arguments Ok {A} a.
Arguments Raise {A} e.

(** A computation over a mutable state [S]: the state reached is returned
    also when an exception is raised. *)
Definition M (S A : Type) : Type := S -> exc A * S.

Definition ret {S A} (a : A) : M S A := fun st => (Ok a, st).

Definition raise {S A} (e : exn) : M S A := fun st => (Raise e, st).

Definition bind {S A B} (m : M S A) (f : A -> M S B) : M S B :=
  fun st =>
    match m st with
    | (Ok a, st') => f a st'
    | (Raise e, st') => (Raise e, st')
    end.

Definition get {S} : M S S := fun st => (Ok st, st).

Definition modify {S} (f : S -> S) : M S unit := fun st => (Ok tt, f st).

(** [try: m except Exception as e: h e] *)
Definition try_except {S A} (m : M S A) (h : exn -> M S A) : M S A :=
  fun st =>
    match m st with
    | (Ok a, st') => (Ok a, st')
    | (Raise e, st') => h e st'
    end.

(** Lifting of a pure fallible value. *)
Definition lift {S A} (r : exc A) : M S A := fun st => (r, st).

(** [for x in xs: body x] *)
Fixpoint for_each {S A} (xs : list A) (body : A -> M S unit) : M S unit :=
  match xs with
  | [] => ret tt
  | x :: xs' => bind (body x) (fun _ => for_each xs' body)
  end.

(** [if c: body] *)
Definition when {S} (c : bool) (body : M S unit) : M S unit :=
  if c then body else ret tt.

(** A loop that fills a local list, followed by [return] of the list: an
    exception leaves the function and the list is lost. *)
Definition returning {A} (body : M (list A) unit) : exc (list A) :=
  match body [] with
  | (Ok _, matches) => Ok matches
  | (Raise e, _) => Raise e
  end.

End Eff.

Import Eff.

#[global] Instance M_ret {S} : MRet (M S) := fun A a => ret a.
#[global] Instance M_bind {S} : MBind (M S) := fun A B f m => bind m f.

(** ** The regular-expression library *)

Module Re.

Import Py.

(** A match span [(start, end)], as [match.start()] and [match.end()]. *)
Definition span : Type := Z * Z.

(** Two successive matches of one scan: they do not overlap, come left to
    right, and are not the same span. *)
Definition span_before (a b : span) : Prop :=
  a.1 <= a.2 /\ a.2 <= b.1 /\ b.1 <= b.2 /\ a.1 < b.2.

(** What the miner relies on from [re]: [re_compile] is [None] when the
    pattern raises [re.error]; [re_scan r t] lists the spans of
    [finditer] with the flags [IGNORECASE | DOTALL], in the order they are
    yielded. *)
Class Engine : Type := {
  regex : Type;
  re_compile : string -> option regex;
  re_scan : regex -> str -> list span;
  re_scan_bounds : forall r t sp,
    In sp (re_scan r t) -> 0 <= sp.1 /\ sp.1 <= sp.2 /\ sp.2 <= len t;
  re_scan_sorted : forall r t, Sorted span_before (re_scan r t)
}.

(** [re.finditer(pattern, text, re.IGNORECASE | re.DOTALL)], forced. *)
Definition finditer `{Engine} (pattern : string) (t : str) : exc (list span) :=
  match re_compile pattern with
  | None => Raise (ReError pattern)
  | Some r => Ok (re_scan r t)
  end.

(** [match.group()] *)
Definition group (t : str) (sp : span) : str := slice t sp.1 sp.2.

End Re.

(** ** A backtracking engine for the catalog's pattern syntax

    The engine accepts literals, [.], the escapes [\b \B \s \S \w \W \d \D
    \n \t \r \f \v] and escaped punctuation, groups, [|], and the
    quantifiers [* + ?] with their lazy forms, which is the syntax of
    every pattern of the shipped catalog.  A pattern it refuses is either
    malformed or written in syntax left out here. *)

Module Sre.

Import Py.

Inductive quant : Type := QStar | QPlus | QOpt.

Inductive cls : Type := CSpace | CWord | CDigit.

Inductive re : Type :=
| Eps
| Lit (c : ascii)
| Any
| Cls (neg : bool) (k : cls)
| Bound (neg : bool)
| Seq (a b : re)
| Alt (a b : re)
| Rep (q : quant) (lazy : bool) (a : re).

(** *** Character tests *)

Definition in_range (lo hi n : N) : bool := ((lo <=? n) && (n <=? hi))%N.

Definition lower (c : ascii) : N :=
  let n := N_of_ascii c in
  if in_range 65 90 n || in_range 192 214 n || in_range 216 222 n
  then (n + 32)%N else n.

(** Equality of characters under [IGNORECASE]. *)
Definition ci_eq (c d : ascii) : bool := (lower c =? lower d)%N.

Definition isdigit (c : ascii) : bool := in_range 48 57 (N_of_ascii c).

(** [\w]: alphanumeric or underscore. *)
Definition isword (c : ascii) : bool :=
  let n := N_of_ascii c in
  in_range 48 57 n || in_range 65 90 n || (n =? 95)%N || in_range 97 122 n
  || (n =? 170)%N || in_range 178 179 n || (n =? 181)%N
  || in_range 185 186 n || in_range 188 190 n
  || in_range 192 214 n || in_range 216 246 n || in_range 248 255 n.

Definition in_cls (k : cls) (c : ascii) : bool :=
  match k with
  | CSpace => isspace c
  | CWord => isword c
  | CDigit => isdigit c
  end.

(** *** Parsing a pattern *)

(** The last thing read in a sequence decides what a quantifier may do. *)
Inductive item : Type :=
| IPlain (r : re)
| IAssert (r : re)
| IRep (q : quant) (lazy : bool) (fresh : bool) (r : re).

Definition item_re (i : item) : re :=
  match i with
  | IPlain r | IAssert r => r
  | IRep q lazy _ r => Rep q lazy r
  end.

(** An open group: the finished alternatives and the sequence being read,
    both latest first. *)
Record frame : Type := { alts : list re; items : list item }.

Definition empty_frame : frame := {| alts := []; items := [] |}.

Definition seq_of (its : list item) : re :=
  fold_left (fun acc i => match acc with
                          | Eps => item_re i
                          | _ => Seq (item_re i) acc
                          end) its Eps.

Definition close (f : frame) : re :=
  fold_left (fun acc a => Alt a acc) (alts f) (seq_of (items f)).

Definition push (i : item) (f : frame) : frame :=
  {| alts := alts f; items := i :: items f |}.

Record pstate : Type := { esc : bool; cur : frame; stack : list frame }.

Definition on (st : pstate) (f : frame) : pstate :=
  {| esc := false; cur := f; stack := stack st |}.

Definition quantify (q : quant) (f : frame) : option frame :=
  match items f with
  | IPlain r :: its =>
      Some {| alts := alts f; items := IRep q false true r :: its |}
  | IRep q' false true r :: its =>
      match q with
      | QOpt => Some {| alts := alts f; items := IRep q' true false r :: its |}
      | _ => None
      end
  | _ => None
  end.

Definition escape (c : ascii) : option item :=
  let n := N_of_ascii c in
  match c with
  | "b"%char => Some (IAssert (Bound false))
  | "B"%char => Some (IAssert (Bound true))
  | "s"%char => Some (IPlain (Cls false CSpace))
  | "S"%char => Some (IPlain (Cls true CSpace))
  | "w"%char => Some (IPlain (Cls false CWord))
  | "W"%char => Some (IPlain (Cls true CWord))
  | "d"%char => Some (IPlain (Cls false CDigit))
  | "D"%char => Some (IPlain (Cls true CDigit))
  | "n"%char => Some (IPlain (Lit "010"))
  | "t"%char => Some (IPlain (Lit "009"))
  | "r"%char => Some (IPlain (Lit "013"))
  | "f"%char => Some (IPlain (Lit "012"))
  | "v"%char => Some (IPlain (Lit "011"))
  | _ =>
      if in_range 48 57 n || in_range 65 90 n || in_range 97 122 n
         || (128 <=? n)%N
      then None
      else Some (IPlain (Lit c))
  end.

Definition step (st : pstate) (c : ascii) : option pstate :=
  if esc st then
    match escape c with
    | Some i => Some (on st (push i (cur st)))
    | None => None
    end
  else
    match c with
    | "\"%char => Some {| esc := true; cur := cur st; stack := stack st |}
    | "("%char =>
        Some {| esc := false; cur := empty_frame; stack := cur st :: stack st |}
    | ")"%char =>
        match stack st with
        | [] => None
        | f :: fs =>
            Some {| esc := false; cur := push (IPlain (close (cur st))) f;
                    stack := fs |}
        end
    | "|"%char =>
        Some (on st {| alts := seq_of (items (cur st)) :: alts (cur st);
                       items := [] |})
    | "*"%char => on st <$> quantify QStar (cur st)
    | "+"%char => on st <$> quantify QPlus (cur st)
    | "?"%char => on st <$> quantify QOpt (cur st)
    | "."%char => Some (on st (push (IPlain Any) (cur st)))
    | "["%char | "{"%char | "^"%char | "$"%char => None
    | _ => Some (on st (push (IPlain (Lit c)) (cur st)))
    end.

Fixpoint run (st : pstate) (p : str) : option pstate :=
  match p with
  | [] => Some st
  | c :: p' =>
      match step st c with
      | Some st' => run st' p'
      | None => None
      end
  end.

Definition parse (pattern : string) : option re :=
  match run {| esc := false; cur := empty_frame; stack := [] |}
            (list_ascii_of_string pattern) with
  | Some st =>
      match esc st, stack st with
      | false, [] => Some (close (cur st))
      | _, _ => None
      end
  | None => None
  end.

(** *** Matching *)

Section Matcher.

Variable text : str.

Definition is_word_at (i : nat) : bool :=
  match text !! i with
  | Some c => isword c
  | None => false
  end.

(** [\b] holds at [i]. *)
Definition boundary (i : nat) : bool :=
  xorb (match i with O => false | S j => is_word_at j end) (is_word_at i).

Definition orelse (a b : option nat) : option nat :=
  match a with
  | Some e => Some e
  | None => b
  end.

(** [try_match r i k]: match [r] from offset [i], then continue with [k] from the
    offset reached; alternatives are tried in the engine's priority order
    and the first complete success wins.  An iteration of a repeat that
    consumes nothing ends the repeat. *)
Fixpoint try_match (r : re) (i : nat) (k : nat -> option nat) : option nat :=
  match r with
  | Eps => k i
  | Lit c =>
      match text !! i with
      | Some d => if ci_eq c d then k (S i) else None
      | None => None
      end
  | Any =>
      match text !! i with
      | Some _ => k (S i)
      | None => None
      end
  | Cls neg cl =>
      match text !! i with
      | Some d => if xorb neg (in_cls cl d) then k (S i) else None
      | None => None
      end
  | Bound neg => if xorb neg (boundary i) then k i else None
  | Seq a b => try_match a i (fun j => try_match b j k)
  | Alt a b => orelse (try_match a i k) (try_match b i k)
  | Rep q lazy a =>
      let loop :=
        fix loop (fuel : nat) (i : nat) {struct fuel} : option nat :=
          match fuel with
          | O => k i
          | S fuel' =>
              let more :=
                try_match a i (fun j => if (i <? j)%nat then loop fuel' j else None) in
              if lazy then orelse (k i) more else orelse more (k i)
          end in
      match q with
      | QStar => loop (S (length text) - i)%nat i
      | QPlus => try_match a i (fun j => loop (S (length text) - j)%nat j)
      | QOpt => if lazy then orelse (k i) (try_match a i k) else orelse (try_match a i k) (k i)
      end
  end.

(** One attempt at offset [i]; with [must_advance] an empty match is
    refused. *)
Definition match_at (r : re) (i : nat) (must_advance : bool) : option nat :=
  try_match r i (fun e => if must_advance && (e =? i)%nat then None else Some e).

(** The first match starting at [i] or later. *)
Fixpoint search (r : re) (fuel : nat) (i : nat) (must_advance : bool)
  : option (nat * nat) :=
  match fuel with
  | O => None
  | S fuel' =>
      match match_at r i must_advance with
      | Some e => Some (i, e)
      | None =>
          if (i <? length text)%nat then search r fuel' (S i) false else None
      end
  end.

(** The scanner behind [finditer]: after a match the scan resumes at its
    end, and an empty match forces the next one to advance. *)
Fixpoint scan (r : re) (fuel : nat) (pos : nat) (must_advance : bool)
  : list (nat * nat) :=
  match fuel with
  | O => []
  | S fuel' =>
      match search r (S (length text) - pos)%nat pos must_advance with
      | None => []
      | Some (b, e) => (b, e) :: scan r fuel' e (b =? e)%nat
      end
  end.

Definition spans (r : re) : list Re.span :=
  map (fun be => (Z.of_nat be.1, Z.of_nat be.2))
      (scan r (2 * length text + 2)%nat O false).

(** A continuation result comes from an offset the continuation was
    entered at. *)
Definition reaches (i : nat) (k : nat -> option nat) (e : nat) : Prop :=
  exists j, (i <= j)%nat /\ ((i <= length text)%nat -> (j <= length text)%nat)
            /\ k j = Some e.

(** Successive matches on offsets. *)
Definition before (a b : nat * nat) : Prop :=
  (a.1 <= a.2)%nat /\ (a.2 <= b.1)%nat /\ (b.1 <= b.2)%nat /\ (a.1 < b.2)%nat.

End Matcher.

End Sre.

(** ** Data shared by the two miners *)

Module Data.

Import Py.

(** One entry of [self.keywords]: the tier's patterns and its colour. *)
Record priority_data : Type := { terms : list string; color : string }.

(** [self.keywords]: tier name to tier data, in insertion order. *)
Definition keywords_t : Type := list (string * priority_data).

(** One entry of [self.committees]. *)
Record committee_t : Type :=
  { name : string; main_url : string; archive_url : string }.

(** A discovered link, the dict built by [extract_pdf_links]. *)
Record pdf_info : Type :=
  { url : string; text : string; date_str : string; filename : string }.

(** A match record, the dict appended by [search_keywords_in_text]. *)
Record finding : Type := {
  committee : string;
  pdf_filename : string;
  pdf_date : string;
  page : Z;
  priority : string;
  keyword_pattern : string;
  matched_text : str;
  context : str;
  f_url : string
}.

(** What a PDF or OCR library does with one page: it returns a text
    (possibly [None]) or raises. *)
Inductive page_read : Type :=
| PageText (t : option str)
| PageRaises.

(** What a library does with a file: it opens it and exposes its pages, or
    raises. *)
Inductive opened : Type :=
| Opened (pages : list page_read)
| OpenRaises.

(** A PDF file as each of the three libraries sees it: [pdfplumber],
    [PyPDF2], and [pdf2image] with [pytesseract]. *)
Record pdf_file : Type :=
  { plumber : opened; pypdf2 : opened; ocr : opened }.

(** Observable effects, in the order they happen. *)
Inductive event : Type :=
| CallPdfplumber                 (* pdfplumber.open *)
| CallPyPDF2                     (* open + PyPDF2.PdfReader *)
| CallOCR                        (* self.ocr_pdf *)
| Sleep (lo hi : Z)              (* time.sleep(random.uniform(lo, hi)) *)
| UpdateHeaders                  (* self.update_headers() *)
| ClearCookies                   (* self.session.cookies.clear() *)
| LogInfo
| LogWarning
| LogError
| PrintWarning (page_no : Z)   (* print of the manual analyzer, per page *)
| PrintError.                  (* print of the manual analyzer, per file *)

Definition event_eqb (a b : event) : bool :=
  match a, b with
  | CallPdfplumber, CallPdfplumber | CallPyPDF2, CallPyPDF2
  | CallOCR, CallOCR | UpdateHeaders, UpdateHeaders
  | ClearCookies, ClearCookies | LogInfo, LogInfo
  | LogWarning, LogWarning | LogError, LogError
  | PrintError, PrintError => true
  | Sleep a1 a2, Sleep b1 b2 => (a1 =? b1) && (a2 =? b2)
  | PrintWarning i, PrintWarning j => i =? j
  | _, _ => false
  end.

(** An HTTP response: its status, and its body as the chunks that
    [iter_content] yields, after which the stream may break. *)
Record response : Type :=
  { status_code : Z; chunks : list (list Byte.byte); stream_breaks : bool }.

(** The outcome of one [session.get]. *)
Inductive http_outcome : Type :=
| ConnFails
| Responds (r : response).

(** The part of the world the fetch code reads and writes: the files, the
    requests sent so far, the effects so far, and [self.results].  The
    lines of the logger, which both miners send to the console and to the
    file [pdf_miner.log], are among the effects of [log]; that file is not
    kept in [fs], which holds the other files. *)
Record world : Type := {
  fs : gmap string (list Byte.byte);
  sent : list string;
  log : list event;
  results : list finding
}.

(** The remote side and the local disk: the answer to the [n]-th request
    of the run, which paths can be opened for writing, how the PDF
    libraries read given bytes, and the links that the HTML parsing of
    [extract_pdf_links] collects from a listing page. *)
Record host : Type := {
  server : nat -> string -> http_outcome;
  writable : string -> bool;
  read_pdf : list Byte.byte -> pdf_file;
  page_links : string -> response -> list pdf_info
}.

(** An effect is appended to [log]; when it is a call of the logger,
    this stands for the line appended to [pdf_miner.log]. *)
Definition emit (e : event) : M world unit :=
  modify (fun w => {| fs := fs w; sent := sent w; log := log w ++ [e];
                      results := results w |}).

(** The file of [logging.FileHandler('pdf_miner.log')], lines 32 to 39 of
    both miners: every call of the logger appends a line to it. *)
Definition log_file : string := "pdf_miner.log".

(** An effect that is a line of the logger. *)
Definition is_logger (e : event) : bool :=
  match e with
  | LogInfo | LogWarning | LogError => true
  | _ => false
  end.

(** The lines that a list of effects appends to the log file. *)
Fixpoint logger_lines (evs : list event) : list event :=
  match evs with
  | [] => []
  | e :: evs' =>
      if is_logger e then e :: logger_lines evs' else logger_lines evs'
  end.

(** [self.session.get(url, ...)] *)
Definition session_get (h : host) (u : string) : M world response :=
  fun w =>
    let w' := {| fs := fs w; sent := sent w ++ [u]; log := log w;
                 results := results w |} in
    match server h (length (sent w)) u with
    | ConnFails => (Raise ConnectionError, w')
    | Responds r => (Ok r, w')
    end.

(** [response.raise_for_status()] *)
Definition raise_for_status (r : response) : M world unit :=
  if (400 <=? status_code r) && (status_code r <? 600)
  then raise (HTTPError (status_code r))
  else ret tt.

(** [os.path.exists(path)] *)
Definition path_exists (w : world) (path : string) : bool :=
  bool_decide (is_Some (fs w !! path)).

(** [open(path, 'wb')]: the file is created or truncated. *)
Definition open_wb (h : host) (path : string) : M world unit :=
  fun w =>
    if writable h path
    then (Ok tt, {| fs := <[path := []]> (fs w); sent := sent w; log := log w;
                    results := results w |})
    else (Raise OSError, w).

(** [f.write(chunk)] *)
Definition write (path : string) (chunk : list Byte.byte) : M world unit :=
  modify (fun w => {| fs := alter (fun old => old ++ chunk) path (fs w);
                      sent := sent w; log := log w; results := results w |}).

(** [self.results.extend(matches)] *)
Definition extend_results (ms : list finding) : M world unit :=
  modify (fun w => {| fs := fs w; sent := sent w; log := log w;
                      results := results w ++ ms |}).

(** The file at a path as the PDF libraries see it; a missing file cannot
    be opened by any of them. *)
Definition pdf_at (h : host) (w : world) (path : string) : pdf_file :=
  match fs w !! path with
  | Some bytes => read_pdf h bytes
  | None => {| plumber := OpenRaises; pypdf2 := OpenRaises; ocr := OpenRaises |}
  end.

(** [os.path.join(a, b)] for a relative [b]. *)
Definition path_join (a b : string) : string := (a +:+ "/" +:+ b)%string.

(** The local state of an extraction: the pages kept so far and the
    effects so far. *)
Record xstate : Type :=
  { text_pages : list (Z * str); seen : list event }.

Definition note (e : event) : M xstate unit :=
  modify (fun st => {| text_pages := text_pages st; seen := seen st ++ [e] |}).

(** [text_pages.append((i, text))] *)
Definition append_page (i : Z) (t : str) : M xstate unit :=
  modify (fun st => {| text_pages := text_pages st ++ [(i, t)];
                       seen := seen st |}).

(** The library call that opens the file. *)
Definition open_with (lib : event) (o : opened) : M xstate (list page_read) :=
  note lib ≫= fun _ =>
  match o with
  | Opened pages => ret pages
  | OpenRaises => raise PdfError
  end.

(** [page.extract_text()], [pytesseract.image_to_string(image)] *)
Definition extract_text (p : page_read) : M xstate (option str) :=
  match p with
  | PageText t => ret t
  | PageRaises => raise PdfError
  end.

(** [if text and len(text.strip()) > 50: text_pages.append((i, text))] *)
Definition keep_page (i : Z) (t : option str) : M xstate unit :=
  match t with
  | Some t' =>
      when (truthy t && (50 <? len (strip t'))) (append_page i t')
  | None => ret tt
  end.

(** The default catalog of [__init__]. *)
Definition default_keywords : keywords_t :=
  [ ("priority_1",
     {| terms :=
          [ "\bSteve\s+Hamm\b"; "\bS\.\s*Hamm\b"; "\bHamm\b";
            "\bethics\s+training\b";
            "\babuse\s+of\s+(authority|position)\b";
            "\bconflict\s+of\s+interest\b";
            "\bemployee\s+misconduct\b";
            "\bhighway\s+department\b.*?\b(complaint|incident|investigation)\b";
            "\bG-K\s+Broncos\b"; "\bBroncos\b";
            "\bKingston\s+Park\b";
            "\btrailer\s+removal\b" ];
        color := "FF0000" |});
    ("priority_2",
     {| terms :=
          [ "\bethics\b.*?\b(training|policy|violation)\b";
            "\bcode\s+of\s+conduct\b";
            "\bemployee\s+handbook\b";
            "\bdisciplinary\s+action\b";
            "\b(grievance|complaint)\b";
            "\binappropriate\s+use\b";
            "\bpersonal\s+use\b.*?\b(vehicle|position|authority)\b";
            "\bsheriff\b.*?\bhighway\b";
            "\b(intimidation|threatening)\b";
            "\bretaliation\b" ];
        color := "FFA500" |});
    ("priority_3",
     {| terms :=
          [ "\boversight\b";
            "\baccountability\b";
            "\binternal\s+investigation\b";
            "\boutside\s+counsel\b";
            "\blitigation\s+hold\b";
            "\b(lawsuit|legal\s+action)\b";
            "\bsettlement\b";
            "\binsurance\s+claim\b";
            "\b(FOIA|freedom\s+of\s+information)\b";
            "\bpublic\s+comment\b.*?\b(complaint|concern)\b" ];
        color := "FFFF00" |});
    ("priority_4",
     {| terms :=
          [ "\btraining\s+budget\b";
            "\bprofessional\s+development\b";
            "\bmandatory\s+training\b";
            "\bcompliance\s+training\b";
            "\bharassment\s+training\b";
            "\bdiscrimination\b";
            "\bhostile\s+work\s+environment\b" ];
        color := "00FF00" |}) ]%string.

End Data.

(** ** [tool.py] *)

Module Tool.

Import Py Re Data.

(** The miner object after [__init__]: the configuration it was built
    with; [self.results] starts empty. *)
Record miner : Type := {
  base_dir : string;
  committees : list (string * committee_t);
  keywords : keywords_t
}.

(** [DeKalbPDFMiner.__init__]; [cs] and [kw] stand for the two dict
    literals it assigns to [self.committees] and [self.keywords].  The
    catalog is stored as written; no pattern is compiled or inspected. *)
Definition init (dir : string) (cs : list (string * committee_t))
    (kw : keywords_t) : exc miner :=
  Ok {| base_dir := dir; committees := cs; keywords := kw |}.

(** The context of one match, lines 284 to 289 of
    [search_keywords_in_text]. *)
Definition context_window (t : str) (sp : span) : str :=
  let start := Z.max 0 (sp.1 - 300) in
  let end_ := Z.min (len t) (sp.2 + 300) in
  let context := strip (slice t start end_) in
  join (s " ") (split context).

(** The dict appended for one match. *)
Definition finding_of (t : str) (page_num : Z) (info : pdf_info)
    (committee_name : string) (tier pattern : string) (sp : span) : finding :=
  {| committee := committee_name;
     pdf_filename := filename info;
     pdf_date := date_str info;
     page := page_num;
     priority := tier;
     keyword_pattern := pattern;
     matched_text := group t sp;
     context := context_window t sp;
     f_url := url info |}.

Section Search.

Context `{Engine}.

(** [DeKalbPDFMiner.search_keywords_in_text]; [kw] is [self.keywords].
    The unused [text_lower] is left out. *)
Definition search_keywords_in_text (kw : keywords_t) (t : str)
    (page_num : Z) (info : pdf_info) (committee_name : string)
  : exc (list finding) :=
  returning
    (for_each kw (fun tier =>
       for_each (terms tier.2) (fun pattern =>
         ms ← lift (finditer pattern t);
         for_each ms (fun sp =>
           modify (fun matches =>
             matches ++ [finding_of t page_num info committee_name
                                    tier.1 pattern sp]))))).

End Search.

(** [DeKalbPDFMiner.ocr_pdf]: its own [text_pages], its own [try]. *)
Definition ocr_pdf (pdf : pdf_file) : M xstate (list (Z * str)) :=
  fun st =>
    let body :=
      try_except
        (images ← open_with CallOCR (ocr pdf);
         for_each (enumerate 1 images) (fun ip =>
           t ← extract_text ip.2;
           keep_page ip.1 t);;
         note LogInfo)
        (fun _ => note LogError) in
    let st' := (body {| text_pages := []; seen := seen st |}).2 in
    (Ok (text_pages st'),
     {| text_pages := text_pages st; seen := seen st' |}).

Definition no_pages : M xstate bool :=
  st ← get;
  ret (match text_pages st with [] => true | _ => false end).

Definition set_pages (ps : list (Z * str)) : M xstate unit :=
  modify (fun st => {| text_pages := ps; seen := seen st |}).

(** The body of [DeKalbPDFMiner.extract_text_from_pdf]: one [try] around
    the three strategies. *)
Definition extract_body (pdf : pdf_file) : M xstate unit :=
  try_except
    (pages ← open_with CallPdfplumber (plumber pdf);
     for_each (enumerate 1 pages) (fun ip =>
       t ← extract_text ip.2;
       keep_page ip.1 t);;
     empty1 ← no_pages;
     when empty1
       (pages2 ← open_with CallPyPDF2 (pypdf2 pdf);
        for_each (enumerate 1 pages2) (fun ip =>
          t ← extract_text ip.2;
          keep_page ip.1 t));;
     empty2 ← no_pages;
     when empty2
       (note LogInfo;;
        ps ← ocr_pdf pdf;
        set_pages ps))
    (fun _ => note LogError).

(** [DeKalbPDFMiner.extract_text_from_pdf], with the effects it had. *)
Definition extract_text_from_pdf (pdf : pdf_file)
  : list (Z * str) * list event :=
  let st := (extract_body pdf {| text_pages := []; seen := [] |}).2 in
  (text_pages st, seen st).

(** [DeKalbPDFMiner.download_pdf] *)
Definition download_pdf (h : host) (info : pdf_info) (save_path : string)
  : M world bool :=
  try_except
    (w ← get;
     if path_exists w save_path
     then emit LogInfo;; ret true
     else
       response ← session_get h (url info);
       raise_for_status response;;
       open_wb h save_path;;
       for_each (chunks response) (write save_path);;
       when (stream_breaks response) (raise ConnectionError);;
       emit LogInfo;;
       ret true)
    (fun _ => emit LogError;; ret false).

(** [DeKalbPDFMiner.extract_pdf_links] of [tool.py]: one request, no
    retry. *)
Definition extract_pdf_links (h : host) (u : string)
  : M world (list pdf_info) :=
  try_except
    (response ← session_get h u;
     raise_for_status response;;
     emit LogInfo;;
     ret (page_links h u response))
    (fun _ => emit LogError;; ret []).

(** [self.extract_text_from_pdf(save_path)] run on the disk. *)
Definition extract_at (h : host) (path : string) : M world (list (Z * str)) :=
  fun w =>
    let r := extract_text_from_pdf (pdf_at h w path) in
    (Ok r.1, {| fs := fs w; sent := sent w; log := log w ++ r.2;
                results := results w |}).

Section Coordinator.

Context `{Engine}.

Variable self : miner.
Variable h : host.

(** One of the two document loops of [process_committee]. *)
Definition process_pdfs (committee_key committee_name bucket : string)
    (pdfs : list pdf_info) : M world unit :=
  for_each pdfs (fun info =>
    let save_path :=
      path_join (path_join (path_join (base_dir self) committee_key) bucket)
                (filename info) in
    ok ← download_pdf h info save_path;
    when ok
      (pages ← extract_at h save_path;
       for_each pages (fun pt =>
         matches ← lift (search_keywords_in_text (keywords self)
                           pt.2 pt.1 info committee_name);
         extend_results matches))).

(** [DeKalbPDFMiner.process_committee] of [tool.py], given the entry
    [self.committees[committee_key]]. *)
Definition process_committee (committee_key : string) (c : committee_t)
  : M world unit :=
  emit LogInfo;;
  current_pdfs ← extract_pdf_links h (main_url c);
  archive_pdfs ← extract_pdf_links h (archive_url c);
  process_pdfs committee_key (name c) "current" current_pdfs;;
  process_pdfs committee_key (name c) "archive" archive_pdfs.

(** The committee loop of [run], lines 544 to 546; the directory setup
    before it and the reports after it are not part of it. *)
Definition run_committees : M world unit :=
  for_each (committees self) (fun kc =>
    process_committee kc.1 kc.2;;
    emit (Sleep 2 2)).

End Coordinator.

End Tool.

(** ** [manual_pdf_analyzer.py] *)

Module Manual.

Import Py Re Data.

(** The dict appended by [ManualPDFAnalyzer.search_keywords_in_text]. *)
Record finding : Type := {
  pdf_filename : string;
  page : Z;
  priority : string;
  keyword : string;
  matched_text : str;
  context : str
}.

Definition finding_of (t : str) (page_num : Z) (pdf_name : string)
    (tier pattern : string) (sp : span) : finding :=
  {| pdf_filename := pdf_name;
     page := page_num;
     priority := tier;
     keyword := pattern;
     matched_text := group t sp;
     context := Tool.context_window t sp |}.

Section Search.

Context `{Engine}.

(** [ManualPDFAnalyzer.search_keywords_in_text]; here [self.keywords] maps
    a tier name to its list of patterns. *)
Definition search_keywords_in_text (kw : list (string * list string))
    (t : str) (page_num : Z) (pdf_name : string) : exc (list finding) :=
  returning
    (for_each kw (fun tier =>
       for_each tier.2 (fun pattern =>
         ms ← lift (finditer pattern t);
         for_each ms (fun sp =>
           modify (fun matches =>
             matches ++ [finding_of t page_num pdf_name
                                    tier.1 pattern sp]))))).

End Search.

(** [ManualPDFAnalyzer.extract_text_from_pdf]: a [try] around the file and
    a [try] around every page. *)
Definition extract_body (pdf : pdf_file) : M xstate unit :=
  try_except
    (pages ← open_with CallPyPDF2 (pypdf2 pdf);
     for_each (enumerate 1 pages) (fun ip =>
       try_except
         (t ← extract_text ip.2;
          keep_page ip.1 t)
         (fun _ => note (PrintWarning ip.1))))
    (fun _ => note PrintError).

Definition extract_text_from_pdf (pdf : pdf_file)
  : list (Z * str) * list event :=
  let st := (extract_body pdf {| text_pages := []; seen := [] |}).2 in
  (text_pages st, seen st).

(** What the analyzer prints, one constructor for each message. *)
Inductive line : Type :=
| Analyzing (pdf_name : string)
| Extraction (e : event)         (* a step of [extract_text_from_pdf] *)
| NoText
| Found (total_matches : Z)
| FolderMissing
| NoPdfFiles
| FoundFiles (n : Z)
| Complete (n total_findings : Z).

(** The analyzer object: [self.results], and what was printed so far. *)
Record analyzer : Type :=
  { results : list finding; printed : list line }.

(** The disk: what [os.walk] yields for a folder ([None] when the path does
    not exist) as pairs of a root and its file names, and how [PyPDF2]
    reads the file at a path. *)
Record disk : Type := {
  walk : str -> option (list (str * list str));
  pdf_of : str -> pdf_file
}.

Definition say (l : line) : M analyzer unit :=
  modify (fun a => {| results := results a; printed := printed a ++ [l] |}).

(** [self.results.extend(matches)] *)
Definition extend (ms : list finding) : M analyzer unit :=
  modify (fun a => {| results := results a ++ ms; printed := printed a |}).

(** [self.extract_text_from_pdf(pdf_path)] run on the disk. *)
Definition extract_in (d : disk) (pdf_path : str)
  : M analyzer (list (Z * str)) :=
  fun a =>
    let r := extract_text_from_pdf (pdf_of d pdf_path) in
    (Ok r.1, {| results := results a;
                printed := printed a ++ map Extraction r.2 |}).

Section Analyze.

Context `{Engine}.

Variable kw : list (string * list string).
Variable d : disk.

(** The page loop of [analyze_pdf]; [total_matches] is its counter. *)
Fixpoint count_matches (pdf_name : string) (text_pages : list (Z * str))
    (total_matches : Z) : M analyzer Z :=
  match text_pages with
  | [] => ret total_matches
  | pt :: text_pages' =>
      matches ← lift (search_keywords_in_text kw pt.2 pt.1 pdf_name);
      extend matches;;
      count_matches pdf_name text_pages'
                    (total_matches + Z.of_nat (length matches))
  end.

(** [ManualPDFAnalyzer.analyze_pdf] *)
Definition analyze_pdf (pdf_path : str) : M analyzer Z :=
  let pdf_name := string_of_list_ascii (basename pdf_path) in
  say (Analyzing pdf_name);;
  text_pages ← extract_in d pdf_path;
  match text_pages with
  | [] => say NoText;; ret 0
  | _ :: _ =>
      total_matches ← count_matches pdf_name text_pages 0;
      say (Found total_matches);;
      ret total_matches
  end.

(** The [pdf_files] that [analyze_folder] collects from a walk. *)
Definition pdf_files (tree : list (str * list str)) : list str :=
  flat_map (fun rf =>
    map (os_path_join rf.1)
        (filter (fun file => endswith (lower file) (s ".pdf")) rf.2)) tree.

(** The file loop of [analyze_folder]; [total_findings] is its counter. *)
Fixpoint analyze_all (files : list str) (total_findings : Z)
  : M analyzer Z :=
  match files with
  | [] => ret total_findings
  | pdf_path :: files' =>
      findings ← analyze_pdf pdf_path;
      analyze_all files' (total_findings + findings)
  end.

(** [ManualPDFAnalyzer.analyze_folder] *)
Definition analyze_folder (folder_path : str) : M analyzer unit :=
  match walk d folder_path with
  | None => say FolderMissing
  | Some tree =>
      match pdf_files tree with
      | [] => say NoPdfFiles
      | files =>
          say (FoundFiles (Z.of_nat (length files)));;
          total_findings ← analyze_all files 0;
          say (Complete (Z.of_nat (length files)) total_findings)
      end
  end.

End Analyze.

End Manual.

(** ** [pdf_miner_fixed.py] *)

Module Fixed.

Import Py Re Data.

(** [search_keywords_in_text] is, line for line, the one of [tool.py]. *)
Definition search_keywords_in_text `{Engine} := Tool.search_keywords_in_text.

(** One turn of the loop of [get_page_with_retry]: [Some r] is
    [return r], [None] goes on with the next attempt. *)
Definition attempt_once (h : host) (u : string) (max_retries attempt : Z)
  : M world (option response) :=
  try_except
    (emit (Sleep 2 5);;
     emit UpdateHeaders;;
     response ← session_get h u;
     if status_code response =? 200 then ret (Some response)
     else if status_code response =? 403 then
       emit LogWarning;;
       when (attempt <? max_retries - 1)
         (emit LogInfo;; emit (Sleep 10 20);; emit ClearCookies);;
       ret None
     else
       raise_for_status response;;
       ret None)
    (fun _ =>
       emit LogError;;
       when (attempt <? max_retries - 1) (emit (Sleep 5 10));;
       ret None).

Fixpoint attempts (h : host) (u : string) (max_retries : Z)
    (todo : list Z) : M world (option response) :=
  match todo with
  | [] => ret None
  | attempt :: todo' =>
      r ← attempt_once h u max_retries attempt;
      match r with
      | Some response => ret (Some response)
      | None => attempts h u max_retries todo'
      end
  end.

(** [DeKalbPDFMiner.get_page_with_retry] *)
Definition get_page_with_retry (h : host) (u : string) (max_retries : Z)
  : M world (option response) :=
  attempts h u max_retries (range max_retries).

(** [DeKalbPDFMiner.extract_pdf_links]; the default [max_retries] is 3. *)
Definition extract_pdf_links (h : host) (u : string)
  : M world (list pdf_info) :=
  r ← get_page_with_retry h u 3;
  match r with
  | None => emit LogError;; ret []
  | Some response => emit LogInfo;; ret (page_links h u response)
  end.

(** [DeKalbPDFMiner.download_pdf] *)
Definition download_pdf (h : host) (info : pdf_info) (save_path : string)
  : M world bool :=
  try_except
    (w ← get;
     if path_exists w save_path
     then emit LogInfo;; ret true
     else
       emit (Sleep 1 3);;
       emit UpdateHeaders;;
       response ← session_get h (url info);
       raise_for_status response;;
       open_wb h save_path;;
       for_each (chunks response) (write save_path);;
       when (stream_breaks response) (raise ConnectionError);;
       emit LogInfo;;
       ret true)
    (fun _ => emit LogError;; ret false).

(** The body of [DeKalbPDFMiner.extract_text_from_pdf]; [has_pdfplumber]
    is the module's [HAS_PDFPLUMBER]. *)
Definition extract_body (has_pdfplumber : bool) (pdf : pdf_file)
  : M xstate unit :=
  try_except
    (when has_pdfplumber
       (try_except
          (pages ← open_with CallPdfplumber (plumber pdf);
           for_each (enumerate 1 pages) (fun ip =>
             t ← extract_text ip.2;
             keep_page ip.1 t))
          (fun _ => ret tt));;
     empty1 ← Tool.no_pages;
     when empty1
       (pages2 ← open_with CallPyPDF2 (pypdf2 pdf);
        for_each (enumerate 1 pages2) (fun ip =>
          t ← extract_text ip.2;
          keep_page ip.1 t)))
    (fun _ => note LogError).

Definition extract_text_from_pdf (has_pdfplumber : bool) (pdf : pdf_file)
  : list (Z * str) * list event :=
  let st := (extract_body has_pdfplumber pdf
               {| text_pages := []; seen := [] |}).2 in
  (text_pages st, seen st).

(** [self.extract_text_from_pdf(save_path)] run on the disk. *)
Definition extract_at (has_pdfplumber : bool) (h : host) (path : string)
  : M world (list (Z * str)) :=
  fun w =>
    let r := extract_text_from_pdf has_pdfplumber (pdf_at h w path) in
    (Ok r.1, {| fs := fs w; sent := sent w; log := log w ++ r.2;
                results := results w |}).

Section Coordinator.

Context `{Engine}.

Variable has_pdfplumber : bool.
Variable self : Tool.miner.
Variable h : host.

(** One of the two document loops of [process_committee]; [bucket] is
    ['current'] or ['archive']. *)
Definition process_pdfs (committee_key committee_name bucket : string)
    (pdfs : list pdf_info) : M world unit :=
  for_each pdfs (fun info =>
    let save_path :=
      path_join (path_join (path_join (Tool.base_dir self) committee_key)
                           bucket) (filename info) in
    ok ← download_pdf h info save_path;
    when ok
      (pages ← extract_at has_pdfplumber h save_path;
       for_each pages (fun pt =>
         matches ← lift (search_keywords_in_text (Tool.keywords self)
                           pt.2 pt.1 info committee_name);
         extend_results matches))).

(** [DeKalbPDFMiner.process_committee], given the entry
    [self.committees[committee_key]]. *)
Definition process_committee (committee_key : string) (c : committee_t)
  : M world unit :=
  emit LogInfo;;
  current_pdfs ← extract_pdf_links h (main_url c);
  archive_pdfs ← extract_pdf_links h (archive_url c);
  process_pdfs committee_key (name c) "current" current_pdfs;;
  process_pdfs committee_key (name c) "archive" archive_pdfs.

(** The committee loop of [run], lines 472 to 475; the directory setup
    before it and the reports after it are not part of it. *)
Definition run_committees : M world unit :=
  for_each (Tool.committees self) (fun kc =>
    process_committee kc.1 kc.2;;
    emit (Sleep 5 10)).

End Coordinator.

End Fixed.

(** ** Notions of the specification *)

Module Spec.
Import Py Re Data.

(** A catalog reduced to what the scan reads: per tier, in order, its name
    and its patterns. *)
Definition catalog : Type := list (string * list string).

Definition catalog_of (kw : keywords_t) : catalog :=
  map (fun tier => (tier.1, terms tier.2)) kw.

(** The outcome of a loop that appends to a list, as a value: the lists
    appended by the turns, in order, or the first exception. *)
Fixpoint collect {A F} (out : A -> exc (list F)) (xs : list A)
  : exc (list F) :=
  match xs with
  | [] => Ok []
  | x :: xs' =>
      match out x with
      | Raise e => Raise e
      | Ok l =>
          match collect out xs' with
          | Raise e => Raise e
          | Ok l' => Ok (l ++ l')
          end
      end
  end.

(** The retention test of the extractors, [text and len(text.strip()) > 50]. *)
Definition retained (t : option str) : bool :=
  match t with
  | Some t' => truthy t && (50 <? len (strip t'))
  | None => false
  end.

(** The pages a page loop keeps, numbered from [i], and whether a page
    raised; the loop stops at the first page that raises. *)
Fixpoint page_loop (i : Z) (pages : list page_read)
  : list (Z * str) * bool :=
  match pages with
  | [] => ([], false)
  | PageRaises :: _ => ([], true)
  | PageText t :: pages' =>
      let r := page_loop (i + 1) pages' in
      (match t with
       | Some t' => if retained t then (i, t') :: r.1 else r.1
       | None => r.1
       end, r.2)
  end.

(** One strategy run on its own: what it keeps and whether it raised. *)
Definition strategy (o : opened) : list (Z * str) * bool :=
  match o with
  | Opened pages => page_loop 1 pages
  | OpenRaises => ([], true)
  end.

(** The pages kept by a loop that skips a page that raises, and the
    warnings it prints. *)
Fixpoint kept_all (i : Z) (pages : list page_read) : list (Z * str) :=
  match pages with
  | [] => []
  | PageRaises :: pages' => kept_all (i + 1) pages'
  | PageText t :: pages' =>
      match t with
      | Some t' => if retained t then (i, t') :: kept_all (i + 1) pages'
                   else kept_all (i + 1) pages'
      | None => kept_all (i + 1) pages'
      end
  end.

Fixpoint warnings (i : Z) (pages : list page_read) : list event :=
  match pages with
  | [] => []
  | PageRaises :: pages' => PrintWarning i :: warnings (i + 1) pages'
  | PageText _ :: pages' => warnings (i + 1) pages'
  end.

(** The library calls among the effects of an extraction. *)
Definition is_call (e : event) : bool :=
  match e with
  | CallPdfplumber | CallPyPDF2 | CallOCR => true
  | _ => false
  end.

Definition calls (evs : list event) : list event := filter is_call evs.

(** The outcome of [tool.py]'s extraction, case by case. *)
Definition tool_value (pdf : pdf_file) : list (Z * str) * list event :=
  let r1 := strategy (plumber pdf) in
  if r1.2 then (r1.1, [CallPdfplumber; LogError])
  else match r1.1 with
       | _ :: _ => (r1.1, [CallPdfplumber])
       | [] =>
           let r2 := strategy (pypdf2 pdf) in
           if r2.2 then (r2.1, [CallPdfplumber; CallPyPDF2; LogError])
           else match r2.1 with
                | _ :: _ => (r2.1, [CallPdfplumber; CallPyPDF2])
                | [] =>
                    let r3 := strategy (ocr pdf) in
                    (r3.1, [CallPdfplumber; CallPyPDF2; LogInfo; CallOCR;
                            if r3.2 then LogError else LogInfo])
                end
       end.

(** The outcome of the manual analyzer's extraction. *)
Definition manual_value (pdf : pdf_file) : list (Z * str) * list event :=
  match pypdf2 pdf with
  | Opened pages => (kept_all 1 pages, CallPyPDF2 :: warnings 1 pages)
  | OpenRaises => ([], [CallPyPDF2; PrintError])
  end.

(** The outcome of [pdf_miner_fixed.py]'s extraction. *)
Definition fixed_value (has_pdfplumber : bool) (pdf : pdf_file)
  : list (Z * str) * list event :=
  let r1 := if has_pdfplumber then strategy (plumber pdf) else ([], false) in
  let ev1 := if has_pdfplumber then [CallPdfplumber] else [] in
  match r1.1 with
  | _ :: _ => (r1.1, ev1)
  | [] =>
      let r2 := strategy (pypdf2 pdf) in
      (r2.1, ev1 ++ CallPyPDF2 :: if r2.2 then [LogError] else [])
  end.

(** A kept page: numbered from [i] on, not empty, and longer than 50
    characters once stripped. *)
Definition page_ok (i : Z) (p : Z * str) : Prop :=
  i <= p.1 /\ p.2 <> [] /\ 50 < len (strip p.2).

(** The answer to a request lets [download_pdf] create the file: the
    status passes [raise_for_status] and the path can be opened. *)
Definition creates_file (h : host) (u path : string) (n : nat) : bool :=
  match server h n u with
  | Responds r =>
      negb ((400 <=? status_code r) && (status_code r <? 600))
      && writable h path
  | ConnFails => false
  end.

(** None of the next [k] requests for [u] is answered with status 200. *)
Definition exhausted (h : host) (u : string) (w : world) (k : nat) : Prop :=
  forall i r, (i < k)%nat ->
    server h (length (sent w) + i) u = Responds r -> status_code r <> 200.

(** What an attempt of [get_page_with_retry] makes of an answer. *)
Definition accepted (o : http_outcome) : option response :=
  match o with
  | Responds r => if status_code r =? 200 then Some r else None
  | ConnFails => None
  end.

(** How often an effect occurs in a log. *)
Definition count_ev (e : event) (l : list event) : nat :=
  length (filter (fun x => event_eqb x e = true) l).

(** The effects of one attempt, by its answer. *)
Definition attempt_log (max_retries attempt : Z) (o : http_outcome)
  : list event :=
  let backoff (evs : list event) :=
    if attempt <? max_retries - 1 then evs else [] in
  [Sleep 2 5; UpdateHeaders]
  ++ match o with
     | ConnFails => LogError :: backoff [Sleep 5 10]
     | Responds r =>
         if status_code r =? 200 then []
         else if status_code r =? 403
              then LogWarning :: backoff [LogInfo; Sleep 10 20; ClearCookies]
              else if (400 <=? status_code r) && (status_code r <? 600)
                   then LogError :: backoff [Sleep 5 10]
                   else []
     end.

(** The answer is a 403. *)
Definition is_403 (o : http_outcome) : bool :=
  match o with
  | Responds r => status_code r =? 403
  | ConnFails => false
  end.

(** The effects of [k] turns of the loop of [get_page_with_retry], from
    attempt [attempt0] on, the first of them getting the answer to request
    number [request0] of the run. *)
Definition turns_log (h : host) (u : string) (max_retries : Z)
    (attempt0 request0 k : nat) : list event :=
  concat (map (fun i => attempt_log max_retries (Z.of_nat (attempt0 + i))
                          (server h (request0 + i) u))
              (seq 0 k)).

(** The effects of a call of [get_page_with_retry] made in [w] that takes
    [k] turns. *)
Definition retry_log (h : host) (u : string) (max_retries : Z) (w : world)
    (k : nat) : list event :=
  turns_log h u max_retries 0 (length (sent w)) k.

(** Of the first [k] requests of a call made in [w], those answered with
    a 403 in an attempt that is not the last one allowed. *)
Definition refused_early (h : host) (u : string) (max_retries : Z)
    (w : world) (k : nat) : list nat :=
  List.filter (fun i => is_403 (server h (length (sent w) + i) u)
                        && (Z.of_nat i <? max_retries - 1))
              (seq 0 k).

(** An answer that [get_page_with_retry] passes over without a word: a
    status other than 200 that is no error status. *)
Definition passed_over (o : http_outcome) : bool :=
  match o with
  | Responds r =>
      negb (status_code r =? 200)
      && negb ((400 <=? status_code r) && (status_code r <? 600))
  | ConnFails => false
  end.

(** Apart from the log file, the files are those of [w]. *)
Definition other_files_kept (w w' : world) : Prop :=
  forall p, p <> log_file -> fs w' !! p = fs w !! p.

(** The disk after the chunks of a body were written to a file. *)
Definition written (path : string) (cs : list (list Byte.byte))
    (m : gmap string (list Byte.byte)) : gmap string (list Byte.byte) :=
  foldl (fun m c => alter (fun old => old ++ c) path m) m cs.

(** What one call of [download_pdf] does to the world. *)
Definition download_effect (h : host) (info : pdf_info) (path : string)
    (w : world) (out : exc bool * world) : Prop :=
  results out.2 = results w
  /\ (exists b, out.1 = Ok b)
  /\ (path_exists w path = true ->
      out.1 = Ok true /\ sent out.2 = sent w /\ fs out.2 = fs w)
  /\ (path_exists w path = false ->
      sent out.2 = sent w ++ [url info]
      /\ path_exists out.2 path
         = creates_file h (url info) path (length (sent w))
      /\ (creates_file h (url info) path (length (sent w)) = false ->
          out.1 = Ok false /\ fs out.2 = fs w)).

(** The world after more effects were logged. *)
Definition logged (w : world) (evs : list event) : world :=
  {| fs := fs w; sent := sent w; log := log w ++ evs; results := results w |}.

(** The outcome of [download_pdf], case by case; [prelude] is what the
    variant does before it sends the request. *)
Definition download_value (prelude : list event) (h : host) (info : pdf_info)
    (path : string) (w : world) : exc bool * world :=
  if path_exists w path then (Ok true, logged w [LogInfo])
  else
    let w1 := {| fs := fs w; sent := sent w ++ [url info];
                 log := log w ++ prelude; results := results w |} in
    match server h (length (sent w)) (url info) with
    | ConnFails => (Ok false, logged w1 [LogError])
    | Responds r =>
        if (400 <=? status_code r) && (status_code r <? 600)
        then (Ok false, logged w1 [LogError])
        else if writable h path then
          let w2 := {| fs := written path (chunks r) (<[path := []]> (fs w));
                       sent := sent w1; log := log w1;
                       results := results w |} in
          if stream_breaks r then (Ok false, logged w2 [LogError])
          else (Ok true, logged w2 [LogInfo])
        else (Ok false, logged w1 [LogError])
    end.

(** The cache behaviour of a [download_pdf]: a file already at the path is
    a hit that sends nothing and returns [True]; two calls in a row send
    no request on a hit, one request when the first call creates the file,
    and two when the first call fails before it creates the file. *)
Definition caches_downloads
    (download : host -> pdf_info -> string -> M world bool) : Prop :=
  forall h info path w,
    let out1 := download h info path w in
    let out2 := download h info path out1.2 in
    (is_Some (fs w !! path) ->
     out1.1 = Ok true /\ sent out1.2 = sent w /\ fs out1.2 = fs w)
    /\ length (sent out2.2)
       = (length (sent w)
          + if path_exists w path then 0
            else if creates_file h (url info) path (length (sent w)) then 1
                 else 2)%nat.

(** A loop body [m] appends what [out] says, or raises what it says. *)
Definition emits {F} (m : M (list F) unit) (out : exc (list F)) : Prop :=
  forall st,
    match out with
    | Ok l => m st = (Ok tt, st ++ l)
    | Raise e => (m st).1 = Raise e
    end.

Section WithEngine.

Context `{Engine}.

(** The scan of a whole catalog as a value. *)
Definition scan_catalog {F} (cat : catalog) (t : str)
    (mk : string -> string -> span -> F) : exc (list F) :=
  collect (fun tier =>
    collect (fun pattern =>
      match finditer pattern t with
      | Ok ms => Ok (map (mk tier.1 pattern) ms)
      | Raise e => Raise e
      end) tier.2) cat.

(** The matches of a pattern in a text; none when it does not compile. *)
Definition pattern_spans (pattern : string) (t : str) : list span :=
  match re_compile pattern with
  | Some r => re_scan r t
  | None => []
  end.

(** A match occurrence: the index of the tier in the catalog, the index of
    the pattern in the tier, and the span of the match. *)
Definition occ : Type := nat * nat * span.

Fixpoint occ_patterns (ti pi : nat) (patterns : list string) (t : str)
  : list occ :=
  match patterns with
  | [] => []
  | p :: ps =>
      map (fun sp => (ti, pi, sp)) (pattern_spans p t)
      ++ occ_patterns ti (S pi) ps t
  end.

Fixpoint occ_tiers (ti : nat) (cat : catalog) (t : str) : list occ :=
  match cat with
  | [] => []
  | tier :: cat' => occ_patterns ti 0 tier.2 t ++ occ_tiers (S ti) cat' t
  end.

(** Every (tier, pattern, match) triple of a catalog and a text, tier by
    tier, pattern by pattern, match by match. *)
Definition occurrences (cat : catalog) (t : str) : list occ :=
  occ_tiers 0 cat t.

(** The order of the specification: tier first, then pattern, then the
    position of the match. *)
Definition occ_before (a b : occ) : Prop :=
  (a.1.1 < b.1.1)%nat
  \/ (a.1.1 = b.1.1 /\
      ((a.1.2 < b.1.2)%nat \/ (a.1.2 = b.1.2 /\ span_before a.2 b.2))).

(** The record emitted for an occurrence is the one of its tier, pattern
    and span. *)
Definition emitted_for {F} (cat : catalog)
    (mk : string -> string -> span -> F) (f : F) (o : occ) : Prop :=
  exists tier pattern,
    cat !! o.1.1 = Some tier /\ tier.2 !! o.1.2 = Some pattern
    /\ f = mk tier.1 pattern o.2.

(** The first pattern, in catalog order, that does not compile. *)
Definition first_invalid (cat : catalog) : option string :=
  find (fun p => match re_compile p with Some _ => false | None => true end)
       (concat (map snd cat)).

(** The number of matches of all patterns of all tiers. *)
Definition match_count (cat : catalog) (t : str) : nat :=
  sum_list (map (fun tier =>
    sum_list (map (fun p => length (pattern_spans p t)) tier.2)) cat).

(** A pattern that [re] refuses. *)
Definition invalid (p : string) : bool :=
  match re_compile p with Some _ => false | None => true end.

(** The records a scan appends, as a value. *)
Definition emit_patterns {F} (mk : string -> string -> span -> F) (t : str)
    (tier_name : string) (ps : list string) : list F :=
  concat (map (fun p => map (mk tier_name p) (pattern_spans p t)) ps).

Definition emit_tiers {F} (mk : string -> string -> span -> F) (t : str)
    (cat : catalog) : list F :=
  concat (map (fun tier => emit_patterns mk t tier.1 tier.2) cat).

Definition scan_pattern {F} (mk : string -> string -> span -> F) (t : str)
    (tier_name pattern : string) : exc (list F) :=
  match finditer pattern t with
  | Ok ms => Ok (map (mk tier_name pattern) ms)
  | Raise e => Raise e
  end.

End WithEngine.

End Spec.

(** ** Sample inputs *)

Module Samples.

Import Py Re Data.

Definition minutes : pdf_info :=
  {| url := "https://dekalbcounty.org/docs/minutes-01-05-2024.pdf";
     text := "Jan 5 Minutes";
     date_str := "01-05-2024";
     filename := "minutes-01-05-2024.pdf" |}.

(** A page with one name twice, and a phrase that two tiers match. *)
Definition page_text : str :=
  s "Steve   Hamm led the ethics training; Mr. Hamm left.".

(** Where the shipped catalog matches on that page: tier, pattern, span. *)
Definition page_matches : list (string * string * Re.span) :=
  [ ("priority_1", "\bSteve\s+Hamm\b", (0, 12));
    ("priority_1", "\bHamm\b", (8, 12));
    ("priority_1", "\bHamm\b", (42, 46));
    ("priority_1", "\bethics\s+training\b", (21, 36));
    ("priority_2", "\bethics\b.*?\b(training|policy|violation)\b",
     (21, 36)) ]%string.

Definition page_findings : list finding :=
  map (fun m => Tool.finding_of page_text 1 minutes "Highway" m.1.1 m.1.2 m.2)
      page_matches.

(** The manual analyzer's catalog: the same tiers without colours. *)
Definition manual_keywords : list (string * list string) :=
  Spec.catalog_of default_keywords.

Definition manual_findings : list Manual.finding :=
  map (fun m => Manual.finding_of page_text 1 "minutes-01-05-2024.pdf"
                                  m.1.1 m.1.2 m.2)
      page_matches.

(** A catalog whose second pattern is an unterminated group. *)
Definition broken_keywords : keywords_t :=
  [ ("priority_1",
     {| terms := ["\bHamm\b"; "("; "\bBroncos\b"]; color := "FF0000" |}) ]%string.

(** A page of text long enough to be kept, and one that is too short. *)
Definition long_page : str :=
  s "The Highway Committee met at 6:00 pm and approved the minutes.".

Definition short_page : str := s "Page 2 of 2".

(** A file whose first page makes the text extractors raise and whose
    second page is sound. *)
Definition damaged_pdf : pdf_file :=
  {| plumber := Opened [PageRaises; PageText (Some long_page)];
     pypdf2 := Opened [PageRaises; PageText (Some long_page)];
     ocr := Opened [PageText (Some long_page); PageText (Some long_page)] |}.

(** A file with a text layer. *)
Definition text_pdf : pdf_file :=
  {| plumber := Opened [PageText (Some long_page); PageText (Some short_page);
                        PageText None];
     pypdf2 := Opened [PageText (Some long_page)];
     ocr := Opened [PageText (Some long_page)] |}.

(** A scanned file: no text layer, text only by OCR. *)
Definition scanned_pdf : pdf_file :=
  {| plumber := Opened [PageText None; PageText (Some [])];
     pypdf2 := Opened [PageText (Some short_page); PageText None];
     ocr := Opened [PageText (Some long_page); PageText (Some short_page)] |}.

(** Servers: one that refuses every request, one that fails, one that
    answers 204, then 403, then drops the connection, then 200, and one
    that serves every request. *)
Definition reply (status : Z) : http_outcome :=
  Responds {| status_code := status; chunks := []; stream_breaks := false |}.

Definition host_of (srv : nat -> string -> http_outcome) : host :=
  {| server := srv; writable := fun _ => true; read_pdf := fun _ => text_pdf;
     page_links := fun _ _ => [] |}.

Definition blocking_host : host := host_of (fun _ _ => reply 403).

Definition failing_host : host := host_of (fun _ _ => reply 500).

Definition moody_host : host :=
  host_of (fun n _ =>
    match n with
    | 0%nat => reply 204
    | 1%nat => reply 403
    | 2%nat => ConnFails
    | _ => reply 200
    end).

Definition serving_host : host := host_of (fun _ _ => reply 200).

(** A fresh run: nothing on disk, nothing sent, nothing found. *)
Definition fresh : world :=
  {| fs := ∅; sent := []; log := []; results := [] |}.

Definition the_miner : Tool.miner :=
  {| Tool.base_dir := "dekalb_pdfs"; Tool.committees := [];
     Tool.keywords := default_keywords |}.

Definition agenda : pdf_info :=
  {| url := "https://dekalbcounty.org/docs/agenda-02-01-2024.pdf";
     text := "Feb 1 Agenda";
     date_str := "02-01-2024";
     filename := "agenda-02-01-2024.pdf" |}.

End Samples.

(** * Properties *)

(** ** The backtracking engine meets the library interface *)

Module SreFacts.
Import Py Sre.

Section Bounds.
Variable text : str.

Lemma reaches_step i k e d :
  text !! i = Some d -> k (S i) = Some e -> reaches text i k e.
Proof.
  intros Hd Hk. exists (S i). split; [lia|]. split; [|done].
  intros _. apply lookup_lt_Some in Hd. lia.
Qed.

Lemma reaches_here i k e : k i = Some e -> reaches text i k e.
Proof. intros Hk. exists i. split; [lia|]. split; [lia|done]. Qed.

Lemma reaches_trans i j k e :
  (i <= j)%nat -> ((i <= length text)%nat -> (j <= length text)%nat) ->
  reaches text j k e -> reaches text i k e.
Proof.
  intros Hij Hn (j' & H1 & H2 & H3). exists j'. split; [lia|]. split; [|done].
  intros Hi. apply H2. auto.
Qed.

Lemma orelse_Some a b e :
  orelse a b = Some e -> a = Some e \/ b = Some e.
Proof. destruct a; simpl; intros; [left|right]; congruence. Qed.

Lemma try_match_reaches r : forall i k e, try_match text r i k = Some e -> reaches text i k e.
Proof.
  induction r as [|c| |neg cl|neg|a IHa b IHb|a IHa b IHb|q lazy a IHa];
    intros i k e Hm; simpl in Hm.
  - by apply reaches_here.
  - destruct (text !! i) as [d|] eqn:Hd; [|done].
    destruct (ci_eq c d); [|done]. by eapply reaches_step.
  - destruct (text !! i) as [d|] eqn:Hd; [|done]. by eapply reaches_step.
  - destruct (text !! i) as [d|] eqn:Hd; [|done].
    destruct (xorb neg (in_cls cl d)); [|done]. by eapply reaches_step.
  - destruct (xorb neg (boundary text i)); [|done]. by apply reaches_here.
  - apply IHa in Hm as (j & Hij & Hn & Hb).
    apply IHb in Hb. eapply reaches_trans; eauto.
  - apply orelse_Some in Hm as [Hm|Hm]; eauto.
  - set (loop := fix loop (fuel i0 : nat) {struct fuel} : option nat :=
                   match fuel with
                   | O => k i0
                   | S fuel' =>
                       let more :=
                         try_match text a i0
                           (fun j => if (i0 <? j)%nat then loop fuel' j else None) in
                       if lazy then orelse (k i0) more else orelse more (k i0)
                   end) in Hm.
    assert (Hloop : forall fuel i0 e0, loop fuel i0 = Some e0 -> reaches text i0 k e0).
    { induction fuel as [|fuel IH]; intros i0 e0 Hl; simpl in Hl.
      - by apply reaches_here.
      - assert (Hmore : try_match text a i0
                  (fun j => if (i0 <? j)%nat then loop fuel j else None) = Some e0
                  -> reaches text i0 k e0).
        { intros Hx. apply IHa in Hx as (j & Hij & Hn & Hj).
          destruct (i0 <? j)%nat; [|done].
          apply IH in Hj. eapply reaches_trans; eauto. }
        destruct lazy; apply orelse_Some in Hl as [Hl|Hl];
          auto using reaches_here. }
    destruct q.
    + eauto.
    + apply IHa in Hm as (j & Hij & Hn & Hj).
      apply Hloop in Hj. eapply reaches_trans; eauto.
    + destruct lazy; apply orelse_Some in Hm as [Hm|Hm];
        eauto using reaches_here.
Qed.

Lemma match_at_bounds r i adv e :
  match_at text r i adv = Some e ->
  (i <= e)%nat /\ ((i <= length text)%nat -> (e <= length text)%nat)
  /\ (adv = true -> (i < e)%nat).
Proof.
  unfold match_at. intros Hm.
  apply try_match_reaches in Hm as (j & Hij & Hn & Hk).
  destruct adv; simpl in Hk.
  - destruct (j =? i)%nat eqn:Hji; [done|]. simplify_eq.
    apply Nat.eqb_neq in Hji. repeat split; auto; lia.
  - simplify_eq. repeat split; auto. done.
Qed.

Lemma search_bounds r : forall fuel i adv b e,
  search text r fuel i adv = Some (b, e) ->
  (i <= length text)%nat ->
  (i <= b)%nat /\ (b <= e)%nat /\ (e <= length text)%nat
  /\ (adv = true -> (i < e)%nat).
Proof.
  induction fuel as [|fuel IH]; intros i adv b e Hs Hi; simpl in Hs; [done|].
  destruct (match_at text r i adv) as [e'|] eqn:Hm.
  - simplify_eq. apply match_at_bounds in Hm as (? & ? & ?).
    repeat split; auto; lia.
  - destruct (i <? length text)%nat eqn:Hlt; [|done].
    apply Nat.ltb_lt in Hlt.
    apply IH in Hs as (? & ? & ? & _); [|lia].
    repeat split; auto; lia.
Qed.

Lemma scan_sorted r : forall fuel pos adv,
  (pos <= length text)%nat ->
  Sorted before (scan text r fuel pos adv)
  /\ Forall (fun be => (pos <= be.1)%nat /\ (be.1 <= be.2)%nat
                       /\ (be.2 <= length text)%nat
                       /\ (adv = true -> (pos < be.2)%nat))
            (scan text r fuel pos adv).
Proof.
  induction fuel as [|fuel IH]; intros pos adv Hpos; simpl.
  { split; constructor. }
  destruct (search text r (S (length text) - pos) pos adv) as [[b e]|] eqn:Hs.
  2: { split; constructor. }
  apply search_bounds in Hs as (Hb & Hbe & He & Hadv); [|done].
  destruct (IH e (b =? e)%nat He) as [Hsorted Hall].
  split.
  - constructor; [done|].
    destruct (scan text r fuel e (b =? e)%nat) as [|[b' e'] l]; constructor.
    apply Forall_cons in Hall as [(H1 & H2 & H3 & H4) _]. simpl in *.
    unfold before; simpl. repeat split; try lia.
    destruct (b =? e)%nat eqn:Heq.
    + apply Nat.eqb_eq in Heq. specialize (H4 eq_refl). lia.
    + apply Nat.eqb_neq in Heq. lia.
  - constructor; [simpl; repeat split; auto; lia|].
    eapply Forall_impl; [exact Hall|].
    intros [b' e'] (H1 & H2 & H3 & H4); simpl in *.
    repeat split; try lia. intros Ha. specialize (Hadv Ha). lia.
Qed.

End Bounds.

Lemma spans_bounds t r sp :
  In sp (spans t r) -> 0 <= sp.1 /\ sp.1 <= sp.2 /\ sp.2 <= len t.
Proof.
  unfold spans. rewrite in_map_iff. intros ([b e] & <- & Hin); simpl.
  destruct (scan_sorted t r (2 * length t + 2) 0 false) as [_ Hall]; [lia|].
  rewrite Forall_forall in Hall. apply list_elem_of_In, Hall in Hin. simpl in Hin.
  unfold len. lia.
Qed.

Lemma spans_sorted t r : Sorted Re.span_before (spans t r).
Proof.
  unfold spans.
  destruct (scan_sorted t r (2 * length t + 2) 0 false) as [Hs _]; [lia|].
  induction Hs as [|be l Hs IH Hhd]; simpl; constructor; [done|].
  destruct Hhd as [|be' l' Hb]; simpl; constructor.
  destruct Hb as (? & ? & ? & ?). unfold Re.span_before; simpl. lia.
Qed.

End SreFacts.

(** The backtracking engine as an instance of the library interface. *)
#[global] Instance sre_engine : Re.Engine := {|
  Re.regex := Sre.re;
  Re.re_compile := Sre.parse;
  Re.re_scan := fun r t => Sre.spans t r;
  Re.re_scan_bounds := fun r t sp => SreFacts.spans_bounds t r sp;
  Re.re_scan_sorted := fun r t => SreFacts.spans_sorted t r
|}.

(** ** Python strings *)

Module PyFacts.
Import Py.

Lemma split_from_words : forall t cur,
  Forall (fun c => isspace c = false) cur ->
  Forall word (split_from cur t).
Proof.
  induction t as [|c t IH]; intros cur Hcur; simpl.
  - destruct cur; constructor; [|constructor]. split; [done|exact Hcur].
  - destruct (isspace c) eqn:Hc.
    + destruct cur as [|d cur].
      * apply IH. constructor.
      * constructor; [split; [done|exact Hcur]|]. apply IH. constructor.
    + apply IH. apply Forall_app. split; [done|]. by constructor.
Qed.

Lemma split_words t : Forall word (split t).
Proof. apply split_from_words. constructor. Qed.

Lemma eqb_space_word c :
  isspace c = false -> Ascii.eqb c " " = false.
Proof.
  intros Hc. destruct (Ascii.eqb c " ") eqn:He; [|done].
  apply Ascii.eqb_eq in He. subst. discriminate.
Qed.

Lemma double_space_cons_word c t :
  isspace c = false -> double_space (c :: t) = double_space t.
Proof.
  intros Hc. destruct t as [|d t]; [done|].
  simpl. by rewrite (eqb_space_word c Hc).
Qed.

Lemma double_space_word_app w rest :
  Forall (fun c => isspace c = false) w -> w <> [] ->
  double_space (w ++ rest) = double_space rest.
Proof.
  induction 1 as [|c w Hc Hw IH]; intros Hne; [done|].
  rewrite <- app_comm_cons, double_space_cons_word by done.
  destruct w as [|d w]; [done|]. by apply IH.
Qed.

Lemma join_space_no_double ws :
  Forall word ws -> double_space (join (s " ") ws) = false.
Proof.
  induction 1 as [|w ws [Hne Hw] Hws IH]; [done|].
  destruct ws as [|w' ws].
  - simpl. rewrite <- (app_nil_r w), double_space_word_app by done. done.
  - change (join (s " ") (w :: w' :: ws))
      with (w ++ " "%char :: join (s " ") (w' :: ws)).
    rewrite double_space_word_app by done.
    apply Forall_cons in Hws as [[Hne' Hw'] _].
    destruct w' as [|c w']; [done|].
    apply Forall_cons in Hw' as [Hc _].
    assert (Hhead : exists rest, join (s " ") ((c :: w') :: ws) = c :: rest).
    { destruct ws; simpl; eauto. }
    destruct Hhead as [rest Hrest]. rewrite Hrest in IH |- *.
    rewrite double_space_cons_word in IH by done.
    simpl. rewrite (eqb_space_word c Hc). simpl.
    destruct rest; [done|exact IH].
Qed.

(** The context holds no whitespace other than single spaces. *)
Lemma join_space_chars ws :
  Forall word ws ->
  Forall (fun c => isspace c = true -> c = " "%char) (join (s " ") ws).
Proof.
  induction 1 as [|w ws [Hne Hw] Hws IH]; [constructor|].
  assert (Hwc : Forall (fun c => isspace c = true -> c = " "%char) w).
  { eapply Forall_impl; [exact Hw|]. simpl. intros c Hc Hc'. congruence. }
  destruct ws as [|w' ws]; [exact Hwc|].
  change (join (s " ") (w :: w' :: ws))
    with (w ++ " "%char :: join (s " ") (w' :: ws)).
  apply Forall_app. split; [done|]. constructor; [done|exact IH].
Qed.

Lemma split_from_word_prefix : forall w cur t,
  Forall (fun c => isspace c = false) w ->
  split_from cur (w ++ t) = split_from (cur ++ w) t.
Proof.
  induction w as [|c w IH]; intros cur t Hw.
  - by rewrite app_nil_r.
  - apply Forall_cons in Hw as [Hc Hw]. simpl. rewrite Hc.
    rewrite IH by done. by rewrite <- app_assoc.
Qed.

Lemma split_from_space cur t :
  cur <> [] -> split_from cur (" "%char :: t) = cur :: split_from [] t.
Proof. intros Hne. destruct cur; [by destruct Hne|done]. Qed.

Lemma split_join ws :
  Forall word ws -> split (join (s " ") ws) = ws.
Proof.
  induction 1 as [|w ws [Hne Hw] Hws IH]; [done|].
  unfold split in *.
  destruct ws as [|w' ws].
  - simpl. rewrite <- (app_nil_r w), split_from_word_prefix by done.
    simpl. rewrite app_nil_r. destruct w; [by destruct Hne|done].
  - change (join (s " ") (w :: w' :: ws))
      with (w ++ " "%char :: join (s " ") (w' :: ws)).
    rewrite split_from_word_prefix, app_nil_l by done.
    rewrite split_from_space by done. by rewrite IH.
Qed.

Lemma split_lstrip t : split (lstrip t) = split t.
Proof.
  unfold split. induction t as [|c t IH]; [done|].
  simpl. destruct (isspace c) eqn:Hc; [exact IH|].
  simpl. by rewrite Hc.
Qed.

Lemma split_from_spaces_end : forall t cur ws,
  Forall (fun c => isspace c = true) ws ->
  split_from cur (t ++ ws) = split_from cur t.
Proof.
  induction t as [|c t IH]; intros cur ws Hws.
  - simpl. revert cur. induction Hws as [|c ws Hc Hws IHws]; intros cur; [done|].
    simpl. rewrite Hc. destruct cur; rewrite IHws; done.
  - simpl. destruct (isspace c); [destruct cur|]; by rewrite IH.
Qed.

Lemma lstrip_decompose t :
  exists ws, Forall (fun c => isspace c = true) ws /\ t = ws ++ lstrip t.
Proof.
  induction t as [|c t (ws & Hws & Ht)].
  - exists []. split; [constructor|done].
  - simpl. destruct (isspace c) eqn:Hc.
    + exists (c :: ws). split; [by constructor|]. simpl. by f_equal.
    + exists []. split; [constructor|done].
Qed.

Lemma split_rstrip t : split (rstrip t) = split t.
Proof.
  unfold rstrip, split.
  destruct (lstrip_decompose (rev t)) as (ws & Hws & Ht).
  assert (Ht' : t = rev (lstrip (rev t)) ++ rev ws).
  { rewrite <- rev_app_distr, <- Ht. by rewrite rev_involutive. }
  rewrite Ht' at 2. rewrite split_from_spaces_end; [done|].
  apply Forall_rev. exact Hws.
Qed.

Lemma split_strip t : split (strip t) = split t.
Proof. unfold strip. by rewrite split_rstrip, split_lstrip. Qed.

(** A slice with bounds inside the string is the plain substring. *)
Lemma slice_in_range t a b :
  0 <= a -> a <= b -> b <= len t ->
  slice t a b = take (Z.to_nat (b - a)) (drop (Z.to_nat a) t).
Proof.
  intros Ha Hab Hb. unfold slice, slice_bound.
  destruct (a <? 0) eqn:Ha'; [apply Z.ltb_lt in Ha'; lia|].
  destruct (b <? 0) eqn:Hb'; [apply Z.ltb_lt in Hb'; lia|].
  rewrite !Z.min_l by lia. done.
Qed.

End PyFacts.

(** ** Loops that append *)

Module LoopFacts.
Import Py Re Data Spec.

Lemma for_each_emits {A F} (body : A -> M (list F) unit)
    (out : A -> exc (list F)) xs :
  (forall x, emits (body x) (out x)) ->
  emits (for_each xs body) (collect out xs).
Proof.
  intros Hbody. induction xs as [|x xs IH]; intros st; simpl.
  - unfold ret. by rewrite app_nil_r.
  - unfold bind. specialize (Hbody x st).
    destruct (out x) as [l|e].
    + rewrite Hbody. specialize (IH (st ++ l)).
      destruct (collect out xs) as [l'|e'].
      * rewrite IH. by rewrite app_assoc.
      * destruct (for_each xs body (st ++ l)) as [[?|?] ?]; simpl in *; congruence.
    + destruct (body x st) as [[?|?] ?]; simpl in *; congruence.
Qed.

Lemma returning_emits {F} (m : M (list F) unit) out :
  emits m out -> returning m = out.
Proof.
  intros Hm. unfold returning. specialize (Hm []).
  destruct out as [l|e].
  - by rewrite Hm.
  - destruct (m []) as [[?|?] ?]; simpl in *; congruence.
Qed.

Lemma collect_singletons {A F} (f : A -> F) xs :
  collect (fun x => Ok [f x]) xs = Ok (map f xs).
Proof. induction xs as [|x xs IH]; simpl; [done|]. by rewrite IH. Qed.

Section WithEngine.
Context `{Engine}.

Lemma pattern_emits {F} (mk : span -> F) pattern t :
  emits (ms ← lift (finditer pattern t);
         for_each ms (fun sp => modify (fun matches => matches ++ [mk sp])))
        (match finditer pattern t with
         | Ok ms => Ok (map mk ms)
         | Raise e => Raise e
         end).
Proof.
  intros st. unfold mbind, M_bind, bind, lift.
  destruct (finditer pattern t) as [ms|e]; [|done].
  pose proof (for_each_emits
    (fun sp => modify (fun matches : list F => matches ++ [mk sp]))
    (fun sp => Ok [mk sp]) ms) as Hl.
  rewrite collect_singletons in Hl. apply Hl. intros sp st'. done.
Qed.

Lemma tool_search_scan kw t page_num info cname :
  Tool.search_keywords_in_text kw t page_num info cname
  = scan_catalog (catalog_of kw) t (Tool.finding_of t page_num info cname).
Proof.
  unfold Tool.search_keywords_in_text, scan_catalog, catalog_of.
  apply returning_emits.
  induction kw as [|tier kw IH]; intros st; simpl.
  { unfold ret. by rewrite app_nil_r. }
  pose proof (for_each_emits
    (fun pattern =>
       ms ← lift (finditer pattern t);
       for_each ms (fun sp => modify (fun matches =>
         matches ++ [Tool.finding_of t page_num info cname tier.1 pattern sp])))
    (fun pattern =>
       match finditer pattern t with
       | Ok ms => Ok (map (Tool.finding_of t page_num info cname tier.1 pattern) ms)
       | Raise e => Raise e
       end) (terms tier.2)
    (fun pattern => pattern_emits _ pattern t) st) as Htier.
  unfold bind.
  destruct (collect _ (terms tier.2)) as [l|e].
  - rewrite Htier. specialize (IH (st ++ l)).
    destruct (collect _ (map _ kw)) as [l'|e'].
    + rewrite IH. by rewrite app_assoc.
    + destruct (for_each kw _ (st ++ l)) as [[?|?] ?]; simpl in *; congruence.
  - destruct (for_each (terms tier.2) _ st) as [[?|?] ?]; simpl in *; congruence.
Qed.

Lemma manual_search_scan kw t page_num pdf_name :
  Manual.search_keywords_in_text kw t page_num pdf_name
  = scan_catalog kw t (Manual.finding_of t page_num pdf_name).
Proof.
  unfold Manual.search_keywords_in_text, scan_catalog.
  apply returning_emits.
  apply (for_each_emits
    (fun tier : string * list string =>
       for_each tier.2 (fun pattern =>
         ms ← lift (finditer pattern t);
         for_each ms (fun sp => modify (fun matches =>
           matches ++ [Manual.finding_of t page_num pdf_name tier.1 pattern sp]))))
    (fun tier =>
       collect (fun pattern =>
         match finditer pattern t with
         | Ok ms => Ok (map (Manual.finding_of t page_num pdf_name tier.1 pattern) ms)
         | Raise e => Raise e
         end) tier.2)).
  intros tier. apply for_each_emits. intros pattern. apply pattern_emits.
Qed.

End WithEngine.
End LoopFacts.

(** ** Occurrences *)

Module OccFacts.
Import Py Re Data Spec LoopFacts.

Section WithEngine.
Context `{Engine}.

Lemma find_app {A} (P : A -> bool) l1 l2 :
  find P (l1 ++ l2) = match find P l1 with Some x => Some x | None => find P l2 end.
Proof. induction l1 as [|x l1 IH]; simpl; [done|]. by destruct (P x). Qed.

Lemma span_before_trans : Transitive span_before.
Proof. intros a b c. unfold span_before. lia. Qed.

Lemma span_before_irrefl a : ~ span_before a a.
Proof. unfold span_before. lia. Qed.

Lemma pattern_spans_sorted p t : StronglySorted span_before (pattern_spans p t).
Proof.
  unfold pattern_spans. destruct (re_compile p) as [r|]; [|constructor].
  apply (@Sorted_StronglySorted _ _ span_before_trans), re_scan_sorted.
Qed.

Lemma pattern_spans_bounds p t sp :
  sp ∈ pattern_spans p t -> 0 <= sp.1 /\ sp.1 <= sp.2 /\ sp.2 <= len t.
Proof.
  unfold pattern_spans. destruct (re_compile p) as [r|]; [|by inv 1].
  intros Hin. apply list_elem_of_In in Hin. by apply re_scan_bounds in Hin.
Qed.

(** *** The scan as a value *)

Section Emit.
Context {F : Type} (mk : string -> string -> span -> F) (t : str).

Lemma collect_patterns tier_name ps :
  collect (scan_pattern mk t tier_name) ps =
  match find invalid ps with
  | Some p => Raise (ReError p)
  | None => Ok (emit_patterns mk t tier_name ps)
  end.
Proof.
  induction ps as [|p ps IH]; simpl; [done|].
  unfold scan_pattern at 1, finditer, invalid at 1.
  unfold emit_patterns; simpl. unfold pattern_spans at 1.
  destruct (re_compile p) as [r|]; [|done].
  rewrite IH. by destruct (find invalid ps).
Qed.

Lemma scan_catalog_value cat :
  scan_catalog cat t mk =
  match first_invalid cat with
  | Some p => Raise (ReError p)
  | None => Ok (emit_tiers mk t cat)
  end.
Proof.
  unfold scan_catalog, first_invalid. fold invalid.
  induction cat as [|tier cat IH]; simpl; [done|].
  change (collect _ tier.2) with (collect (scan_pattern mk t tier.1) tier.2).
  rewrite collect_patterns, find_app.
  destruct (find invalid tier.2); [done|].
  rewrite IH. by destruct (find invalid (concat (map snd cat))).
Qed.

(** *** Findings against occurrences *)

Lemma emit_patterns_occ tier_name ti : forall ps pi,
  Forall2 (fun f o =>
             o.1.1 = ti /\ (pi <= o.1.2)%nat /\
             exists pattern, ps !! (o.1.2 - pi)%nat = Some pattern
                             /\ f = mk tier_name pattern o.2)
          (emit_patterns mk t tier_name ps) (occ_patterns ti pi ps t).
Proof.
  induction ps as [|p ps IH]; intros pi; [constructor|].
  unfold emit_patterns; simpl. apply Forall2_app.
  - apply Forall2_fmap, Forall_Forall2_diag, Forall_forall. intros sp _; simpl.
    split; [done|]. split; [lia|]. exists p. by rewrite Nat.sub_diag.
  - eapply Forall2_impl; [apply (IH (S pi))|].
    intros f [[ti' pi'] sp] (? & ? & pattern & Hl & ->); simpl in *.
    split; [done|]. split; [lia|]. exists pattern. split; [|done].
    replace (pi' - pi)%nat with (S (pi' - S pi)) by lia. done.
Qed.

Lemma emit_tiers_occ : forall cat ti,
  Forall2 (fun f o =>
             (ti <= o.1.1)%nat /\
             exists tier pattern,
               cat !! (o.1.1 - ti)%nat = Some tier
               /\ tier.2 !! o.1.2 = Some pattern
               /\ f = mk tier.1 pattern o.2)
          (emit_tiers mk t cat) (occ_tiers ti cat t).
Proof.
  induction cat as [|tier cat IH]; intros ti; [constructor|].
  unfold emit_tiers; simpl. apply Forall2_app.
  - eapply Forall2_impl; [apply (emit_patterns_occ tier.1 ti tier.2 0%nat)|].
    intros f [[ti' pi'] sp] (-> & _ & pattern & Hl & ->); simpl in *.
    split; [lia|]. exists tier, pattern. rewrite Nat.sub_diag.
    rewrite Nat.sub_0_r in Hl. done.
  - eapply Forall2_impl; [apply (IH (S ti))|].
    intros f [[ti' pi'] sp] (? & tier' & pattern & Hl & Hp & ->); simpl in *.
    split; [lia|]. exists tier', pattern. split; [|done].
    replace (ti' - ti)%nat with (S (ti' - S ti)) by lia. done.
Qed.

Lemma scan_catalog_ok cat fs :
  scan_catalog cat t mk = Ok fs ->
  first_invalid cat = None
  /\ Forall2 (emitted_for cat mk) fs (occurrences cat t).
Proof.
  rewrite scan_catalog_value. destruct (first_invalid cat); [done|].
  intros [= <-]. split; [done|].
  eapply Forall2_impl; [apply (emit_tiers_occ cat 0)|].
  intros f o (_ & tier & pattern & Hl & Hp & ->).
  exists tier, pattern. by rewrite Nat.sub_0_r in Hl.
Qed.

End Emit.

(** *** The occurrences *)

Lemma elem_of_occ_patterns ti t o : forall ps pi,
  o ∈ occ_patterns ti pi ps t <->
  o.1.1 = ti /\ (pi <= o.1.2)%nat /\
  exists pattern, ps !! (o.1.2 - pi)%nat = Some pattern
                  /\ o.2 ∈ pattern_spans pattern t.
Proof.
  induction ps as [|p ps IH]; intros pi; simpl.
  - split; [by inv 1|]. by intros (_ & _ & ? & ? & _).
  - rewrite elem_of_app, IH, list_elem_of_fmap. split.
    + intros [(sp & -> & Hsp)|(? & ? & pattern & Hl & Hsp)]; simpl.
      * split; [done|]. split; [lia|]. exists p. by rewrite Nat.sub_diag.
      * split; [done|]. split; [lia|]. exists pattern. split; [|done].
        replace (o.1.2 - pi)%nat with (S (o.1.2 - S pi)) by lia. done.
    + intros (Hti & Hpi & pattern & Hl & Hsp).
      destruct (decide (o.1.2 = pi)) as [Heq|Hne].
      * left. exists o.2. rewrite Heq, Nat.sub_diag in Hl. simplify_eq/=.
        split; [|done]. destruct o as [[??]?]; simpl in *. by subst.
      * right. split; [done|]. split; [lia|]. exists pattern. split; [|done].
        replace (o.1.2 - pi)%nat with (S (o.1.2 - S pi)) in Hl by lia. done.
Qed.

Lemma elem_of_occ_tiers t o : forall cat ti,
  o ∈ occ_tiers ti cat t <->
  (ti <= o.1.1)%nat /\
  exists tier pattern,
    cat !! (o.1.1 - ti)%nat = Some tier /\ tier.2 !! o.1.2 = Some pattern
    /\ o.2 ∈ pattern_spans pattern t.
Proof.
  induction cat as [|tier cat IH]; intros ti; simpl.
  - split; [by inv 1|]. by intros (_ & ? & ? & ? & _).
  - rewrite elem_of_app, IH, elem_of_occ_patterns. split.
    + intros [(<- & _ & pattern & Hl & Hsp)|(? & tier' & pattern & Hl & Hp & Hsp)].
      * split; [lia|]. exists tier, pattern. rewrite Nat.sub_diag.
        rewrite Nat.sub_0_r in Hl. done.
      * split; [lia|]. exists tier', pattern. split; [|done].
        replace (o.1.1 - ti)%nat with (S (o.1.1 - S ti)) by lia. done.
    + intros (Hti & tier' & pattern & Hl & Hp & Hsp).
      destruct (decide (o.1.1 = ti)) as [Heq|Hne].
      * left. rewrite Heq, Nat.sub_diag in Hl. simplify_eq/=.
        split; [done|]. split; [lia|]. exists pattern.
        by rewrite Nat.sub_0_r.
      * right. split; [lia|]. exists tier', pattern. split; [|done].
        replace (o.1.1 - ti)%nat with (S (o.1.1 - S ti)) in Hl by lia. done.
Qed.

Lemma elem_of_occurrences cat t o :
  o ∈ occurrences cat t <->
  exists tier pattern,
    cat !! o.1.1 = Some tier /\ tier.2 !! o.1.2 = Some pattern
    /\ o.2 ∈ pattern_spans pattern t.
Proof.
  unfold occurrences. rewrite elem_of_occ_tiers, Nat.sub_0_r.
  split; [by intros [_ ?]|]. intros ?. split; [lia|done].
Qed.

Lemma occ_patterns_sorted ti t : forall ps pi,
  StronglySorted occ_before (occ_patterns ti pi ps t).
Proof.
  induction ps as [|p ps IH]; intros pi; simpl; [constructor|].
  apply StronglySorted_app_2; [| |apply IH].
  - intros o1 o2 (sp & -> & _)%list_elem_of_fmap
      (Hti & Hpi & _)%elem_of_occ_patterns.
    right. simpl. split; [done|]. left. lia.
  - pose proof (pattern_spans_sorted p t) as Hs.
    induction Hs as [|sp l Hs IHs Hall]; simpl; constructor; [done|].
    apply Forall_fmap. eapply Forall_impl; [exact Hall|].
    intros sp' Hb. right. simpl. split; [done|]. right. done.
Qed.

Lemma occ_tiers_sorted t : forall cat ti,
  StronglySorted occ_before (occ_tiers ti cat t).
Proof.
  induction cat as [|tier cat IH]; intros ti; simpl; [constructor|].
  apply StronglySorted_app_2; [|apply occ_patterns_sorted|apply IH].
  intros o1 o2 (Hti & _)%elem_of_occ_patterns (Hti' & _)%elem_of_occ_tiers.
  left. lia.
Qed.

Lemma occurrences_sorted cat t : StronglySorted occ_before (occurrences cat t).
Proof. apply occ_tiers_sorted. Qed.

Lemma occ_before_irrefl o : ~ occ_before o o.
Proof.
  intros [?|[_ [?|[_ Hs]]]]; [lia|lia|]. by apply span_before_irrefl in Hs.
Qed.

Lemma sorted_irrefl_NoDup {A} (R : relation A) l :
  (forall x, ~ R x x) -> StronglySorted R l -> NoDup l.
Proof.
  intros Hirr. induction 1 as [|x l Hs IH Hall]; constructor; [|done].
  intros Hin. rewrite Forall_forall in Hall. by apply Hall, Hirr in Hin.
Qed.

Lemma occurrences_NoDup cat t : NoDup (occurrences cat t).
Proof.
  eapply sorted_irrefl_NoDup; [apply occ_before_irrefl|apply occurrences_sorted].
Qed.

Lemma length_occ_patterns ti t : forall ps pi,
  length (occ_patterns ti pi ps t)
  = sum_list (map (fun p => length (pattern_spans p t)) ps).
Proof.
  induction ps as [|p ps IH]; intros pi; simpl; [done|].
  by rewrite length_app, length_map, IH.
Qed.

Lemma length_occurrences cat t :
  length (occurrences cat t) = match_count cat t.
Proof.
  unfold occurrences, match_count. generalize 0%nat.
  induction cat as [|tier cat IH]; intros ti; simpl; [done|].
  by rewrite length_app, length_occ_patterns, IH.
Qed.

End WithEngine.
End OccFacts.

(** ** The context window *)

Module WindowFacts.
Import Py Re Data Spec.

(** Cutting a range of a list at an inner offset. *)
Lemma range_split {A} (l : list A) (a b c : nat) :
  (a <= b)%nat -> (b <= c)%nat ->
  take (c - a) (drop a l) = take (b - a) (drop a l) ++ take (c - b) (drop b l).
Proof.
  intros Hab Hbc.
  replace (c - a)%nat with ((b - a) + (c - b))%nat by lia.
  rewrite <- take_take_drop, drop_drop.
  by replace (a + (b - a))%nat with b by lia.
Qed.

(** The raw window of [context_window] is the clipped text before the
    match, the match, and the clipped text after it. *)
Lemma window_parts (t : str) (sp : span) :
  0 <= sp.1 -> sp.1 <= sp.2 -> sp.2 <= len t ->
  let b := Z.to_nat sp.1 in
  let e := Z.to_nat sp.2 in
  slice t (Z.max 0 (sp.1 - 300)) (Z.min (len t) (sp.2 + 300))
  = drop (b - 300) (take b t) ++ take (e - b) (drop b t) ++ take 300 (drop e t).
Proof.
  intros H0 Hbe He b e. unfold len in *.
  rewrite PyFacts.slice_in_range by (unfold len; lia).
  set (a := Z.to_nat (Z.max 0 (sp.1 - 300))).
  set (c := Z.to_nat (Z.min (Z.of_nat (length t)) (sp.2 + 300))).
  replace (Z.to_nat (Z.min (Z.of_nat (length t)) (sp.2 + 300) - Z.max 0 (sp.1 - 300)))
    with (c - a)%nat by (unfold a, c; lia).
  assert (Ha : a = (b - 300)%nat) by (unfold a, b; lia).
  assert (Hc : c = Nat.min (length t) (e + 300)) by (unfold c, e; lia).
  rewrite (range_split t a b c) by (unfold b, e in *; lia).
  rewrite (range_split t b e c) by (unfold b, e in *; lia).
  f_equal; [|f_equal].
  - rewrite Ha. rewrite skipn_firstn_comm. done.
  - destruct (decide (e + 300 <= length t)%nat) as [Hle|Hgt].
    + f_equal. lia.
    + rewrite !take_ge; [done| |]; rewrite length_drop; lia.
Qed.

End WindowFacts.

(** ** Text extraction, case by case *)

Module ExtractFacts.
Import Py Data Spec.

Lemma keep_page_run i t st :
  keep_page i t st
  = (Ok tt, {| text_pages := text_pages st
                 ++ match t with
                    | Some t' => if retained t then [(i, t')] else []
                    | None => []
                    end;
               seen := seen st |}).
Proof.
  destruct st as [tp sn]. unfold keep_page, retained, when.
  destruct t as [t'|].
  - destruct (truthy (Some t') && (50 <? len (strip t'))); simpl.
    + reflexivity.
    + unfold ret. by rewrite app_nil_r.
  - simpl. unfold ret. by rewrite app_nil_r.
Qed.

Lemma page_loop_run : forall pages i st,
  for_each (enumerate i pages)
    (fun ip => t ← extract_text ip.2; keep_page ip.1 t) st
  = (if (page_loop i pages).2 then Raise PdfError else Ok tt,
     {| text_pages := text_pages st ++ (page_loop i pages).1;
        seen := seen st |}).
Proof.
  induction pages as [|p pages IH]; intros i st.
  - destruct st. simpl. unfold ret. by rewrite app_nil_r.
  - destruct p as [t|]; simpl.
    + unfold mbind, M_bind, bind, ret. rewrite keep_page_run, IH. simpl.
      f_equal. f_equal. rewrite <- app_assoc. f_equal.
      destruct t as [t'|]; [|done]. by destruct (retained (Some t')).
    + destruct st. unfold mbind, M_bind, bind, raise. simpl.
      by rewrite app_nil_r.
Qed.

Lemma manual_loop_run : forall pages i st,
  for_each (enumerate i pages)
    (fun ip => try_except (t ← extract_text ip.2; keep_page ip.1 t)
                          (fun _ => note (PrintWarning ip.1))) st
  = (Ok tt, {| text_pages := text_pages st ++ kept_all i pages;
               seen := seen st ++ warnings i pages |}).
Proof.
  induction pages as [|p pages IH]; intros i st.
  - destruct st. simpl. unfold ret. by rewrite !app_nil_r.
  - destruct p as [t|]; simpl.
    + unfold bind, try_except, mbind, M_bind, bind, ret.
      rewrite keep_page_run, IH. simpl.
      f_equal. f_equal. rewrite <- app_assoc. f_equal.
      destruct t as [t'|]; [|done]. by destruct (retained (Some t')).
    + unfold bind, try_except, mbind, M_bind, bind, raise. simpl.
      rewrite IH. simpl. by rewrite <- app_assoc.
Qed.

Lemma tool_extract_value pdf :
  Tool.extract_text_from_pdf pdf = tool_value pdf.
Proof.
  unfold Tool.extract_text_from_pdf, Tool.extract_body, tool_value.
  unfold try_except, mbind, M_bind, bind, open_with, note, modify.
  destruct (plumber pdf) as [pages1|]; simpl; [|done].
  rewrite page_loop_run; simpl.
  destruct (page_loop 1 pages1) as [k1 [|]]; simpl; [done|].
  destruct k1 as [|kp k1]; simpl; [|done].
  destruct (pypdf2 pdf) as [pages2|]; simpl; [|done].
  rewrite page_loop_run; simpl.
  destruct (page_loop 1 pages2) as [k2 [|]]; simpl; [done|].
  destruct k2 as [|kp k2]; simpl; [|done].
  unfold Tool.ocr_pdf, try_except, mbind, M_bind, bind, open_with, note, modify.
  simpl.
  destruct (ocr pdf) as [pages3|]; simpl; [|done].
  rewrite page_loop_run; simpl.
  by destruct (page_loop 1 pages3) as [k3 [|]].
Qed.

Lemma manual_extract_value pdf :
  Manual.extract_text_from_pdf pdf = manual_value pdf.
Proof.
  unfold Manual.extract_text_from_pdf, manual_value.
  assert (Hbody : (Manual.extract_body pdf {| text_pages := []; seen := [] |}).2
                  = match pypdf2 pdf with
                    | Opened pages =>
                        {| text_pages := kept_all 1 pages;
                           seen := CallPyPDF2 :: warnings 1 pages |}
                    | OpenRaises =>
                        {| text_pages := []; seen := [CallPyPDF2; PrintError] |}
                    end).
  { unfold Manual.extract_body. unfold try_except at 1.
    unfold mbind, M_bind, bind, open_with, note, modify.
    destruct (pypdf2 pdf) as [pages|]; simpl; [|done].
    by rewrite manual_loop_run. }
  rewrite Hbody. by destruct (pypdf2 pdf).
Qed.

Lemma fixed_extract_value has_pdfplumber pdf :
  Fixed.extract_text_from_pdf has_pdfplumber pdf
  = fixed_value has_pdfplumber pdf.
Proof.
  unfold Fixed.extract_text_from_pdf, Fixed.extract_body, fixed_value.
  unfold try_except, mbind, M_bind, bind, open_with, note, modify.
  destruct has_pdfplumber; simpl.
  - destruct (plumber pdf) as [pages1|]; simpl.
    + rewrite page_loop_run; simpl.
      destruct (page_loop 1 pages1) as [k1 r1]; simpl.
      destruct r1; simpl.
      all: destruct k1 as [|kp k1]; simpl; [|done].
      all: destruct (pypdf2 pdf) as [pages2|]; simpl; [|done].
      all: rewrite page_loop_run; simpl.
      all: by destruct (page_loop 1 pages2) as [k2 [|]].
    + destruct (pypdf2 pdf) as [pages2|]; simpl; [|done].
      rewrite page_loop_run; simpl.
      by destruct (page_loop 1 pages2) as [k2 [|]].
  - destruct (pypdf2 pdf) as [pages2|]; simpl; [|done].
    rewrite page_loop_run; simpl.
    by destruct (page_loop 1 pages2) as [k2 [|]].
Qed.

Lemma retained_ok i j t :
  retained (Some t) = true -> i <= j -> page_ok i (j, t).
Proof.
  unfold retained, truthy. intros Hr Hij.
  destruct t as [|c t]; [done|]. simpl in Hr.
  apply Z.ltb_lt in Hr. by repeat split.
Qed.

Lemma page_ok_mono i i' p : i <= i' -> page_ok i' p -> page_ok i p.
Proof. unfold page_ok. intros ? (? & ? & ?). repeat split; auto; lia. Qed.

Lemma page_loop_ok : forall pages i, Forall (page_ok i) (page_loop i pages).1.
Proof.
  induction pages as [|p pages IH]; intros i; [constructor|].
  destruct p as [t|]; simpl; [|constructor].
  assert (Hrest : Forall (page_ok i) (page_loop (i + 1) pages).1).
  { eapply Forall_impl; [apply IH|]. intros p. apply page_ok_mono. lia. }
  destruct t as [t'|]; [|done].
  destruct (retained (Some t')) eqn:Hr; [|done].
  constructor; [|done]. apply retained_ok; [done|lia].
Qed.

Lemma kept_all_ok : forall pages i, Forall (page_ok i) (kept_all i pages).
Proof.
  induction pages as [|p pages IH]; intros i; [constructor|].
  assert (Hrest : Forall (page_ok i) (kept_all (i + 1) pages)).
  { eapply Forall_impl; [apply IH|]. intros p'. apply page_ok_mono. lia. }
  destruct p as [t|]; simpl; [|done].
  destruct t as [t'|]; [|done].
  destruct (retained (Some t')) eqn:Hr; [|done].
  constructor; [|done]. apply retained_ok; [done|lia].
Qed.

Lemma strategy_ok o : Forall (page_ok 1) (strategy o).1.
Proof. destruct o; simpl; [apply page_loop_ok|constructor]. Qed.

(** The loop that skips raising pages keeps exactly the pages that pass
    the retention test, at their own page numbers. *)
Lemma elem_of_kept_all j t : forall pages i,
  (j, t) ∈ kept_all i pages <->
  i <= j /\ pages !! Z.to_nat (j - i) = Some (PageText (Some t))
  /\ retained (Some t) = true.
Proof.
  induction pages as [|p pages IH]; intros i; simpl.
  - split; [by inv 1|]. by intros (_ & ? & _).
  - assert (Hnext : (j, t) ∈ kept_all (i + 1) pages <->
              i < j /\ (p :: pages) !! Z.to_nat (j - i) = Some (PageText (Some t))
              /\ retained (Some t) = true).
    { rewrite IH. split.
      - intros (? & Hl & ?). split; [lia|]. split; [|done].
        replace (Z.to_nat (j - i)) with (S (Z.to_nat (j - (i + 1)))) by lia. done.
      - intros (? & Hl & ?). split; [lia|]. split; [|done].
        replace (Z.to_nat (j - i)) with (S (Z.to_nat (j - (i + 1)))) in Hl by lia.
        done. }
    assert (Hhere : i <= j ->
              (p :: pages) !! Z.to_nat (j - i) = Some (PageText (Some t)) ->
              i < j \/ (i = j /\ p = PageText (Some t))).
    { intros Hij Hl. destruct (decide (i = j)) as [->|]; [|left; lia].
      right. rewrite Z.sub_diag in Hl. simpl in Hl. by simplify_eq. }
    destruct p as [[t'|]|].
    + destruct (retained (Some t')) eqn:Hr.
      * rewrite elem_of_cons, Hnext. split.
        -- intros [[= <- <-]|(? & ? & ?)].
           ++ split; [lia|]. rewrite Z.sub_diag. done.
           ++ split; [lia|done].
        -- intros (Hij & Hl & Hret).
           destruct (Hhere Hij Hl) as [?|[-> [= ->]]]; [right|left]; done.
      * rewrite Hnext. split; [intros (? & ? & ?); split; [lia|done]|].
        intros (Hij & Hl & Hret).
        destruct (Hhere Hij Hl) as [?|[-> [= ->]]]; [done|].
        exfalso. revert Hr Hret. unfold retained. simpl. congruence.
    + rewrite Hnext. split; [intros (? & ? & ?); split; [lia|done]|].
      intros (Hij & Hl & Hret).
      destruct (Hhere Hij Hl) as [?|[-> [=]]]; done.
    + rewrite Hnext. split; [intros (? & ? & ?); split; [lia|done]|].
      intros (Hij & Hl & Hret).
      destruct (Hhere Hij Hl) as [?|[-> [=]]]; done.
Qed.

End ExtractFacts.

(** ** Fetching, case by case *)

Module FetchFacts.
Import Py Data Spec.

Lemma attempt_once_run h u max_retries attempt w :
  let out := Fixed.attempt_once h u max_retries attempt w in
  out.1 = Ok (accepted (server h (length (sent w)) u))
  /\ fs out.2 = fs w /\ sent out.2 = sent w ++ [u]
  /\ results out.2 = results w.
Proof.
  unfold Fixed.attempt_once, try_except, mbind, M_bind, bind, session_get,
    raise_for_status, accepted, when, emit, modify, ret, raise.
  simpl.
  destruct (server h (length (sent w)) u) as [|r]; simpl.
  { by destruct (attempt <? max_retries - 1). }
  destruct (status_code r =? 200); simpl; [done|].
  destruct (status_code r =? 403); simpl.
  { by destruct (attempt <? max_retries - 1). }
  destruct ((400 <=? status_code r) && (status_code r <? 600)); simpl; [|done].
  by destruct (attempt <? max_retries - 1).
Qed.

Lemma accepted_200 o r : accepted o = Some r -> status_code r = 200.
Proof.
  destruct o as [|r']; simpl; [done|].
  destruct (status_code r' =? 200) eqn:Hs; [|done].
  intros [= <-]. by apply Z.eqb_eq.
Qed.

Lemma attempts_run h u max_retries : forall todo w,
  let out := Fixed.attempts h u max_retries todo w in
  (exists o, out.1 = Ok o /\ forall r, o = Some r -> status_code r = 200)
  /\ fs out.2 = fs w /\ results out.2 = results w
  /\ (exhausted h u w (length todo) ->
      out.1 = Ok None /\ sent out.2 = sent w ++ replicate (length todo) u).
Proof.
  induction todo as [|attempt todo IH]; intros w; simpl.
  { split; [by exists None|]. split; [done|]. split; [done|].
    intros _. by rewrite app_nil_r. }
  unfold mbind, M_bind, bind.
  destruct (attempt_once_run h u max_retries attempt w) as (H1 & H2 & H3 & H4).
  destruct (Fixed.attempt_once h u max_retries attempt w) as [o1 w1].
  simpl in *. subst o1.
  destruct (accepted (server h (length (sent w)) u)) as [r|] eqn:Hacc.
  - simpl. split; [exists (Some r); split; [done|]; intros ? [= <-];
                   by eapply accepted_200|].
    split; [done|]. split; [done|].
    intros Hex. exfalso.
    destruct (server h (length (sent w)) u) as [|r'] eqn:Hsrv; [done|].
    apply accepted_200 in Hacc as H200. simpl in Hacc.
    destruct (status_code r' =? 200) eqn:Hs; [|done]. apply Z.eqb_eq in Hs.
    apply (Hex 0%nat r'); [lia|by rewrite Nat.add_0_r|done].
  - destruct (IH w1) as (Ho & Hfs & Hres & Hexh).
    split; [done|]. split; [congruence|]. split; [congruence|].
    intros Hex.
    destruct Hexh as [Hnone Hsent].
    { intros i r Hi Hsrv. apply (Hex (S i) r); [lia|].
      rewrite H3, length_app in Hsrv. simpl in Hsrv.
      by replace (length (sent w) + S i)%nat
        with (length (sent w) + 1 + i)%nat by lia. }
    split; [done|]. rewrite Hsent, H3, <- app_assoc. done.
Qed.

Lemma length_range n : length (range n) = Z.to_nat n.
Proof. unfold range. by rewrite length_map, length_seq. Qed.

Lemma for_each_write path cs : forall w,
  for_each cs (write path) w
  = (Ok tt, {| fs := written path cs (fs w); sent := sent w; log := log w;
               results := results w |}).
Proof.
  induction cs as [|c cs IH]; intros w; simpl.
  - by destruct w.
  - unfold bind. simpl. by rewrite IH.
Qed.

Lemma written_exists path cs m :
  is_Some (written path cs m !! path) <-> is_Some (m !! path).
Proof.
  revert m. induction cs as [|c cs IH]; intros m; simpl; [done|].
  rewrite IH, lookup_alter_eq. by rewrite fmap_is_Some.
Qed.

Lemma path_exists_true w path :
  path_exists w path = true <-> is_Some (fs w !! path).
Proof. unfold path_exists. by rewrite bool_decide_eq_true. Qed.

Lemma path_exists_same_fs w w' path :
  fs w' = fs w -> path_exists w' path = path_exists w path.
Proof. unfold path_exists. by intros ->. Qed.

Lemma fixed_download_value h info path w :
  Fixed.download_pdf h info path w
  = download_value [Sleep 1 3; UpdateHeaders] h info path w.
Proof.
  unfold Fixed.download_pdf, download_value, logged, try_except, mbind,
    M_bind, bind, session_get, raise_for_status, open_wb, when, emit, modify,
    ret, raise, get.
  simpl.
  destruct (path_exists w path); simpl; [done|].
  destruct (server h (length (sent w)) (url info)) as [|r]; simpl;
    [by rewrite <- !app_assoc|].
  destruct ((400 <=? status_code r) && (status_code r <? 600)); simpl;
    [by rewrite <- !app_assoc|].
  destruct (writable h path); simpl; [|by rewrite <- !app_assoc].
  rewrite for_each_write; simpl.
  destruct (stream_breaks r); simpl; by rewrite <- !app_assoc.
Qed.

Lemma tool_download_value h info path w :
  Tool.download_pdf h info path w = download_value [] h info path w.
Proof.
  unfold Tool.download_pdf, download_value, logged, try_except, mbind,
    M_bind, bind, session_get, raise_for_status, open_wb, when, emit, modify,
    ret, raise, get.
  simpl.
  destruct (path_exists w path); simpl; [done|].
  destruct (server h (length (sent w)) (url info)) as [|r]; simpl;
    [by rewrite app_nil_r|].
  destruct ((400 <=? status_code r) && (status_code r <? 600)); simpl;
    [by rewrite app_nil_r|].
  destruct (writable h path); simpl; [|by rewrite app_nil_r].
  rewrite for_each_write; simpl.
  destruct (stream_breaks r); simpl; by rewrite app_nil_r.
Qed.

Lemma download_value_effect prelude h info path w :
  download_effect h info path w (download_value prelude h info path w).
Proof.
  unfold download_effect, download_value, creates_file.
  destruct (path_exists w path) eqn:Hex; simpl.
  { split; [done|]. split; [by eexists|]. done. }
  assert (Hnew : forall cs l,
            path_exists {| fs := written path cs (<[path := []]> (fs w));
                           sent := sent w ++ [url info]; log := l;
                           results := results w |} path = true).
  { intros cs l. apply path_exists_true. simpl. apply written_exists.
    by rewrite lookup_insert_eq. }
  assert (Hold : forall l,
            path_exists {| fs := fs w; sent := sent w ++ [url info]; log := l;
                           results := results w |} path = false).
  { intros l. by rewrite <- Hex. }
  destruct (server h (length (sent w)) (url info)) as [|r]; simpl.
  { split; [done|]. split; [by eexists|]. split; [done|]. intros _.
    split; [done|]. split; [apply Hold|done]. }
  destruct ((400 <=? status_code r) && (status_code r <? 600)); simpl.
  { split; [done|]. split; [by eexists|]. split; [done|]. intros _.
    split; [done|]. split; [apply Hold|done]. }
  destruct (writable h path); simpl.
  2: { split; [done|]. split; [by eexists|]. split; [done|]. intros _.
       split; [done|]. split; [apply Hold|done]. }
  destruct (stream_breaks r); simpl.
  all: split; [done|]; split; [by eexists|]; split; [done|]; intros _.
  all: split; [done|]; split; [apply Hnew|done].
Qed.

Lemma fixed_download_effect h info path w :
  download_effect h info path w (Fixed.download_pdf h info path w).
Proof. rewrite fixed_download_value. apply download_value_effect. Qed.

Lemma tool_download_effect h info path w :
  download_effect h info path w (Tool.download_pdf h info path w).
Proof. rewrite tool_download_value. apply download_value_effect. Qed.

(** Two calls in a row, counted. *)
Lemma two_calls_count download h info path w :
  (forall w', download_effect h info path w' (download h info path w')) ->
  let out1 : exc bool * world := download h info path w in
  let out2 : exc bool * world := download h info path out1.2 in
  length (sent out2.2)
  = (length (sent w)
     + if path_exists w path then 0
       else if creates_file h (url info) path (length (sent w)) then 1
            else 2)%nat.
Proof.
  intros Heff out1 out2.
  destruct (Heff w) as (_ & _ & Hhit & Hmiss). fold out1 in Hhit, Hmiss.
  destruct (Heff out1.2) as (_ & _ & Hhit2 & Hmiss2).
  fold out2 in Hhit2, Hmiss2.
  destruct (path_exists w path) eqn:Hex.
  - destruct (Hhit eq_refl) as (_ & Hsent & Hfs).
    rewrite (path_exists_same_fs _ _ _ Hfs), Hex in Hhit2.
    destruct (Hhit2 eq_refl) as (_ & Hsent2 & _).
    rewrite Hsent2, Hsent. lia.
  - destruct (Hmiss eq_refl) as (Hsent & Hnow & _).
    destruct (creates_file h (url info) path (length (sent w))).
    + destruct (Hhit2 Hnow) as (_ & Hsent2 & _).
      rewrite Hsent2, Hsent, length_app. simpl. lia.
    + destruct (Hmiss2 Hnow) as (Hsent2 & _).
      rewrite Hsent2, Hsent, !length_app. simpl. lia.
Qed.

Lemma count_ev_app e l1 l2 :
  count_ev e (l1 ++ l2) = (count_ev e l1 + count_ev e l2)%nat.
Proof. unfold count_ev. by rewrite filter_app, length_app. Qed.

Lemma attempt_once_log h u max_retries attempt w :
  log (Fixed.attempt_once h u max_retries attempt w).2
  = log w ++ attempt_log max_retries attempt (server h (length (sent w)) u).
Proof.
  unfold Fixed.attempt_once, attempt_log, try_except, mbind, M_bind, bind,
    session_get, raise_for_status, when, emit, modify, ret, raise.
  simpl.
  destruct (server h (length (sent w)) u) as [|r]; simpl.
  { destruct (attempt <? max_retries - 1); simpl; by rewrite <- !app_assoc. }
  destruct (status_code r =? 200); simpl; [by rewrite <- !app_assoc|].
  destruct (status_code r =? 403); simpl.
  { destruct (attempt <? max_retries - 1); simpl; by rewrite <- !app_assoc. }
  destruct ((400 <=? status_code r) && (status_code r <? 600)); simpl;
    [|by rewrite <- !app_assoc].
  destruct (attempt <? max_retries - 1); simpl; by rewrite <- !app_assoc.
Qed.

Lemma logger_lines_app l1 l2 :
  logger_lines (l1 ++ l2) = logger_lines l1 ++ logger_lines l2.
Proof.
  induction l1 as [|e l1 IH]; simpl; [done|].
  destruct (is_logger e); simpl; by rewrite IH.
Qed.

Lemma turns_log_cons h u max_retries a n0 k :
  turns_log h u max_retries a n0 (S k)
  = attempt_log max_retries (Z.of_nat a) (server h n0 u)
    ++ turns_log h u max_retries (S a) (S n0) k.
Proof.
  unfold turns_log. rewrite <- cons_seq, <- seq_shift. cbn [map concat].
  rewrite !Nat.add_0_r. f_equal. rewrite map_map. f_equal.
  apply map_ext. intros i. by rewrite !Nat.add_succ_r.
Qed.

Lemma turns_log_snoc h u max_retries a n0 k :
  turns_log h u max_retries a n0 (S k)
  = turns_log h u max_retries a n0 k
    ++ attempt_log max_retries (Z.of_nat (a + k)) (server h (n0 + k) u).
Proof.
  unfold turns_log. rewrite seq_S, map_app, concat_app. cbn [map concat].
  by rewrite app_nil_r.
Qed.

(** What the loop of [get_page_with_retry] sends and does, turn by turn. *)
Lemma attempts_log h u max_retries : forall n a w,
  let out := Fixed.attempts h u max_retries (map Z.of_nat (seq a n)) w in
  exists k,
    (k <= n)%nat
    /\ sent out.2 = sent w ++ replicate k u
    /\ log out.2 = log w ++ turns_log h u max_retries a (length (sent w)) k.
Proof.
  induction n as [|n IH]; intros a w; simpl.
  { exists 0%nat. simpl. by rewrite !app_nil_r. }
  unfold mbind, M_bind, bind.
  pose proof (attempt_once_log h u max_retries (Z.of_nat a) w) as Hlog.
  destruct (attempt_once_run h u max_retries (Z.of_nat a) w)
    as (Hres & _ & Hsent & _).
  destruct (Fixed.attempt_once h u max_retries (Z.of_nat a) w) as [o1 w1].
  simpl in *. subst o1.
  destruct (accepted (server h (length (sent w)) u)) as [r|].
  - simpl. exists 1%nat. split; [lia|]. split; [done|].
    rewrite turns_log_cons. unfold turns_log. simpl.
    by rewrite app_nil_r.
  - destruct (IH (S a) w1) as (k & Hk & Hs & Hl).
    exists (S k). split; [lia|].
    split; [by rewrite Hs, Hsent, <- app_assoc|].
    rewrite Hl, Hlog, turns_log_cons, Hsent, length_app, <- app_assoc.
    simpl. by rewrite Nat.add_1_r.
Qed.

Lemma retry_trace h u max_retries w :
  let out := Fixed.get_page_with_retry h u max_retries w in
  exists k,
    (k <= Z.to_nat max_retries)%nat
    /\ sent out.2 = sent w ++ replicate k u
    /\ log out.2 = log w ++ retry_log h u max_retries w k.
Proof. apply (attempts_log h u max_retries (Z.to_nat max_retries) 0 w). Qed.

Lemma retry_exhausted h u max_retries w :
  exhausted h u w (Z.to_nat max_retries) ->
  let out := Fixed.get_page_with_retry h u max_retries w in
  out.1 = Ok None
  /\ fs out.2 = fs w /\ results out.2 = results w
  /\ sent out.2 = sent w ++ replicate (Z.to_nat max_retries) u
  /\ log out.2 = log w ++ retry_log h u max_retries w (Z.to_nat max_retries).
Proof.
  intros Hex. cbv zeta.
  destruct (attempts_run h u max_retries (range max_retries) w)
    as (_ & Hfs & Hres & Hnone).
  rewrite length_range in Hnone. destruct (Hnone Hex) as [Hout Hsent].
  destruct (retry_trace h u max_retries w) as (k & _ & Hs & Hl).
  unfold Fixed.get_page_with_retry in *.
  split; [done|]. split; [done|]. split; [done|]. split; [done|].
  rewrite Hs in Hsent. apply app_inv_head in Hsent.
  apply (f_equal length) in Hsent. rewrite !length_replicate in Hsent.
  by subst k.
Qed.

Lemma attempt_log_counts max_retries attempt o :
  count_ev (Sleep 2 5) (attempt_log max_retries attempt o) = 1%nat
  /\ count_ev UpdateHeaders (attempt_log max_retries attempt o) = 1%nat
  /\ count_ev ClearCookies (attempt_log max_retries attempt o)
     = if is_403 o && (attempt <? max_retries - 1) then 1%nat else 0%nat.
Proof.
  unfold attempt_log, is_403.
  destruct o as [|r]; simpl.
  { by destruct (attempt <? max_retries - 1). }
  destruct (status_code r =? 200) eqn:H200.
  { apply Z.eqb_eq in H200. rewrite H200. done. }
  destruct (status_code r =? 403); simpl.
  { by destruct (attempt <? max_retries - 1). }
  destruct ((400 <=? status_code r) && (status_code r <? 600)); [|done].
  by destruct (attempt <? max_retries - 1).
Qed.

Lemma retry_log_counts h u max_retries w k :
  count_ev (Sleep 2 5) (retry_log h u max_retries w k) = k
  /\ count_ev UpdateHeaders (retry_log h u max_retries w k) = k
  /\ count_ev ClearCookies (retry_log h u max_retries w k)
     = length (refused_early h u max_retries w k).
Proof.
  unfold retry_log, refused_early. induction k as [|k (IH1 & IH2 & IH3)].
  { done. }
  destruct (attempt_log_counts max_retries (Z.of_nat k)
              (server h (length (sent w) + k) u)) as (H1 & H2 & H3).
  rewrite turns_log_snoc, !count_ev_app, IH1, IH2, IH3, seq_S,
    List.filter_app, length_app.
  simpl. rewrite H1, H2, H3.
  split; [lia|]. split; [lia|].
  by destruct (is_403 (server h (length (sent w) + k) u)
               && (Z.of_nat k <? max_retries - 1)).
Qed.

Lemma refused_early_none h u max_retries w k :
  (forall i, (i < k)%nat ->
     is_403 (server h (length (sent w) + i) u) = false) ->
  refused_early h u max_retries w k = [].
Proof.
  unfold refused_early. induction k as [|k IH]; intros Hno; [done|].
  rewrite seq_S, List.filter_app, IH by (intros i Hi; apply Hno; lia).
  simpl. by rewrite Hno by lia.
Qed.

Lemma attempt_log_passed_over max_retries attempt o :
  passed_over o = true ->
  logger_lines (attempt_log max_retries attempt o) = [].
Proof.
  unfold passed_over, attempt_log. destruct o as [|r]; [done|].
  intros [H200 Herr]%andb_prop.
  apply negb_true_iff in H200. apply negb_true_iff in Herr.
  rewrite H200, Herr.
  destruct (status_code r =? 403) eqn:H403; [|done].
  apply Z.eqb_eq in H403. rewrite H403 in Herr. done.
Qed.

Lemma retry_log_passed_over h u max_retries w k :
  (forall i, (i < k)%nat ->
     passed_over (server h (length (sent w) + i) u) = true) ->
  logger_lines (retry_log h u max_retries w k) = [].
Proof.
  unfold retry_log. induction k as [|k IH]; intros Hq; [done|].
  rewrite turns_log_snoc, logger_lines_app, IH,
    attempt_log_passed_over; [done| |].
  - apply Hq. lia.
  - intros i Hi. apply Hq. lia.
Qed.

End FetchFacts.

(** ** Keyword classification *)

Module Classification.

Import Py Re Data Spec.

Section WithEngine.

Context `{Engine}.

Lemma search_occurrences kw t page_num info cname fs :
  Tool.search_keywords_in_text kw t page_num info cname = Ok fs ->
  Forall2 (emitted_for (catalog_of kw) (Tool.finding_of t page_num info cname))
          fs (occurrences (catalog_of kw) t).
Proof.
  rewrite LoopFacts.tool_search_scan. intros Hs.
  by apply OccFacts.scan_catalog_ok in Hs as [_ Hs].
Qed.

Lemma manual_search_occurrences kw t page_num pdf_name fs :
  Manual.search_keywords_in_text kw t page_num pdf_name = Ok fs ->
  Forall2 (emitted_for kw (Manual.finding_of t page_num pdf_name))
          fs (occurrences kw t).
Proof.
  rewrite LoopFacts.manual_search_scan. intros Hs.
  by apply OccFacts.scan_catalog_ok in Hs as [_ Hs].
Qed.

(** C1.  Classification is a function of its inputs, and its findings come
    in the order of their occurrences: by tier, then by pattern within the
    tier, then by position of the match within the pattern (successive
    matches of one pattern do not overlap, so their start offsets never
    decrease).  The same holds for [pdf_miner_fixed.py], whose function is
    the same. *)
Theorem classification_deterministic_ordered
    kw t page_num info cname :
  (forall kw' t',
      kw' = kw -> t' = t ->
      Tool.search_keywords_in_text kw' t' page_num info cname
      = Tool.search_keywords_in_text kw t page_num info cname
      /\ Fixed.search_keywords_in_text kw' t' page_num info cname
         = Tool.search_keywords_in_text kw t page_num info cname)
  /\ (forall fs,
        Tool.search_keywords_in_text kw t page_num info cname = Ok fs ->
        Forall2 (emitted_for (catalog_of kw)
                             (Tool.finding_of t page_num info cname))
                fs (occurrences (catalog_of kw) t))
  /\ StronglySorted occ_before (occurrences (catalog_of kw) t)
  /\ (forall a b, occ_before a b ->
        (a.1.1 <= b.1.1)%nat
        /\ (a.1.1 = b.1.1 -> (a.1.2 <= b.1.2)%nat)
        /\ (a.1.1 = b.1.1 -> a.1.2 = b.1.2 -> a.2.1 <= b.2.1)).
Proof.
  split; [|split; [|split]].
  - intros kw' t' -> ->. by split.
  - intros fs Hs. by apply search_occurrences.
  - apply OccFacts.occurrences_sorted.
  - intros a b [Hlt|[Heq [Hlt|[Heq' Hsp]]]]; (split; [lia|]);
      (split; [lia|]); intros; try lia.
    unfold span_before in Hsp. lia.
Qed.

(** C7.  Classification emits one finding per pair of a pattern and one of
    its matches: the findings are, position by position, the records of
    the occurrences; no occurrence is listed twice and none is missing; so
    the number of findings is the number of matches of all patterns.  A
    finding carries the tier and the pattern of its occurrence.  Both the
    miner and the manual analyzer do so. *)
Theorem one_finding_per_match
    kw t page_num info cname fs mkw pdf_name mfs :
  Tool.search_keywords_in_text kw t page_num info cname = Ok fs ->
  Manual.search_keywords_in_text mkw t page_num pdf_name = Ok mfs ->
  (Forall2 (fun f o =>
              exists tier pattern,
                catalog_of kw !! o.1.1 = Some tier
                /\ tier.2 !! o.1.2 = Some pattern
                /\ priority f = tier.1 /\ keyword_pattern f = pattern
                /\ matched_text f = group t o.2)
           fs (occurrences (catalog_of kw) t)
   /\ length fs = match_count (catalog_of kw) t)
  /\ (Forall2 (fun f o =>
                 exists tier pattern,
                   mkw !! o.1.1 = Some tier
                   /\ tier.2 !! o.1.2 = Some pattern
                   /\ Manual.priority f = tier.1
                   /\ Manual.keyword f = pattern
                   /\ Manual.matched_text f = group t o.2)
              mfs (occurrences mkw t)
      /\ length mfs = match_count mkw t)
  /\ (forall cat,
        NoDup (occurrences cat t)
        /\ forall o,
             o ∈ occurrences cat t <->
             exists tier pattern,
               cat !! o.1.1 = Some tier /\ tier.2 !! o.1.2 = Some pattern
               /\ o.2 ∈ pattern_spans pattern t).
Proof.
  intros Hs Hm.
  apply search_occurrences in Hs. apply manual_search_occurrences in Hm.
  split; [|split].
  - split.
    + eapply Forall2_impl; [exact Hs|].
      intros f o (tier & pattern & ? & ? & ->). by exists tier, pattern.
    + rewrite <- OccFacts.length_occurrences. by eapply Forall2_length.
  - split.
    + eapply Forall2_impl; [exact Hm|].
      intros f o (tier & pattern & ? & ? & ->). by exists tier, pattern.
    + rewrite <- OccFacts.length_occurrences. by eapply Forall2_length.
  - intros cat. split; [apply OccFacts.occurrences_NoDup|].
    intros o. apply OccFacts.elem_of_occurrences.
Qed.

(** C6.  The context of every finding is cut around its own match.  The
    findings and the matches of the scan ([occurrences]: every match of
    every pattern of every tier, once) correspond one to one, in order,
    and the finding of a match has as context the window of that match:
    up to 300 characters before the match, the match, and up to 300
    characters after it, never reaching outside the page; then the
    whitespace runs are collapsed, so that the context keeps the words of
    that window, holds no whitespace but single spaces, and no two spaces
    in a row. *)
Theorem context_window_correct kw t page_num info cname fs :
  Tool.search_keywords_in_text kw t page_num info cname = Ok fs ->
  Forall2
    (fun (f : finding) (o : occ) =>
       let sp : span := o.2 in
       let b := Z.to_nat sp.1 in
       let e := Z.to_nat sp.2 in
       let before := drop (b - 300) (take b t) in
       let matched := take (e - b) (drop b t) in
       let after := take 300 (drop e t) in
       (exists tier,
          catalog_of kw !! o.1.1 = Some tier
          /\ tier.2 !! o.1.2 = Some (keyword_pattern f))
       /\ sp ∈ pattern_spans (keyword_pattern f) t
       /\ (b <= e <= length t)%nat
       /\ t = take b t ++ matched ++ drop e t
       /\ length before = Nat.min 300 b
       /\ length after = Nat.min 300 (length t - e)
       /\ matched_text f = matched
       /\ context f = join (s " ") (split (before ++ matched ++ after))
       /\ split (context f) = split (before ++ matched ++ after)
       /\ double_space (context f) = false
       /\ Forall (fun c => isspace c = true -> c = " "%char) (context f))
    fs (occurrences (catalog_of kw) t)
  /\ NoDup (occurrences (catalog_of kw) t)
  /\ (forall o,
        o ∈ occurrences (catalog_of kw) t <->
        exists tier pattern,
          catalog_of kw !! o.1.1 = Some tier
          /\ tier.2 !! o.1.2 = Some pattern
          /\ o.2 ∈ pattern_spans pattern t).
Proof.
  intros Hs. apply search_occurrences in Hs.
  split; [|split; [apply OccFacts.occurrences_NoDup
                  |intros o; apply OccFacts.elem_of_occurrences]].
  apply Forall2_same_length_lookup.
  split; [by eapply Forall2_length|].
  intros i f o Hi Ho.
  destruct (Forall2_lookup_l _ _ _ _ _ Hs Hi)
    as (o' & Ho' & tier & pattern & Htier & Hpat & ->).
  pose proof (eq_trans (eq_sym Ho') Ho) as [= ->].
  cbv zeta.
  cbn [keyword_pattern matched_text context Tool.finding_of].
  assert (Hin : o.2 ∈ pattern_spans pattern t).
  { assert (Hocc : o ∈ occurrences (catalog_of kw) t)
      by (apply list_elem_of_lookup; eauto).
    apply OccFacts.elem_of_occurrences in Hocc
      as (tier' & pattern' & Ht' & Hp' & Hsp).
    pose proof (eq_trans (eq_sym Ht') Htier) as [= ->].
    by pose proof (eq_trans (eq_sym Hp') Hpat) as [= ->]. }
  split; [by exists tier|]. split; [done|].
  destruct (OccFacts.pattern_spans_bounds _ _ _ Hin) as (H0 & Hbe & He).
  unfold len in He.
  assert (Hctx : Tool.context_window t o.2
                 = join (s " ") (split (drop (Z.to_nat o.2.1 - 300)
                                          (take (Z.to_nat o.2.1) t)
                     ++ take (Z.to_nat o.2.2 - Z.to_nat o.2.1)
                             (drop (Z.to_nat o.2.1) t)
                     ++ take 300 (drop (Z.to_nat o.2.2) t)))).
  { unfold Tool.context_window.
    rewrite PyFacts.split_strip, WindowFacts.window_parts by done. done. }
  split; [lia|]. split.
  { rewrite <- (take_drop (Z.to_nat o.2.1) t) at 1. f_equal.
    rewrite <- (take_drop (Z.to_nat o.2.2 - Z.to_nat o.2.1)
                  (drop (Z.to_nat o.2.1) t)) at 1.
    f_equal. rewrite drop_drop. f_equal. lia. }
  split; [rewrite length_drop, length_take; lia|].
  split; [rewrite length_take, length_drop; lia|].
  split.
  { unfold group. rewrite PyFacts.slice_in_range by (unfold len; lia).
    f_equal. lia. }
  rewrite Hctx. split; [done|].
  split; [apply PyFacts.split_join, PyFacts.split_words|].
  split; [apply PyFacts.join_space_no_double, PyFacts.split_words|].
  apply PyFacts.join_space_chars, PyFacts.split_words.
Qed.

(** C9, as the code has it.  Building the miner never fails and leaves the
    catalog as written; a pattern that does not compile is met while a
    page is classified: the scan raises [re.error] for the first such
    pattern in catalog order, whatever the page, and returns no finding;
    a catalog without such a pattern is scanned to the end. *)
Theorem malformed_pattern_raises_during_scan
    dir cs kw t page_num info cname :
  (exists m, Tool.init dir cs kw = Ok m /\ Tool.keywords m = kw)
  /\ (forall p,
        first_invalid (catalog_of kw) = Some p ->
        Tool.search_keywords_in_text kw t page_num info cname
        = Raise (ReError p))
  /\ (first_invalid (catalog_of kw) = None ->
      exists fs,
        Tool.search_keywords_in_text kw t page_num info cname = Ok fs).
Proof.
  split; [by eexists|].
  rewrite LoopFacts.tool_search_scan, OccFacts.scan_catalog_value.
  split.
  - by intros p ->.
  - intros ->. by eexists.
Qed.

End WithEngine.

(** Every pattern of the shipped catalog compiles, so the shipped miner
    never raises while it scans. *)
Example shipped_catalog_compiles :
  first_invalid (catalog_of default_keywords) = None.
Proof. vm_compute. reflexivity. Qed.

(** The shipped catalog on the sample page. *)
Lemma sample_search :
  Tool.search_keywords_in_text default_keywords Samples.page_text 1
                               Samples.minutes "Highway"
  = Ok Samples.page_findings.
Proof. vm_compute. reflexivity. Qed.

Lemma sample_manual_search :
  Manual.search_keywords_in_text Samples.manual_keywords Samples.page_text 1
                                 "minutes-01-05-2024.pdf"
  = Ok Samples.manual_findings.
Proof. vm_compute. reflexivity. Qed.

Lemma classification_deterministic_ordered_witness :
  Tool.search_keywords_in_text default_keywords Samples.page_text 1
                               Samples.minutes "Highway"
  = Ok Samples.page_findings
  /\ Fixed.search_keywords_in_text default_keywords Samples.page_text 1
                                   Samples.minutes "Highway"
     = Ok Samples.page_findings
  /\ Forall2 (emitted_for (catalog_of default_keywords)
                 (Tool.finding_of Samples.page_text 1 Samples.minutes
                                  "Highway"))
             Samples.page_findings
             (occurrences (catalog_of default_keywords) Samples.page_text)
  /\ StronglySorted occ_before
        (occurrences (catalog_of default_keywords) Samples.page_text).
Proof.
  assert (Hrun : Tool.search_keywords_in_text default_keywords
                   Samples.page_text 1 Samples.minutes "Highway"
                 = Ok Samples.page_findings) by (vm_compute; reflexivity).
  destruct (classification_deterministic_ordered default_keywords
              Samples.page_text 1 Samples.minutes "Highway")
    as (Hdet & Hocc & Hsorted & _).
  split; [exact Hrun|].
  split; [exact (eq_trans (proj2 (Hdet _ _ eq_refl eq_refl)) Hrun)|].
  split; [exact (Hocc _ Hrun)|exact Hsorted].
Defined.

(** The sample page yields five findings in catalog order: the two-word
    name, the bare name twice, and the phrase once per tier. *)
Example sample_order :
  map (fun f => (priority f, keyword_pattern f, page f))
      Samples.page_findings
  = [ ("priority_1", "\bSteve\s+Hamm\b", 1);
      ("priority_1", "\bHamm\b", 1);
      ("priority_1", "\bHamm\b", 1);
      ("priority_1", "\bethics\s+training\b", 1);
      ("priority_2", "\bethics\b.*?\b(training|policy|violation)\b", 1) ]%string
  /\ map (fun o => (o.1.1, o.1.2, o.2))
         (occurrences (catalog_of default_keywords) Samples.page_text)
     = [ (0%nat, 0%nat, (0, 12)); (0%nat, 2%nat, (8, 12));
         (0%nat, 2%nat, (42, 46)); (0%nat, 3%nat, (21, 36));
         (1%nat, 0%nat, (21, 36)) ].
Proof. vm_compute. split; reflexivity. Qed.

Lemma one_finding_per_match_witness :
  Tool.search_keywords_in_text default_keywords Samples.page_text 1
                               Samples.minutes "Highway"
  = Ok Samples.page_findings
  /\ Manual.search_keywords_in_text Samples.manual_keywords
                                    Samples.page_text 1
                                    "minutes-01-05-2024.pdf"
     = Ok Samples.manual_findings
  /\ length Samples.page_findings
     = match_count (catalog_of default_keywords) Samples.page_text
  /\ length Samples.manual_findings
     = match_count Samples.manual_keywords Samples.page_text
  /\ NoDup (occurrences (catalog_of default_keywords) Samples.page_text).
Proof.
  assert (Hrun : Tool.search_keywords_in_text default_keywords
                   Samples.page_text 1 Samples.minutes "Highway"
                 = Ok Samples.page_findings) by (vm_compute; reflexivity).
  assert (Hman : Manual.search_keywords_in_text Samples.manual_keywords
                   Samples.page_text 1 "minutes-01-05-2024.pdf"
                 = Ok Samples.manual_findings) by (vm_compute; reflexivity).
  destruct (one_finding_per_match _ _ _ _ _ _ _ _ _ Hrun Hman)
    as ((_ & Hlen) & (_ & Hmlen) & Hocc).
  split; [exact Hrun|]. split; [exact Hman|].
  split; [exact Hlen|]. split; [exact Hmlen|].
  exact (proj1 (Hocc _)).
Defined.

(** Three occurrences of one pattern give three findings. *)
Example three_occurrences_three_findings :
  match Tool.search_keywords_in_text default_keywords
          (s "Hamm met Hamm and Hamm.") 1 Samples.minutes "Highway" with
  | Ok fs =>
      map (fun f => (keyword_pattern f, matched_text f)) fs
      = [ ("\bHamm\b"%string, s "Hamm"); ("\bHamm\b"%string, s "Hamm");
          ("\bHamm\b"%string, s "Hamm") ]
  | Raise _ => False
  end.
Proof. vm_compute. reflexivity. Qed.

(** One span matched by two patterns gives two findings, each with its
    own tier and pattern and with the same matched text. *)
Example one_span_two_patterns :
  match Tool.search_keywords_in_text default_keywords
          (s "ethics training") 1 Samples.minutes "Highway" with
  | Ok fs =>
      map (fun f => (priority f, keyword_pattern f, matched_text f)) fs
      = [ ("priority_1", "\bethics\s+training\b", s "ethics training");
          ("priority_2", "\bethics\b.*?\b(training|policy|violation)\b",
           s "ethics training") ]%string
  | Raise _ => False
  end.
Proof. vm_compute. reflexivity. Qed.

Lemma context_window_correct_witness :
  exists f,
    Tool.search_keywords_in_text default_keywords Samples.page_text 1
                                 Samples.minutes "Highway"
    = Ok Samples.page_findings
    /\ Samples.page_findings !! 2%nat = Some f
    /\ occurrences (catalog_of default_keywords) Samples.page_text !! 2%nat
       = Some (0%nat, 2%nat, (42, 46))
    /\ matched_text f = take 4 (drop 42 Samples.page_text)
    /\ context f = s "Steve Hamm led the ethics training; Mr. Hamm left."
    /\ double_space (context f) = false.
Proof.
  assert (Hrun : Tool.search_keywords_in_text default_keywords
                   Samples.page_text 1 Samples.minutes "Highway"
                 = Ok Samples.page_findings) by (vm_compute; reflexivity).
  assert (Hi : Samples.page_findings !! 2%nat
               = Some (Tool.finding_of Samples.page_text 1 Samples.minutes
                         "Highway" "priority_1" "\bHamm\b" (42, 46)))
    by reflexivity.
  assert (Ho : occurrences (catalog_of default_keywords) Samples.page_text
               !! 2%nat = Some (0%nat, 2%nat, (42, 46)))
    by (vm_compute; reflexivity).
  destruct (context_window_correct _ _ _ _ _ _ Hrun) as (Hall & _).
  destruct (proj2 (proj1 (Forall2_same_length_lookup _ _ _) Hall)
              _ _ _ Hi Ho)
    as (_ & _ & _ & _ & _ & _ & Hm & _ & _ & Hds & _).
  eexists. split; [exact Hrun|]. split; [exact Hi|]. split; [exact Ho|].
  split; [exact Hm|]. split; [vm_compute; reflexivity|]. exact Hds.
Defined.

(** A match far from both ends of a page: the context starts 300
    characters before the match and ends 300 characters after it, so the
    first four and the last four characters of the page are cut off. *)
Example context_is_clipped :
  let t := s "AAAA" ++ repeat "X"%char 299 ++ s " HAMM "
           ++ repeat "Y"%char 299 ++ s "BBBB" in
  Tool.context_window t (304, 308)
  = repeat "X"%char 299 ++ s " HAMM " ++ repeat "Y"%char 299
  /\ pattern_spans "\bHAMM\b" t = [(304, 308)].
Proof. vm_compute. split; reflexivity. Qed.

(** The page of the specification's test has no word boundary around
    [HAMM], so the pattern does not match it at all. *)
Example context_test_page_has_no_match :
  pattern_spans "\bHAMM\b"
    (s "AAAA" ++ repeat "X"%char 290 ++ s "HAMM" ++ repeat "Y"%char 290
     ++ s "BBBB")
  = [].
Proof. vm_compute. reflexivity. Qed.

Lemma malformed_pattern_raises_during_scan_witness :
  first_invalid (catalog_of Samples.broken_keywords) = Some "("%string
  /\ Tool.search_keywords_in_text Samples.broken_keywords (s "Hamm") 1
                                  Samples.minutes "Highway"
     = Raise (ReError "(").
Proof.
  assert (Hbad : first_invalid (catalog_of Samples.broken_keywords)
                 = Some "("%string) by (vm_compute; reflexivity).
  split; [exact Hbad|].
  exact (proj1 (proj2 (malformed_pattern_raises_during_scan
                         "dekalb_pdfs" [] Samples.broken_keywords (s "Hamm")
                         1 Samples.minutes "Highway")) _ Hbad).
Defined.

(** C9 as stated fails: a catalog with an unterminated group is accepted
    when the miner is built, and the error is raised only when a page is
    scanned. *)
Lemma malformed_pattern_accepted_at_load :
  first_invalid (catalog_of Samples.broken_keywords) = Some "("%string
  /\ Tool.init "dekalb_pdfs" [] Samples.broken_keywords
     = Ok {| Tool.base_dir := "dekalb_pdfs"; Tool.committees := [];
             Tool.keywords := Samples.broken_keywords |}
  /\ Tool.search_keywords_in_text Samples.broken_keywords (s "Hamm") 1
                                  Samples.minutes "Highway"
     = Raise (ReError "(")
  /\ ~ (forall (E : Engine) dir cs kw,
          first_invalid (catalog_of kw) <> None ->
          exists e, Tool.init dir cs kw = Raise e).
Proof.
  split; [vm_compute; reflexivity|].
  split; [reflexivity|].
  split; [vm_compute; reflexivity|].
  intros Hclaim.
  destruct (Hclaim sre_engine "dekalb_pdfs"%string [] Samples.broken_keywords)
    as [e He]; [vm_compute; discriminate|discriminate He].
Qed.

End Classification.

(** ** Text extraction *)

Module Extraction.

Import Py Data Spec.

Lemma not_elem_of_events (e : event) (l : list event) :
  forallb (fun x => negb (event_eqb x e)) l = true -> e ∉ l.
Proof.
  induction l as [|x l IH]; simpl; [intros _; by inv 1|].
  intros [Hx Hl]%andb_prop. apply not_elem_of_cons. split; [|by apply IH].
  intros ->. destruct x; simpl in Hx; try done.
  - by rewrite !Z.eqb_refl in Hx.
  - by rewrite Z.eqb_refl in Hx.
Qed.

(** C2.  The strategies of [tool.py] are called in the order pdfplumber,
    PyPDF2, OCR, each at most once; if pdfplumber keeps a page, its pages
    are the result and neither PyPDF2 nor OCR is called; PyPDF2 is called
    only if pdfplumber kept no page, and OCR only if pdfplumber and PyPDF2
    both kept no page. *)
Theorem fallback_chain_short_circuits (pdf : pdf_file) :
  let r := Tool.extract_text_from_pdf pdf in
  calls r.2 `prefix_of` [CallPdfplumber; CallPyPDF2; CallOCR]
  /\ ((strategy (plumber pdf)).1 <> [] ->
      r.1 = (strategy (plumber pdf)).1
      /\ (CallPyPDF2 ∉ r.2) /\ (CallOCR ∉ r.2))
  /\ (CallPyPDF2 ∈ r.2 -> (strategy (plumber pdf)).1 = [])
  /\ (CallOCR ∈ r.2 ->
      (strategy (plumber pdf)).1 = [] /\ (strategy (pypdf2 pdf)).1 = []).
Proof.
  cbv zeta. rewrite ExtractFacts.tool_extract_value. unfold tool_value.
  destruct (strategy (plumber pdf)) as [k1 r1]; simpl.
  destruct r1; simpl.
  { split; [by exists [CallPyPDF2; CallOCR]|].
    split; [intros _; split; [done|]; split;
            apply not_elem_of_events; reflexivity|].
    split; intros Hin; exfalso; revert Hin;
      apply not_elem_of_events; reflexivity. }
  destruct k1 as [|p1 k1]; simpl.
  2: { split; [by exists [CallPyPDF2; CallOCR]|].
       split; [intros _; split; [done|]; split;
               apply not_elem_of_events; reflexivity|].
       split; intros Hin; exfalso; revert Hin;
         apply not_elem_of_events; reflexivity. }
  destruct (strategy (pypdf2 pdf)) as [k2 r2]; simpl.
  destruct r2; simpl.
  { split; [by exists [CallOCR]|]. split; [done|]. split; [done|].
    intros Hin; exfalso; revert Hin. apply not_elem_of_events; reflexivity. }
  destruct k2 as [|p2 k2]; simpl.
  2: { split; [by exists [CallOCR]|]. split; [done|]. split; [done|].
       intros Hin; exfalso; revert Hin.
       apply not_elem_of_events; reflexivity. }
  split; [|done].
  destruct (strategy (ocr pdf)).2; by exists [].
Qed.

Lemma fallback_chain_short_circuits_witness :
  (strategy (plumber Samples.text_pdf)).1 <> []
  /\ Tool.extract_text_from_pdf Samples.text_pdf
     = ([(1, Samples.long_page)], [CallPdfplumber])
  /\ (CallPyPDF2 ∉ (Tool.extract_text_from_pdf Samples.text_pdf).2)
  /\ (CallOCR ∉ (Tool.extract_text_from_pdf Samples.text_pdf).2).
Proof.
  assert (Hkeeps : (strategy (plumber Samples.text_pdf)).1 <> [])
    by (vm_compute; discriminate).
  destruct (fallback_chain_short_circuits Samples.text_pdf)
    as (_ & Hshort & _).
  destruct (Hshort Hkeeps) as (_ & Hno2 & Hno3).
  split; [exact Hkeeps|]. split; [vm_compute; reflexivity|].
  split; [exact Hno2|exact Hno3].
Defined.

(** A scanned file goes through the three strategies, in order. *)
Example scanned_file_reaches_ocr :
  Tool.extract_text_from_pdf Samples.scanned_pdf
  = ([(1, Samples.long_page)],
     [CallPdfplumber; CallPyPDF2; LogInfo; CallOCR; LogInfo]).
Proof. vm_compute. reflexivity. Qed.

(** C3.  Every page returned by an extraction, whatever the strategy that
    produced it, has more than 50 characters once stripped (so it is not
    empty), and is numbered from 1; this holds for the miner, for the
    manual analyzer and for the fixed miner. *)
Theorem retained_pages_exceed_threshold
    (pdf : pdf_file) (has_pdfplumber : bool) :
  let ok := fun p : Z * str =>
              1 <= p.1 /\ p.2 <> [] /\ 50 < len (strip p.2) in
  Forall ok (Tool.extract_text_from_pdf pdf).1
  /\ Forall ok (Manual.extract_text_from_pdf pdf).1
  /\ Forall ok (Fixed.extract_text_from_pdf has_pdfplumber pdf).1.
Proof.
  cbv zeta. change (fun p : Z * str => _) with (page_ok 1).
  rewrite ExtractFacts.tool_extract_value, ExtractFacts.manual_extract_value,
    ExtractFacts.fixed_extract_value.
  unfold tool_value, manual_value, fixed_value.
  pose proof (ExtractFacts.strategy_ok (plumber pdf)) as H1.
  pose proof (ExtractFacts.strategy_ok (pypdf2 pdf)) as H2.
  pose proof (ExtractFacts.strategy_ok (ocr pdf)) as H3.
  split; [|split].
  - destruct (strategy (plumber pdf)) as [k1 [|]]; simpl in *; [done|].
    destruct k1; simpl; [|done].
    destruct (strategy (pypdf2 pdf)) as [k2 [|]]; simpl in *; [done|].
    destruct k2; simpl; [|done]. done.
  - destruct (pypdf2 pdf) as [pages|]; simpl; [|constructor].
    apply ExtractFacts.kept_all_ok.
  - destruct has_pdfplumber; simpl.
    + destruct (strategy (plumber pdf)) as [k1 r1]; simpl in *.
      destruct k1; simpl; done.
    + done.
Qed.

(** Pages of 50 characters or fewer once stripped, empty pages and missing
    texts are dropped. *)
Example short_pages_are_dropped :
  len (strip Samples.short_page) <= 50
  /\ (Tool.extract_text_from_pdf Samples.text_pdf).1
     = [(1, Samples.long_page)]
  /\ (Tool.extract_text_from_pdf Samples.scanned_pdf).1
     = [(1, Samples.long_page)].
Proof. vm_compute. split; [discriminate|split; reflexivity]. Qed.

(** X27.  The manual analyzer isolates a page that raises: its result is
    exactly the pages that do not raise and pass the retention test,
    whatever the other pages do. *)
Lemma manual_extraction_isolates_pages (pdf : pdf_file) (j : Z) (t : str) :
  (j, t) ∈ (Manual.extract_text_from_pdf pdf).1 <->
  exists pages,
    pypdf2 pdf = Opened pages /\ 1 <= j
    /\ pages !! Z.to_nat (j - 1) = Some (PageText (Some t))
    /\ retained (Some t) = true.
Proof.
  rewrite ExtractFacts.manual_extract_value. unfold manual_value.
  destruct (pypdf2 pdf) as [pages|]; simpl.
  - rewrite ExtractFacts.elem_of_kept_all. split.
    + intros (? & ? & ?). by exists pages.
    + by intros (? & [= <-] & ? & ? & ?).
  - split; [by inv 1|]. by intros (? & ? & _).
Qed.

(** X28.  In [tool.py] a page that raises ends the whole extraction: the
    pages after it are not read, whatever they hold, and no other strategy
    is tried. *)
Lemma tool_extraction_stops_at_raising_page
    (pdf : pdf_file) (pre post : list page_read) :
  plumber pdf = Opened (pre ++ PageRaises :: post) ->
  Tool.extract_text_from_pdf pdf
  = ((page_loop 1 pre).1, [CallPdfplumber; LogError]).
Proof.
  intros Hp. rewrite ExtractFacts.tool_extract_value. unfold tool_value.
  rewrite Hp. simpl.
  assert (Hloop : forall i,
            page_loop i (pre ++ PageRaises :: post)
            = ((page_loop i pre).1, true)).
  { clear. induction pre as [|p pre IH]; intros i; [done|].
    destruct p as [t|]; simpl; [|done]. by rewrite IH. }
  by rewrite Hloop.
Qed.

Lemma tool_extraction_stops_at_raising_page_witness :
  Tool.extract_text_from_pdf
    {| plumber := Opened [PageText (Some Samples.long_page); PageRaises;
                          PageText (Some Samples.long_page)];
       pypdf2 := Opened [PageText (Some Samples.long_page)];
       ocr := OpenRaises |}
  = ([(1, Samples.long_page)], [CallPdfplumber; LogError]).
Proof.
  exact (tool_extraction_stops_at_raising_page
           {| plumber := Opened [PageText (Some Samples.long_page); PageRaises;
                                 PageText (Some Samples.long_page)];
              pypdf2 := Opened [PageText (Some Samples.long_page)];
              ocr := OpenRaises |}
           [PageText (Some Samples.long_page)]
           [PageText (Some Samples.long_page)] eq_refl).
Defined.

(** C4 fails in [tool.py].  On a file whose first page raises and whose
    second page is sound, the miner returns no page at all and tries no
    other strategy, while the manual analyzer warns about page 1 and keeps
    page 2. *)
Theorem page_failure_aborts_tool_extraction :
  Tool.extract_text_from_pdf Samples.damaged_pdf
  = ([], [CallPdfplumber; LogError])
  /\ Manual.extract_text_from_pdf Samples.damaged_pdf
     = ([(2, Samples.long_page)], [CallPyPDF2; PrintWarning 1]).
Proof. vm_compute. split; reflexivity. Qed.

End Extraction.

(** ** Fetching *)

Module Fetch.

Import Py Re Data Spec.

(** C10.  [get_page_with_retry] never raises, and a response it returns
    has status 200; when none of the [max_retries] requests is answered
    with status 200 (be it another 2xx status, 403, an error status or a
    transport error), every attempt is followed by the next one and the
    result is [None]. *)
Theorem retry_returns_only_200
    (h : host) (u : string) (max_retries : Z) (w : world) :
  let out := Fixed.get_page_with_retry h u max_retries w in
  (exists o, out.1 = Ok o /\ forall r, o = Some r -> status_code r = 200)
  /\ (exhausted h u w (Z.to_nat max_retries) ->
      out.1 = Ok None
      /\ sent out.2 = sent w ++ replicate (Z.to_nat max_retries) u).
Proof.
  cbv zeta. unfold Fixed.get_page_with_retry.
  destruct (FetchFacts.attempts_run h u max_retries (range max_retries) w)
    as (Hout & _ & _ & Hex).
  rewrite FetchFacts.length_range in Hex. by split.
Qed.

Lemma retry_returns_only_200_witness :
  exhausted Samples.moody_host "https://dekalbcounty.org/" Samples.fresh 3
  /\ (Fixed.get_page_with_retry Samples.moody_host
        "https://dekalbcounty.org/" 3 Samples.fresh).1 = Ok None
  /\ sent (Fixed.get_page_with_retry Samples.moody_host
             "https://dekalbcounty.org/" 3 Samples.fresh).2
     = replicate 3 "https://dekalbcounty.org/"%string.
Proof.
  assert (Hex : exhausted Samples.moody_host "https://dekalbcounty.org/"
                  Samples.fresh (Z.to_nat 3)).
  { intros i r Hi. simpl.
    destruct i as [|[|[|i]]]; simpl; intros [= <-]; simpl; lia. }
  destruct (retry_returns_only_200 Samples.moody_host
              "https://dekalbcounty.org/" 3 Samples.fresh) as [_ Hnone].
  destruct (Hnone Hex) as [Hres Hsent].
  split; [exact Hex|]. split; [exact Hres|exact Hsent].
Defined.

(** With one more attempt the fourth answer, a 200, is returned. *)
Example fourth_attempt_succeeds :
  (Fixed.get_page_with_retry Samples.moody_host "https://dekalbcounty.org/"
     4 Samples.fresh).1
  = Ok (Some {| status_code := 200; chunks := []; stream_breaks := false |}).
Proof. vm_compute. reflexivity. Qed.

(** C5, as the code has it.  A file already at the target path, empty or
    not, makes [download_pdf] return [True] without any request.  Two
    calls in a row for the same document send one request exactly when
    the path is free at first and the first call gets to create the
    file; they send none when the file is already there, and two when the
    first call fails before the file is created.  Both miners do so. *)
Theorem download_cache_idempotence :
  caches_downloads Tool.download_pdf /\ caches_downloads Fixed.download_pdf.
Proof.
  split; intros h info path w; cbv zeta.
  - split.
    + intros Hsome. apply FetchFacts.path_exists_true in Hsome.
      destruct (FetchFacts.tool_download_effect h info path w)
        as (_ & _ & Hhit & _).
      exact (Hhit Hsome).
    + apply (FetchFacts.two_calls_count Tool.download_pdf).
      intros w'. apply FetchFacts.tool_download_effect.
  - split.
    + intros Hsome. apply FetchFacts.path_exists_true in Hsome.
      destruct (FetchFacts.fixed_download_effect h info path w)
        as (_ & _ & Hhit & _).
      exact (Hhit Hsome).
    + apply (FetchFacts.two_calls_count Fixed.download_pdf).
      intros w'. apply FetchFacts.fixed_download_effect.
Qed.

Lemma download_cache_idempotence_witness :
  let out1 := Fixed.download_pdf Samples.serving_host Samples.minutes
                "dekalb_pdfs/highway/current/minutes-01-05-2024.pdf"
                Samples.fresh in
  let out2 := Fixed.download_pdf Samples.serving_host Samples.minutes
                "dekalb_pdfs/highway/current/minutes-01-05-2024.pdf"
                out1.2 in
  out1.1 = Ok true /\ out2.1 = Ok true /\ length (sent out2.2) = 1%nat.
Proof.
  cbv zeta. split; [vm_compute; reflexivity|]. split; [vm_compute; reflexivity|].
  exact (proj2 (proj2 download_cache_idempotence Samples.serving_host
                  Samples.minutes
                  "dekalb_pdfs/highway/current/minutes-01-05-2024.pdf"%string
                  Samples.fresh)).
Defined.

(** C5 as stated fails: when the server refuses the download, nothing is
    cached, and the second call sends a second request. *)
Lemma refused_download_is_requested_twice :
  let out1 := Fixed.download_pdf Samples.blocking_host Samples.minutes
                "dekalb_pdfs/highway/current/minutes-01-05-2024.pdf"
                Samples.fresh in
  let out2 := Fixed.download_pdf Samples.blocking_host Samples.minutes
                "dekalb_pdfs/highway/current/minutes-01-05-2024.pdf"
                out1.2 in
  out1.1 = Ok false /\ out2.1 = Ok false
  /\ sent out2.2 = [url Samples.minutes; url Samples.minutes]
  /\ ~ (forall h info path w,
          length (sent (Fixed.download_pdf h info path
                          (Fixed.download_pdf h info path w).2).2)
          = (length (sent w) + 1)%nat).
Proof.
  cbv zeta. split; [vm_compute; reflexivity|]. split; [vm_compute; reflexivity|].
  split; [vm_compute; reflexivity|].
  intros Hclaim.
  specialize (Hclaim Samples.blocking_host Samples.minutes
                "dekalb_pdfs/highway/current/minutes-01-05-2024.pdf"%string
                Samples.fresh).
  vm_compute in Hclaim. discriminate Hclaim.
Qed.

Section Coordinator.

Context `{Engine}.

Variable has_pdfplumber : bool.
Variable self : Tool.miner.
Variable h : host.

(** The path [process_committee] saves a document at. *)
Definition save_path (committee_key bucket : string) (info : pdf_info)
  : string :=
  path_join (path_join (path_join (Tool.base_dir self) committee_key) bucket)
            (filename info).

Lemma process_pdfs_skips_failed committee_key cname bucket info rest w :
  (Fixed.download_pdf h info (save_path committee_key bucket info) w).1
  = Ok false ->
  Fixed.process_pdfs has_pdfplumber self h committee_key cname bucket
    (info :: rest) w
  = Fixed.process_pdfs has_pdfplumber self h committee_key cname bucket rest
      (Fixed.download_pdf h info (save_path committee_key bucket info) w).2.
Proof.
  intros Hfail. unfold Fixed.process_pdfs, save_path in *. simpl.
  unfold bind at 1. unfold mbind, M_bind. unfold bind at 1.
  destruct (Fixed.download_pdf h info _ w) as [r w1]. simpl in *. by subst r.
Qed.

(** C8, as the code has it.  When none of its attempts is answered with
    status 200, [get_page_with_retry] returns [None]; what it leaves is
    its log, which holds for each attempt a warning after a 403 (and an
    info line announcing the wait when attempts remain), an error after
    another status from 400 to 599 or a transport error, and no line
    after any other status, so that such a status is recorded nowhere.
    The listing is then taken to hold no document, with one more error
    line.  A document is downloaded in one attempt; when that fails,
    [download_pdf] logs one error line and returns [False],
    [self.results] is left as it was, and the loop goes on with the next
    document. *)
Theorem failed_fetch_is_skipped
    committee_key cname bucket info rest u max_retries w :
  (exhausted h u w (Z.to_nat max_retries) ->
   let out := Fixed.get_page_with_retry h u max_retries w in
   out.1 = Ok None
   /\ log out.2
      = log w ++ retry_log h u max_retries w (Z.to_nat max_retries)
   /\ ((forall i, (i < Z.to_nat max_retries)%nat ->
          passed_over (server h (length (sent w) + i) u) = true) ->
       logger_lines (retry_log h u max_retries w (Z.to_nat max_retries))
       = []))
  /\ (forall attempt o,
        logger_lines (attempt_log max_retries attempt o)
        = match o with
          | ConnFails => [LogError]
          | Responds r =>
              if status_code r =? 200 then []
              else if status_code r =? 403
                   then LogWarning
                        :: (if attempt <? max_retries - 1 then [LogInfo]
                            else [])
                   else if (400 <=? status_code r) && (status_code r <? 600)
                        then [LogError]
                        else []
          end)
  /\ (exhausted h u w 3 ->
      let out := Fixed.extract_pdf_links h u w in
      out.1 = Ok []
      /\ results out.2 = results w
      /\ log out.2 = log w ++ retry_log h u 3 w 3 ++ [LogError])
  /\ ((Fixed.download_pdf h info (save_path committee_key bucket info) w).1
      = Ok false ->
      results (Fixed.download_pdf h info
                 (save_path committee_key bucket info) w).2 = results w
      /\ sent (Fixed.download_pdf h info
                 (save_path committee_key bucket info) w).2
         = sent w ++ [url info]
      /\ log (Fixed.download_pdf h info
                (save_path committee_key bucket info) w).2
         = log w ++ [Sleep 1 3; UpdateHeaders; LogError]
      /\ Fixed.process_pdfs has_pdfplumber self h committee_key cname bucket
           (info :: rest) w
         = Fixed.process_pdfs has_pdfplumber self h committee_key cname
             bucket rest
             (Fixed.download_pdf h info
                (save_path committee_key bucket info) w).2).
Proof.
  assert (Hretry : forall m,
            exhausted h u w (Z.to_nat m) ->
            (Fixed.get_page_with_retry h u m w).1 = Ok None
            /\ log (Fixed.get_page_with_retry h u m w).2
               = log w ++ retry_log h u m w (Z.to_nat m)).
  { intros m Hex.
    destruct (FetchFacts.attempts_run h u m (range m) w)
      as (_ & _ & _ & Hnone).
    rewrite FetchFacts.length_range in Hnone.
    destruct (Hnone Hex) as [Hout Hsent].
    destruct (FetchFacts.retry_trace h u m w) as (k & _ & Hs & Hl).
    split; [exact Hout|].
    unfold Fixed.get_page_with_retry in Hs, Hl. rewrite Hs in Hsent.
    apply app_inv_head in Hsent.
    apply (f_equal length) in Hsent. rewrite !length_replicate in Hsent.
    by subst k. }
  split; [|split; [|split]].
  - intros Hex. cbv zeta. destruct (Hretry max_retries Hex) as [Hout Hl].
    split; [done|]. split; [done|].
    apply FetchFacts.retry_log_passed_over.
  - intros attempt o. unfold attempt_log. destruct o as [|r]; simpl.
    { by destruct (attempt <? max_retries - 1). }
    destruct (status_code r =? 200); [done|].
    destruct (status_code r =? 403); simpl.
    { by destruct (attempt <? max_retries - 1). }
    destruct ((400 <=? status_code r) && (status_code r <? 600)); [|done].
    by destruct (attempt <? max_retries - 1).
  - intros Hex. cbv zeta. destruct (Hretry 3 Hex) as [Hout Hl].
    destruct (FetchFacts.attempts_run h u 3 (range 3) w)
      as (_ & _ & Hres & _).
    unfold Fixed.extract_pdf_links, Fixed.get_page_with_retry in *.
    unfold mbind, M_bind, bind.
    destruct (Fixed.attempts h u 3 (range 3) w) as [o w1]. simpl in *.
    subst o. simpl. rewrite Hl, <- app_assoc. done.
  - intros Hfail. split; [|split; [|split]].
    + by destruct (FetchFacts.fixed_download_effect h info
                     (save_path committee_key bucket info) w) as [Hres _].
    + revert Hfail. rewrite FetchFacts.fixed_download_value.
      unfold download_value, logged.
      destruct (path_exists w _); simpl; [done|].
      destruct (server h (length (sent w)) (url info)) as [|r]; simpl;
        [done|].
      destruct ((400 <=? status_code r) && (status_code r <? 600)); simpl;
        [done|].
      destruct (writable h _); simpl; [|done].
      by destruct (stream_breaks r).
    + revert Hfail. rewrite FetchFacts.fixed_download_value.
      unfold download_value, logged.
      destruct (path_exists w _); simpl; [done|].
      destruct (server h (length (sent w)) (url info)) as [|r]; simpl;
        [by rewrite <- app_assoc|].
      destruct ((400 <=? status_code r) && (status_code r <? 600)); simpl;
        [by rewrite <- app_assoc|].
      destruct (writable h _); simpl; [|by rewrite <- app_assoc].
      destruct (stream_breaks r); simpl; [by rewrite <- app_assoc|done].
    + by apply process_pdfs_skips_failed.
Qed.

End Coordinator.

Lemma failed_fetch_is_skipped_witness :
  exhausted Samples.blocking_host "https://dekalbcounty.org/" Samples.fresh 3
  /\ (Fixed.extract_pdf_links Samples.blocking_host
        "https://dekalbcounty.org/" Samples.fresh).1 = Ok []
  /\ (Fixed.download_pdf Samples.blocking_host Samples.minutes
        (save_path Samples.the_miner "highway" "current" Samples.minutes)
        Samples.fresh).1 = Ok false
  /\ Fixed.process_pdfs true Samples.the_miner Samples.blocking_host
       "highway" "Highway" "current" [Samples.minutes; Samples.agenda]
       Samples.fresh
     = Fixed.process_pdfs true Samples.the_miner Samples.blocking_host
         "highway" "Highway" "current" [Samples.agenda]
         (Fixed.download_pdf Samples.blocking_host Samples.minutes
            (save_path Samples.the_miner "highway" "current" Samples.minutes)
            Samples.fresh).2.
Proof.
  assert (Hex : exhausted Samples.blocking_host "https://dekalbcounty.org/"
                  Samples.fresh 3).
  { intros i r _. simpl. intros [= <-]. simpl. lia. }
  assert (Hfail : (Fixed.download_pdf Samples.blocking_host Samples.minutes
                     (save_path Samples.the_miner "highway" "current"
                        Samples.minutes) Samples.fresh).1 = Ok false)
    by (vm_compute; reflexivity).
  destruct (failed_fetch_is_skipped true Samples.the_miner
              Samples.blocking_host "highway" "Highway" "current"
              Samples.minutes [Samples.agenda] "https://dekalbcounty.org/" 3
              Samples.fresh) as (_ & _ & Hlinks & Hskip).
  split; [exact Hex|]. split; [exact (proj1 (Hlinks Hex))|].
  split; [exact Hfail|]. exact (proj2 (proj2 (proj2 (Hskip Hfail)))).
Defined.

(** A server that answers every request with 204: the fetch gives up
    after three requests without a single line in the log. *)
Example exhausted_on_204_logs_nothing :
  let out := Fixed.get_page_with_retry
               (Samples.host_of (fun _ _ => Samples.reply 204))
               "https://dekalbcounty.org/" 3 Samples.fresh in
  out.1 = Ok None
  /\ length (sent out.2) = 3%nat
  /\ logger_lines (log out.2) = [].
Proof. vm_compute. done. Qed.

(** C8 as stated fails: an exhausted fetch returns [None] whatever the URL
    and whatever the last status, so the result carries neither; and a
    run in which every download is refused ends with nothing recorded. *)
Lemma exhausted_fetch_carries_nothing :
  (Fixed.get_page_with_retry Samples.blocking_host
     "https://dekalbcounty.org/a" 3 Samples.fresh).1 = Ok None
  /\ (Fixed.get_page_with_retry Samples.failing_host
        "https://dekalbcounty.org/b" 3 Samples.fresh).1 = Ok None
  /\ results (Fixed.process_pdfs true Samples.the_miner
                Samples.blocking_host "highway" "Highway" "current"
                [Samples.minutes; Samples.agenda] Samples.fresh).2 = []
  /\ ~ (exists url_of : exc (option response) -> string,
          forall h u w,
            exhausted h u w 3 ->
            url_of (Fixed.get_page_with_retry h u 3 w).1 = u).
Proof.
  split; [vm_compute; reflexivity|]. split; [vm_compute; reflexivity|].
  split; [vm_compute; reflexivity|].
  intros [url_of Hurl].
  assert (Ha : exhausted Samples.blocking_host "https://dekalbcounty.org/a"
                 Samples.fresh 3).
  { intros i r _. simpl. intros [= <-]. simpl. lia. }
  assert (Hb : exhausted Samples.failing_host "https://dekalbcounty.org/b"
                 Samples.fresh 3).
  { intros i r _. simpl. intros [= <-]. simpl. lia. }
  apply Hurl in Ha. apply Hurl in Hb.
  vm_compute in Ha. vm_compute in Hb. congruence.
Qed.

End Fetch.

(** * Further properties of the code *)

(** ** Invariants of stateful code *)

Module Inv.

(** [m] keeps the invariant [I] of the state, whether it returns or
    raises. *)
Definition keeps {S A} (I : S -> Prop) (m : M S A) : Prop :=
  forall st, I st -> I (m st).2.

Section Rules.

Context {S : Type} (I : S -> Prop).

Lemma keeps_ret {A} (a : A) : keeps I (ret a).
Proof. by intros st. Qed.

Lemma keeps_raise {A} e : keeps I (@raise S A e).
Proof. by intros st. Qed.

Lemma keeps_lift {A} (r : exc A) : keeps I (lift r).
Proof. by intros st. Qed.

Lemma keeps_get : keeps I get.
Proof. by intros st. Qed.

Lemma keeps_modify (f : S -> S) :
  (forall st, I st -> I (f st)) -> keeps I (modify f).
Proof. intros Hf st. apply Hf. Qed.

Lemma keeps_bind {A B} (m : M S A) (f : A -> M S B) :
  keeps I m -> (forall a, keeps I (f a)) -> keeps I (bind m f).
Proof.
  intros Hm Hf st Hst. unfold bind. specialize (Hm st Hst).
  destruct (m st) as [[a|e] st']; simpl in *; [by apply Hf|done].
Qed.

Lemma keeps_mbind {A B} (m : M S A) (f : A -> M S B) :
  keeps I m -> (forall a, keeps I (f a)) -> keeps I (m ≫= f).
Proof. apply keeps_bind. Qed.

Lemma keeps_try_except {A} (m : M S A) (h : exn -> M S A) :
  keeps I m -> (forall e, keeps I (h e)) -> keeps I (try_except m h).
Proof.
  intros Hm Hh st Hst. unfold try_except. specialize (Hm st Hst).
  destruct (m st) as [[a|e] st']; simpl in *; [done|by apply Hh].
Qed.

Lemma keeps_when (c : bool) (m : M S unit) :
  keeps I m -> keeps I (when c m).
Proof. intros Hm. destruct c; [done|apply keeps_ret]. Qed.

Lemma keeps_for_each {A} (xs : list A) (body : A -> M S unit) :
  (forall x, x ∈ xs -> keeps I (body x)) -> keeps I (for_each xs body).
Proof.
  induction xs as [|x xs IH]; intros Hbody; simpl; [apply keeps_ret|].
  apply keeps_bind; [apply Hbody; left|].
  intros _. apply IH. intros y Hy. apply Hbody. by right.
Qed.

End Rules.

End Inv.

(** ** Retrying a listing page *)

Module Retry.

Import Py Data Spec.

(** X1.  [get_page_with_retry] stops at the first answer with status 200:
    if the answers before the [k]-th are not 200 and the [k]-th is, with
    [k] below [max_retries], that response is returned after exactly
    [k + 1] requests. *)
Theorem retry_stops_at_first_200
    (h : host) (u : string) (max_retries : Z) (w : world)
    (k : nat) (r : response) :
  (k < Z.to_nat max_retries)%nat ->
  exhausted h u w k ->
  server h (length (sent w) + k) u = Responds r ->
  status_code r = 200 ->
  let out := Fixed.get_page_with_retry h u max_retries w in
  out.1 = Ok (Some r) /\ sent out.2 = sent w ++ replicate (S k) u.
Proof.
  intros Hk Hex Hsrv H200. cbv zeta. unfold Fixed.get_page_with_retry.
  rewrite <- FetchFacts.length_range in Hk.
  revert w k Hk Hex Hsrv.
  induction (range max_retries) as [|attempt todo IH];
    intros w k Hk Hex Hsrv; simpl in *; [lia|].
  unfold mbind, M_bind, bind.
  destruct (FetchFacts.attempt_once_run h u max_retries attempt w)
    as (Hres & _ & Hsent & _).
  destruct (Fixed.attempt_once h u max_retries attempt w) as [o1 w1].
  simpl in *. subst o1.
  destruct k as [|k].
  - rewrite Nat.add_0_r in Hsrv. rewrite Hsrv. simpl.
    apply Z.eqb_eq in H200. rewrite H200. simpl. by split.
  - assert (Hacc : accepted (server h (length (sent w)) u) = None).
    { destruct (server h (length (sent w)) u) as [|r0] eqn:Hs0; [done|].
      simpl. destruct (status_code r0 =? 200) eqn:H0; [|done].
      apply Z.eqb_eq in H0. exfalso.
      apply (Hex 0%nat r0); [lia|by rewrite Nat.add_0_r|done]. }
    rewrite Hacc.
    destruct (IH w1 k) as [Hout Hs]; [lia| | |].
    + intros i r0 Hi Hs0. apply (Hex (S i) r0); [lia|].
      rewrite Hsent, length_app in Hs0. simpl in Hs0.
      by replace (length (sent w) + S i)%nat
        with (length (sent w) + 1 + i)%nat by lia.
    + rewrite Hsent, length_app. simpl.
      by replace (length (sent w) + 1 + k)%nat
        with (length (sent w) + S k)%nat by lia.
    + split; [done|]. rewrite Hs, Hsent, <- app_assoc. done.
Qed.

Lemma retry_stops_at_first_200_witness :
  (Fixed.get_page_with_retry Samples.moody_host "https://dekalbcounty.org/"
     5 Samples.fresh).1
  = Ok (Some {| status_code := 200; chunks := []; stream_breaks := false |})
  /\ sent (Fixed.get_page_with_retry Samples.moody_host
             "https://dekalbcounty.org/" 5 Samples.fresh).2
     = replicate 4 "https://dekalbcounty.org/"%string.
Proof.
  apply (retry_stops_at_first_200 Samples.moody_host
           "https://dekalbcounty.org/" 5 Samples.fresh 3
           {| status_code := 200; chunks := []; stream_breaks := false |}).
  - simpl. lia.
  - intros i r Hi. simpl.
    destruct i as [|[|[|i]]]; simpl; intros [= <-]; simpl; lia.
  - reflexivity.
  - reflexivity.
Defined.

(** X2.  A call of [get_page_with_retry] sends at most [max_retries]
    requests, all for the given URL, and its effects are, turn by turn
    and one turn for each request sent, a sleep of 2 to 5 seconds, a
    renewal of the headers, and what the answer to that request calls
    for.  So a call that sends [k] requests sleeps 2 to 5 seconds [k]
    times, renews the headers [k] times and clears the cookies at most
    [k] times. *)
Theorem retry_is_bounded_and_polite
    (h : host) (u : string) (max_retries : Z) (w : world) :
  let out := Fixed.get_page_with_retry h u max_retries w in
  exists k,
    (k <= Z.to_nat max_retries)%nat
    /\ sent out.2 = sent w ++ replicate k u
    /\ log out.2 = log w ++ retry_log h u max_retries w k
    /\ (forall i, (i < k)%nat ->
          exists reaction,
            attempt_log max_retries (Z.of_nat i)
                        (server h (length (sent w) + i) u)
            = Sleep 2 5 :: UpdateHeaders :: reaction)
    /\ count_ev (Sleep 2 5) (retry_log h u max_retries w k) = k
    /\ count_ev UpdateHeaders (retry_log h u max_retries w k) = k
    /\ (count_ev ClearCookies (retry_log h u max_retries w k) <= k)%nat.
Proof.
  cbv zeta.
  destruct (FetchFacts.retry_trace h u max_retries w) as (k & Hk & Hs & Hl).
  destruct (FetchFacts.retry_log_counts h u max_retries w k)
    as (H1 & H2 & H3).
  exists k. split; [done|]. split; [done|]. split; [done|].
  split; [intros i _; by eexists|].
  split; [done|]. split; [done|].
  rewrite H3. unfold refused_early.
  etransitivity; [apply List.filter_length_le|]. by rewrite length_seq.
Qed.

(** X3.  The session cookies are cleared once for each request of the
    call that is answered with status 403 in an attempt that is not the
    last one allowed, and at no other time.  So a call none of whose
    requests is answered with 403 leaves the cookies alone, whatever the
    server would have answered to requests that were not sent. *)
Theorem cookies_cleared_only_after_403
    (h : host) (u : string) (max_retries : Z) (w : world) :
  let out := Fixed.get_page_with_retry h u max_retries w in
  exists k added,
    sent out.2 = sent w ++ replicate k u
    /\ log out.2 = log w ++ added
    /\ count_ev ClearCookies added
       = length (refused_early h u max_retries w k)
    /\ ((forall i, (i < k)%nat ->
           is_403 (server h (length (sent w) + i) u) = false) ->
        count_ev ClearCookies added = 0%nat).
Proof.
  cbv zeta.
  destruct (FetchFacts.retry_trace h u max_retries w) as (k & Hk & Hs & Hl).
  destruct (FetchFacts.retry_log_counts h u max_retries w k)
    as (_ & _ & H3).
  exists k, (retry_log h u max_retries w k).
  split; [done|]. split; [done|]. split; [done|].
  intros Hno. rewrite H3. by rewrite FetchFacts.refused_early_none.
Qed.

(** A server that answers 200 at once and would refuse the next request:
    the call sends one request and clears no cookies. *)
Lemma cookies_cleared_only_after_403_witness :
  let h := Samples.host_of (fun n _ =>
             match n with
             | 0%nat => Samples.reply 200
             | _ => Samples.reply 403
             end) in
  exists added,
    log (Fixed.get_page_with_retry h "https://dekalbcounty.org/" 3
           Samples.fresh).2
    = log Samples.fresh ++ added
    /\ count_ev ClearCookies added = 0%nat.
Proof.
  cbv zeta.
  destruct (cookies_cleared_only_after_403
              (Samples.host_of (fun n _ =>
                 match n with
                 | 0%nat => Samples.reply 200
                 | _ => Samples.reply 403
                 end))
              "https://dekalbcounty.org/" 3 Samples.fresh)
    as (k & added & Hs & Hl & _ & Hno).
  exists added. split; [exact Hl|]. apply Hno.
  vm_compute in Hs. intros i Hi.
  destruct k as [|[|k]]; [lia| |discriminate Hs].
  destruct i as [|i]; [reflexivity|lia].
Defined.

(** Two refusals, then a page: 403, 403, 200. *)
Example backoff_403_403_200 :
  let h := Samples.host_of (fun n _ =>
             match n with
             | 0%nat | 1%nat => Samples.reply 403
             | _ => Samples.reply 200
             end) in
  let out := Fixed.get_page_with_retry h "https://dekalbcounty.org/" 3
               Samples.fresh in
  out.1 = Ok (Some {| status_code := 200; chunks := [];
                      stream_breaks := false |})
  /\ log out.2
     = [ Sleep 2 5; UpdateHeaders; LogWarning; LogInfo; Sleep 10 20;
         ClearCookies;
         Sleep 2 5; UpdateHeaders; LogWarning; LogInfo; Sleep 10 20;
         ClearCookies;
         Sleep 2 5; UpdateHeaders ].
Proof. vm_compute. split; reflexivity. Qed.

End Retry.

(** ** Downloading a document *)

Module Download.

Import Py Data Spec.

(** The status passes [raise_for_status]. *)
Definition passes (r : response) : bool :=
  negb ((400 <=? status_code r) && (status_code r <? 600)).

(** [download] is one of the two [download_pdf]. *)
Definition is_download_pdf
    (download : host -> pdf_info -> string -> M world bool) : Prop :=
  download = Tool.download_pdf \/ download = Fixed.download_pdf.

Lemma download_cases download :
  is_download_pdf download ->
  exists prelude, forall h info path w,
    download h info path w = download_value prelude h info path w.
Proof.
  intros [->| ->].
  - exists []. apply FetchFacts.tool_download_value.
  - exists [Sleep 1 3; UpdateHeaders]. apply FetchFacts.fixed_download_value.
Qed.

Lemma written_lookup path cs : forall m,
  written path cs m !! path = (fun old => old ++ concat cs) <$> m !! path.
Proof.
  induction cs as [|c cs IH]; intros m; simpl.
  - destruct (m !! path); simpl; [by rewrite app_nil_r|done].
  - rewrite IH, lookup_alter_eq. destruct (m !! path); simpl; [|done].
    by rewrite <- app_assoc.
Qed.

Lemma written_lookup_ne path cs p : forall m,
  p <> path -> written path cs m !! p = m !! p.
Proof.
  induction cs as [|c cs IH]; intros m Hne; simpl; [done|].
  rewrite IH by done. by rewrite lookup_alter_ne.
Qed.

(** X4.  When [download_pdf] returns [True], the file is on disk: either
    it was there before, or the call has written it.  Both miners. *)
Theorem download_true_means_file_exists
    download (h : host) (info : pdf_info) (path : string) (w : world) :
  is_download_pdf download ->
  (download h info path w).1 = Ok true ->
  is_Some (fs (download h info path w).2 !! path).
Proof.
  intros [prelude Hval]%download_cases. rewrite Hval.
  unfold download_value, logged.
  destruct (path_exists w path) eqn:Hex; simpl.
  { intros _. by apply FetchFacts.path_exists_true. }
  destruct (server h (length (sent w)) (url info)) as [|r]; simpl; [done|].
  destruct ((400 <=? status_code r) && (status_code r <? 600)); simpl;
    [done|].
  destruct (writable h path); simpl; [|done].
  destruct (stream_breaks r); simpl; [done|]. intros _.
  apply FetchFacts.written_exists. by rewrite lookup_insert_eq.
Qed.

Lemma download_true_means_file_exists_witness :
  (Fixed.download_pdf Samples.serving_host Samples.minutes
     "dekalb_pdfs/highway/current/minutes-01-05-2024.pdf" Samples.fresh).1
  = Ok true
  /\ is_Some (fs (Fixed.download_pdf Samples.serving_host Samples.minutes
                   "dekalb_pdfs/highway/current/minutes-01-05-2024.pdf"
                   Samples.fresh).2
              !! "dekalb_pdfs/highway/current/minutes-01-05-2024.pdf"%string).
Proof.
  assert (Hrun : (Fixed.download_pdf Samples.serving_host Samples.minutes
                    "dekalb_pdfs/highway/current/minutes-01-05-2024.pdf"
                    Samples.fresh).1 = Ok true) by (vm_compute; reflexivity).
  split; [exact Hrun|].
  exact (download_true_means_file_exists Fixed.download_pdf
           Samples.serving_host Samples.minutes
           "dekalb_pdfs/highway/current/minutes-01-05-2024.pdf"%string
           Samples.fresh (or_intror eq_refl) Hrun).
Defined.

(** X5.  A download to a free path whose answer passes
    [raise_for_status], whose file can be opened and whose stream does
    not break returns [True] after one request, and the file then holds
    the chunks of the body, in order.  Both miners. *)
Theorem download_writes_the_body
    download (h : host) (info : pdf_info) (path : string) (w : world)
    (r : response) :
  is_download_pdf download ->
  fs w !! path = None ->
  server h (length (sent w)) (url info) = Responds r ->
  passes r = true ->
  writable h path = true ->
  stream_breaks r = false ->
  let out := download h info path w in
  out.1 = Ok true
  /\ fs out.2 !! path = Some (concat (chunks r))
  /\ sent out.2 = sent w ++ [url info].
Proof.
  intros [prelude Hval]%download_cases Hfree Hsrv Hpass Hwr Hstream.
  cbv zeta. rewrite Hval. unfold download_value, logged, passes in *.
  assert (Hex : path_exists w path = false).
  { unfold path_exists. apply bool_decide_eq_false. rewrite Hfree.
    by intros [? ?]. }
  rewrite Hex, Hsrv. apply negb_true_iff in Hpass. rewrite Hpass, Hwr, Hstream.
  simpl. split; [done|]. split; [|done].
  by rewrite written_lookup, lookup_insert_eq.
Qed.

(** A server that sends a body in two chunks. *)
Definition two_chunks : response :=
  {| status_code := 200; chunks := [[Byte.x25; Byte.x50]; [Byte.x44; Byte.x46]];
     stream_breaks := false |}.

Lemma download_writes_the_body_witness :
  let out := Tool.download_pdf
               (Samples.host_of (fun _ _ => Responds two_chunks))
               Samples.minutes "minutes.pdf" Samples.fresh in
  out.1 = Ok true
  /\ fs out.2 !! "minutes.pdf"%string
     = Some [Byte.x25; Byte.x50; Byte.x44; Byte.x46]
  /\ sent out.2 = [url Samples.minutes].
Proof.
  exact (download_writes_the_body Tool.download_pdf
           (Samples.host_of (fun _ _ => Responds two_chunks))
           Samples.minutes "minutes.pdf"%string Samples.fresh two_chunks
           (or_introl eq_refl) (lookup_empty _) eq_refl eq_refl eq_refl
           eq_refl).
Defined.

Lemma download_cases_quiet download :
  is_download_pdf download ->
  exists prelude,
    logger_lines prelude = []
    /\ forall h info path w,
         download h info path w = download_value prelude h info path w.
Proof.
  intros [->| ->].
  - exists []. split; [done|]. apply FetchFacts.tool_download_value.
  - exists [Sleep 1 3; UpdateHeaders]. split; [done|].
    apply FetchFacts.fixed_download_value.
Qed.

(** X6.  [download_pdf] changes no file other than the one at its target
    path and the log file, to which it adds one line: an info line when
    it returns [True], an error line when it returns [False]; it always
    returns one of the two.  It leaves [self.results] alone.  Both
    miners. *)
Theorem download_touches_only_its_path
    download (h : host) (info : pdf_info) (path p : string) (w : world) :
  is_download_pdf download ->
  p <> path ->
  p <> log_file ->
  let out := download h info path w in
  fs out.2 !! p = fs w !! p
  /\ results out.2 = results w
  /\ exists effects,
       log out.2 = log w ++ effects
       /\ ((out.1 = Ok true /\ logger_lines effects = [LogInfo])
           \/ (out.1 = Ok false /\ logger_lines effects = [LogError])).
Proof.
  intros (prelude & Hquiet & Hval)%download_cases_quiet Hne _. cbv zeta.
  rewrite Hval. unfold download_value, logged.
  assert (Herr : logger_lines (prelude ++ [LogError]) = [LogError])
    by (by rewrite FetchFacts.logger_lines_app, Hquiet).
  assert (Hinfo : logger_lines (prelude ++ [LogInfo]) = [LogInfo])
    by (by rewrite FetchFacts.logger_lines_app, Hquiet).
  destruct (path_exists w path); simpl.
  { split; [done|]. split; [done|]. exists [LogInfo]. split; [done|].
    by left. }
  destruct (server h (length (sent w)) (url info)) as [|r]; simpl.
  { split; [done|]. split; [done|]. exists (prelude ++ [LogError]).
    split; [by rewrite <- app_assoc|]. by right. }
  destruct ((400 <=? status_code r) && (status_code r <? 600)); simpl.
  { split; [done|]. split; [done|]. exists (prelude ++ [LogError]).
    split; [by rewrite <- app_assoc|]. by right. }
  destruct (writable h path); simpl.
  - assert (Hp : written path (chunks r) (<[path:=[]]> (fs w)) !! p
                 = fs w !! p).
    { rewrite written_lookup_ne by done. by rewrite lookup_insert_ne. }
    destruct (stream_breaks r); simpl; (split; [done|]); (split; [done|]).
    + exists (prelude ++ [LogError]).
      split; [by rewrite <- app_assoc|]. by right.
    + exists (prelude ++ [LogInfo]).
      split; [by rewrite <- app_assoc|]. by left.
  - split; [done|]. split; [done|]. exists (prelude ++ [LogError]).
    split; [by rewrite <- app_assoc|]. by right.
Qed.

Lemma download_touches_only_its_path_witness :
  fs (Fixed.download_pdf Samples.serving_host Samples.minutes
        "current/minutes.pdf" Samples.fresh).2 !! "current/agenda.pdf"%string
  = fs Samples.fresh !! "current/agenda.pdf"%string
  /\ results (Fixed.download_pdf Samples.serving_host Samples.minutes
               "current/minutes.pdf" Samples.fresh).2
     = results Samples.fresh.
Proof.
  destruct (download_touches_only_its_path Fixed.download_pdf
              Samples.serving_host Samples.minutes
              "current/minutes.pdf"%string "current/agenda.pdf"%string
              Samples.fresh (or_intror eq_refl)) as (Hfs & Hres & _).
  - discriminate.
  - discriminate.
  - split; [exact Hfs|exact Hres].
Defined.

(** X7.  A download whose stream breaks returns [False] but leaves on disk
    the chunks received so far; the next call for the same path then takes
    that partial file for a cached document: it returns [True] and sends
    no request.  Both miners. *)
Theorem broken_download_is_taken_for_cached
    download (h : host) (info : pdf_info) (path : string) (w : world)
    (r : response) :
  is_download_pdf download ->
  fs w !! path = None ->
  server h (length (sent w)) (url info) = Responds r ->
  passes r = true ->
  writable h path = true ->
  stream_breaks r = true ->
  let out1 := download h info path w in
  let out2 := download h info path out1.2 in
  out1.1 = Ok false
  /\ fs out1.2 !! path = Some (concat (chunks r))
  /\ out2.1 = Ok true
  /\ sent out2.2 = sent out1.2
  /\ fs out2.2 = fs out1.2.
Proof.
  intros Hdl Hfree Hsrv Hpass Hwr Hstream. cbv zeta.
  destruct (download_cases download Hdl) as [prelude Hval].
  assert (H1 : (download h info path w).1 = Ok false
               /\ fs (download h info path w).2 !! path
                  = Some (concat (chunks r))).
  { rewrite Hval. unfold download_value, logged, passes in *.
    assert (Hex : path_exists w path = false).
    { unfold path_exists. apply bool_decide_eq_false. rewrite Hfree.
      by intros [? ?]. }
    rewrite Hex, Hsrv. apply negb_true_iff in Hpass.
    rewrite Hpass, Hwr, Hstream. simpl. split; [done|].
    by rewrite written_lookup, lookup_insert_eq. }
  destruct H1 as [Hfalse Hfile]. split; [done|]. split; [done|].
  assert (Hex1 : path_exists (download h info path w).2 path = true).
  { apply FetchFacts.path_exists_true. by rewrite Hfile. }
  rewrite (Hval h info path (download h info path w).2).
  unfold download_value. rewrite Hex1. done.
Qed.

(** A server whose body breaks after the first chunk. *)
Definition cut_short : response :=
  {| status_code := 200; chunks := [[Byte.x25; Byte.x50]];
     stream_breaks := true |}.

Lemma broken_download_is_taken_for_cached_witness :
  let h := Samples.host_of (fun _ _ => Responds cut_short) in
  let out1 := Fixed.download_pdf h Samples.minutes "minutes.pdf"
                Samples.fresh in
  let out2 := Fixed.download_pdf h Samples.minutes "minutes.pdf" out1.2 in
  out1.1 = Ok false
  /\ fs out1.2 !! "minutes.pdf"%string = Some [Byte.x25; Byte.x50]
  /\ out2.1 = Ok true
  /\ sent out2.2 = sent out1.2
  /\ fs out2.2 = fs out1.2.
Proof.
  exact (broken_download_is_taken_for_cached Fixed.download_pdf
           (Samples.host_of (fun _ _ => Responds cut_short))
           Samples.minutes "minutes.pdf"%string Samples.fresh cut_short
           (or_intror eq_refl) (lookup_empty _) eq_refl eq_refl eq_refl
           eq_refl).
Defined.

(** The outcome of [extract_pdf_links] of [tool.py], case by case. *)
Lemma tool_links_value (h : host) (u : string) (w : world) :
  Tool.extract_pdf_links h u w
  = let w1 := {| fs := fs w; sent := sent w ++ [u]; log := log w;
                 results := results w |} in
    match server h (length (sent w)) u with
    | ConnFails => (Ok [], logged w1 [LogError])
    | Responds r =>
        if passes r then (Ok (page_links h u r), logged w1 [LogInfo])
        else (Ok [], logged w1 [LogError])
    end.
Proof.
  unfold Tool.extract_pdf_links, passes, logged, try_except, mbind, M_bind,
    bind, session_get, raise_for_status, emit, modify, ret, raise.
  simpl.
  destruct (server h (length (sent w)) u) as [|r]; simpl; [done|].
  by destruct ((400 <=? status_code r) && (status_code r <? 600)).
Qed.


End Download.

(** ** More on text extraction *)

Module Pages.

Import Py Data Spec.

(** Page numbers go up along a list of pages. *)
Definition ascending (ps : list (Z * str)) : Prop :=
  StronglySorted (fun a b : Z * str => a.1 < b.1) ps.

Lemma page_loop_ascending : forall pages i,
  ascending (page_loop i pages).1.
Proof.
  induction pages as [|p pages IH]; intros i; [constructor|].
  destruct p as [t|]; simpl; [|constructor].
  destruct t as [t'|]; [|apply IH].
  destruct (retained (Some t')); [|apply IH].
  constructor; [apply IH|].
  eapply Forall_impl; [apply (ExtractFacts.page_loop_ok pages (i + 1))|].
  intros p (Hp & _). simpl. lia.
Qed.

Lemma kept_all_ascending : forall pages i, ascending (kept_all i pages).
Proof.
  induction pages as [|p pages IH]; intros i; [constructor|].
  destruct p as [t|]; simpl; [|apply IH].
  destruct t as [t'|]; [|apply IH].
  destruct (retained (Some t')); [|apply IH].
  constructor; [apply IH|].
  eapply Forall_impl; [apply (ExtractFacts.kept_all_ok pages (i + 1))|].
  intros p (Hp & _). simpl. lia.
Qed.

Lemma strategy_ascending o : ascending (strategy o).1.
Proof. destruct o; simpl; [apply page_loop_ascending|constructor]. Qed.

(** X9.  The pages returned by an extraction come in strictly increasing
    page number, so no page is returned twice; this holds for the miner,
    the manual analyzer and the fixed miner. *)
Theorem extracted_pages_ascend (pdf : pdf_file) (has_pdfplumber : bool) :
  ascending (Tool.extract_text_from_pdf pdf).1
  /\ ascending (Manual.extract_text_from_pdf pdf).1
  /\ ascending (Fixed.extract_text_from_pdf has_pdfplumber pdf).1.
Proof.
  rewrite ExtractFacts.tool_extract_value, ExtractFacts.manual_extract_value,
    ExtractFacts.fixed_extract_value.
  unfold tool_value, manual_value, fixed_value.
  pose proof (strategy_ascending (plumber pdf)) as H1.
  pose proof (strategy_ascending (pypdf2 pdf)) as H2.
  pose proof (strategy_ascending (ocr pdf)) as H3.
  split; [|split].
  - destruct (strategy (plumber pdf)) as [k1 [|]]; simpl in *; [done|].
    destruct k1; simpl; [|done].
    destruct (strategy (pypdf2 pdf)) as [k2 [|]]; simpl in *; [done|].
    destruct k2; simpl; done.
  - destruct (pypdf2 pdf) as [pages|]; simpl; [|constructor].
    apply kept_all_ascending.
  - destruct has_pdfplumber; simpl; [|done].
    destruct (strategy (plumber pdf)) as [k1 r1]; simpl in *.
    destruct k1; simpl; done.
Qed.

(** X10.  The pages returned by the miner of [tool.py] all come from one
    strategy: the result is what pdfplumber kept, or what PyPDF2 kept, or
    what OCR kept, never a mix. *)
Theorem tool_pages_come_from_one_strategy (pdf : pdf_file) :
  (Tool.extract_text_from_pdf pdf).1
  ∈ [ (strategy (plumber pdf)).1; (strategy (pypdf2 pdf)).1;
      (strategy (ocr pdf)).1 ].
Proof.
  rewrite ExtractFacts.tool_extract_value. unfold tool_value.
  destruct (strategy (plumber pdf)) as [k1 [|]]; simpl; [left|].
  destruct k1; simpl; [|left].
  destruct (strategy (pypdf2 pdf)) as [k2 [|]]; simpl; [right; left|].
  destruct k2; simpl; [|right; left].
  right; right; left.
Qed.

(** X11.  In [pdf_miner_fixed.py] an exception of pdfplumber is swallowed:
    the pages pdfplumber kept before it are the result if there are any,
    and otherwise PyPDF2 is tried, also when pdfplumber could not open
    the file.  OCR is never called, and without pdfplumber neither is
    pdfplumber. *)
Theorem fixed_falls_back_after_failure
    (has_pdfplumber : bool) (pdf : pdf_file) :
  let r := Fixed.extract_text_from_pdf has_pdfplumber pdf in
  r.1 = match (if has_pdfplumber then (strategy (plumber pdf)).1 else [])
        with
        | [] => (strategy (pypdf2 pdf)).1
        | kept => kept
        end
  /\ (CallOCR ∉ r.2)
  /\ (has_pdfplumber = false -> CallPdfplumber ∉ r.2)
  /\ ((strategy (plumber pdf)).1 = [] -> CallPyPDF2 ∈ r.2).
Proof.
  cbv zeta. rewrite ExtractFacts.fixed_extract_value. unfold fixed_value.
  destruct has_pdfplumber; simpl.
  - destruct (strategy (plumber pdf)) as [k1 r1]; simpl.
    destruct k1 as [|p k1]; simpl.
    + split; [done|].
      destruct (strategy (pypdf2 pdf)) as [k2 [|]]; simpl;
        (split; [apply Extraction.not_elem_of_events; reflexivity|]);
        (split; [done|]); intros _; right; left.
    + split; [done|].
      split; [apply Extraction.not_elem_of_events; reflexivity|].
      split; done.
  - split; [done|].
    destruct (strategy (pypdf2 pdf)) as [k2 [|]]; simpl;
      (split; [apply Extraction.not_elem_of_events; reflexivity|]);
      (split; [intros _; apply Extraction.not_elem_of_events; reflexivity|]);
      intros _; left.
Qed.

(** A file that pdfplumber cannot open and PyPDF2 can read. *)
Example fixed_recovers_where_tool_gives_up :
  let pdf := {| plumber := OpenRaises;
                pypdf2 := Opened [PageText (Some Samples.long_page)];
                ocr := OpenRaises |} in
  (Fixed.extract_text_from_pdf true pdf).1 = [(1, Samples.long_page)]
  /\ (Tool.extract_text_from_pdf pdf).1 = [].
Proof. vm_compute. split; reflexivity. Qed.

End Pages.

(** ** More on keyword classification *)

Module Findings.

Import Py Re Data Spec.

Lemma length_join_cons (w : str) (ws : list str) :
  (length (join (s " ") (w :: ws)) <= length w + 1 + length (join (s " ") ws))%nat.
Proof.
  destruct ws as [|w' ws]; [simpl; lia|].
  change (join (s " ") (w :: w' :: ws))
    with (w ++ " "%char :: join (s " ") (w' :: ws)).
  rewrite length_app. simpl. lia.
Qed.

Lemma length_join_split_from : forall t cur,
  (length (join (s " ") (split_from cur t)) <= length cur + length t)%nat.
Proof.
  induction t as [|c t IH]; intros cur.
  - destruct cur; simpl; lia.
  - simpl. destruct (isspace c).
    + destruct cur as [|d cur].
      * specialize (IH []). simpl in *. lia.
      * pose proof (length_join_cons (d :: cur) (split_from [] t)).
        specialize (IH []). simpl in *. lia.
    + specialize (IH (cur ++ [c])). rewrite length_app in IH.
      simpl in *. lia.
Qed.

(** Collapsing the whitespace never makes a text longer. *)
Lemma length_join_split (t : str) :
  (length (join (s " ") (split t)) <= length t)%nat.
Proof. apply (length_join_split_from t []). Qed.

Lemma context_window_length (t : str) (sp : span) :
  0 <= sp.1 -> sp.1 <= sp.2 -> sp.2 <= len t ->
  (length (Tool.context_window t sp) <= length (group t sp) + 600)%nat.
Proof.
  intros H0 Hbe He. unfold Tool.context_window, group.
  rewrite PyFacts.split_strip, WindowFacts.window_parts by done.
  rewrite PyFacts.slice_in_range by done.
  etransitivity; [apply length_join_split|].
  unfold len in He.
  rewrite !length_app, !length_take, !length_drop, !length_take. lia.
Qed.

Section WithEngine.

Context `{Engine}.

(** X12.  The context of a finding is at most 600 characters longer than
    the matched text. *)
Theorem context_is_bounded kw t page_num info cname fs f :
  Tool.search_keywords_in_text kw t page_num info cname = Ok fs ->
  f ∈ fs ->
  (length (context f) <= length (matched_text f) + 600)%nat.
Proof.
  intros Hs Hf. apply Classification.search_occurrences in Hs.
  apply list_elem_of_lookup in Hf as [i Hi].
  destruct (Forall2_lookup_l _ _ _ _ _ Hs Hi)
    as (o & Ho & tier & pattern & Htier & Hpat & ->).
  assert (Hocc : o ∈ occurrences (catalog_of kw) t)
    by (apply list_elem_of_lookup; eauto).
  apply OccFacts.elem_of_occurrences in Hocc
    as (tier' & pattern' & _ & _ & Hsp).
  apply OccFacts.pattern_spans_bounds in Hsp as (H0 & Hbe & He).
  simpl. by apply context_window_length.
Qed.

(** X13.  Every finding carries the committee name, the file name, the
    date, the page number and the URL that the scan was called with. *)
Theorem findings_carry_their_document kw t page_num info cname fs :
  Tool.search_keywords_in_text kw t page_num info cname = Ok fs ->
  Forall (fun f =>
            committee f = cname /\ pdf_filename f = filename info
            /\ pdf_date f = date_str info /\ page f = page_num
            /\ f_url f = url info) fs.
Proof.
  intros Hs. apply Classification.search_occurrences in Hs.
  apply Forall_forall. intros f Hf.
  apply list_elem_of_lookup in Hf as [i Hi].
  destruct (Forall2_lookup_l _ _ _ _ _ Hs Hi)
    as (o & _ & tier & pattern & _ & _ & ->).
  done.
Qed.

Lemma first_invalid_app cat1 cat2 :
  first_invalid (cat1 ++ cat2)
  = match first_invalid cat1 with
    | Some p => Some p
    | None => first_invalid cat2
    end.
Proof.
  unfold first_invalid. by rewrite map_app, concat_app, OccFacts.find_app.
Qed.

Lemma emit_tiers_app {F} (mk : string -> string -> span -> F) t cat1 cat2 :
  emit_tiers mk t (cat1 ++ cat2) = emit_tiers mk t cat1 ++ emit_tiers mk t cat2.
Proof. unfold emit_tiers. by rewrite map_app, concat_app. Qed.

(** X14.  For two catalogs that share no tier name, so that the tiers of
    the first followed by the tiers of the second are the items of one
    dict, scanning with the joined catalog gives the findings of the
    first followed by the findings of the second. *)
Theorem scan_of_joined_catalogs kw1 kw2 t page_num info cname fs1 fs2 :
  NoDup (map fst (kw1 ++ kw2)) ->
  Tool.search_keywords_in_text kw1 t page_num info cname = Ok fs1 ->
  Tool.search_keywords_in_text kw2 t page_num info cname = Ok fs2 ->
  Tool.search_keywords_in_text (kw1 ++ kw2) t page_num info cname
  = Ok (fs1 ++ fs2).
Proof.
  intros _.
  rewrite !LoopFacts.tool_search_scan, !OccFacts.scan_catalog_value.
  unfold catalog_of. rewrite map_app, first_invalid_app, emit_tiers_app.
  fold (catalog_of kw1) (catalog_of kw2).
  destruct (first_invalid (catalog_of kw1)); [done|].
  destruct (first_invalid (catalog_of kw2)); [done|].
  by intros [= <-] [= <-].
Qed.

Lemma first_invalid_None cat :
  first_invalid cat = None
  <-> Forall (fun tier => Forall (fun p => invalid p = false) tier.2) cat.
Proof.
  unfold first_invalid. fold invalid.
  induction cat as [|tier cat IH]; simpl.
  { split; [constructor|done]. }
  rewrite OccFacts.find_app, Forall_cons, <- IH. clear IH.
  assert (Htier : find invalid tier.2 = None
                  <-> Forall (fun p => invalid p = false) tier.2).
  { induction tier.2 as [|p ps IHp]; simpl; [split; [constructor|done]|].
    rewrite Forall_cons, <- IHp.
    destruct (invalid p); (split; [done|]); by intros [? ?]. }
  rewrite <- Htier.
  destruct (find invalid tier.2); (split; [done|]); by intros [? ?].
Qed.

Lemma emit_tiers_Permutation {F} (mk : string -> string -> span -> F) t
    cat cat' :
  cat ≡ₚ cat' -> emit_tiers mk t cat ≡ₚ emit_tiers mk t cat'.
Proof.
  unfold emit_tiers.
  induction 1 as [|x l l' _ IH|x y l|l l' l'' _ IH1 _ IH2]; simpl.
  - done.
  - by rewrite IH.
  - rewrite !app_assoc. f_equiv. apply Permutation_app_comm.
  - by rewrite IH1.
Qed.

(** X15.  The order of the tiers decides the order of the findings and
    nothing else: scanning with the tiers in another order gives the same
    findings in another order. *)
Theorem tier_order_only_reorders kw kw' t page_num info cname fs :
  kw ≡ₚ kw' ->
  Tool.search_keywords_in_text kw t page_num info cname = Ok fs ->
  exists fs',
    Tool.search_keywords_in_text kw' t page_num info cname = Ok fs'
    /\ fs ≡ₚ fs'.
Proof.
  intros Hperm. rewrite !LoopFacts.tool_search_scan,
    !OccFacts.scan_catalog_value.
  assert (Hcat : catalog_of kw ≡ₚ catalog_of kw')
    by (unfold catalog_of; by apply Permutation_map).
  destruct (first_invalid (catalog_of kw)) eqn:Hinv; [done|].
  intros [= <-].
  apply first_invalid_None in Hinv. rewrite Hcat in Hinv.
  apply first_invalid_None in Hinv. rewrite Hinv.
  eexists. split; [done|]. by apply emit_tiers_Permutation.
Qed.

Lemma emit_tiers_map {F G} (g : F -> G)
    (mk : string -> string -> span -> F) t cat :
  map g (emit_tiers mk t cat)
  = emit_tiers (fun tier pattern sp => g (mk tier pattern sp)) t cat.
Proof.
  unfold emit_tiers, emit_patterns.
  induction cat as [|tier cat IH]; simpl; [done|].
  rewrite map_app, IH. f_equal.
  induction tier.2 as [|p ps IHp]; simpl; [done|].
  by rewrite map_app, IHp, map_map.
Qed.

(** X16.  On the same page the manual analyzer and the miner find the
    same things: with the miner's tiers and patterns, the analyzer returns
    findings with the same tier, pattern, matched text, context and page,
    in the same order. *)
Theorem manual_and_miner_agree kw t page_num info cname pdf_name fs :
  Tool.search_keywords_in_text kw t page_num info cname = Ok fs ->
  exists mfs,
    Manual.search_keywords_in_text (catalog_of kw) t page_num pdf_name
    = Ok mfs
    /\ map (fun f => (Manual.priority f, Manual.keyword f,
                      Manual.matched_text f, Manual.context f,
                      Manual.page f)) mfs
       = map (fun f => (priority f, keyword_pattern f, matched_text f,
                        context f, page f)) fs.
Proof.
  rewrite LoopFacts.tool_search_scan, LoopFacts.manual_search_scan,
    !OccFacts.scan_catalog_value.
  destruct (first_invalid (catalog_of kw)); [done|].
  intros [= <-]. eexists. split; [done|].
  by rewrite !emit_tiers_map.
Qed.

End WithEngine.

Lemma context_is_bounded_witness :
  Forall (fun f =>
            (length (context f) <= length (matched_text f) + 600)%nat)
         Samples.page_findings.
Proof.
  apply Forall_forall. intros f Hf.
  exact (context_is_bounded default_keywords Samples.page_text 1
           Samples.minutes "Highway" Samples.page_findings f
           Classification.sample_search Hf).
Defined.

Lemma findings_carry_their_document_witness :
  Forall (fun f => committee f = "Highway"%string /\ page f = 1)
         Samples.page_findings.
Proof.
  eapply Forall_impl;
    [exact (findings_carry_their_document default_keywords
              Samples.page_text 1 Samples.minutes "Highway"
              Samples.page_findings Classification.sample_search)|].
  intros f (? & _ & _ & ? & _). by split.
Defined.

(** The shipped catalog cut in two: its first tier, and the other
    three. *)
Lemma scan_of_joined_catalogs_witness :
  exists fs1 fs2,
    Tool.search_keywords_in_text (take 1 default_keywords) Samples.page_text
      1 Samples.minutes "Highway" = Ok fs1
    /\ Tool.search_keywords_in_text (drop 1 default_keywords)
         Samples.page_text 1 Samples.minutes "Highway" = Ok fs2
    /\ Tool.search_keywords_in_text default_keywords Samples.page_text 1
         Samples.minutes "Highway" = Ok (fs1 ++ fs2).
Proof.
  eexists _, _.
  assert (H1 : Tool.search_keywords_in_text (take 1 default_keywords)
                 Samples.page_text 1 Samples.minutes "Highway"
               = Ok (take 4 Samples.page_findings))
    by (vm_compute; reflexivity).
  assert (H2 : Tool.search_keywords_in_text (drop 1 default_keywords)
                 Samples.page_text 1 Samples.minutes "Highway"
               = Ok (drop 4 Samples.page_findings))
    by (vm_compute; reflexivity).
  split; [exact H1|]. split; [exact H2|].
  apply (scan_of_joined_catalogs (take 1 default_keywords)
           (drop 1 default_keywords) Samples.page_text 1 Samples.minutes
           "Highway" _ _); [|exact H1|exact H2].
  apply (bool_decide_unpack _). vm_compute. exact I.
Defined.

Lemma tier_order_only_reorders_witness :
  exists fs',
    Tool.search_keywords_in_text (rev default_keywords) Samples.page_text 1
      Samples.minutes "Highway" = Ok fs'
    /\ Samples.page_findings ≡ₚ fs'.
Proof.
  exact (tier_order_only_reorders default_keywords (rev default_keywords)
           Samples.page_text 1 Samples.minutes "Highway"
           Samples.page_findings (Permutation_rev _)
           Classification.sample_search).
Defined.

Lemma manual_and_miner_agree_witness :
  exists mfs,
    Manual.search_keywords_in_text (catalog_of default_keywords)
      Samples.page_text 1 "minutes-01-05-2024.pdf" = Ok mfs
    /\ map (fun f => (Manual.priority f, Manual.keyword f,
                      Manual.matched_text f, Manual.context f,
                      Manual.page f)) mfs
       = map (fun f => (priority f, keyword_pattern f, matched_text f,
                        context f, page f)) Samples.page_findings.
Proof.
  exact (manual_and_miner_agree default_keywords Samples.page_text 1
           Samples.minutes "Highway" "minutes-01-05-2024.pdf"
           Samples.page_findings Classification.sample_search).
Defined.

End Findings.

(** ** The coordinator *)

Module Coordinator.

Import Py Re Data Spec Inv.

(** [self.results] has only grown since [w0]. *)
Definition grown (w0 w : world) : Prop :=
  results w0 `prefix_of` results w.

(** The files and the requests sent are as they were in [w0], and the
    log has only grown. *)
Definition offline (w0 w : world) : Prop :=
  fs w = fs w0 /\ sent w = sent w0 /\ log w0 `prefix_of` log w.

Lemma keeps_grown_same {A} (w0 : world) (m : M world A) :
  (forall w, results (m w).2 = results w) -> keeps (grown w0) m.
Proof. intros Hm w Hw. unfold grown in *. by rewrite Hm. Qed.

Lemma keeps_grown_extend w0 ms : keeps (grown w0) (extend_results ms).
Proof.
  intros w Hw. unfold grown in *. simpl.
  etransitivity; [exact Hw|]. by apply prefix_app_r.
Qed.

Lemma retry_results h u max_retries w :
  results (Fixed.get_page_with_retry h u max_retries w).2 = results w.
Proof.
  unfold Fixed.get_page_with_retry.
  by destruct (FetchFacts.attempts_run h u max_retries (range max_retries) w)
    as (_ & _ & Hres & _).
Qed.

Lemma retry_fs h u max_retries w :
  fs (Fixed.get_page_with_retry h u max_retries w).2 = fs w.
Proof.
  unfold Fixed.get_page_with_retry.
  by destruct (FetchFacts.attempts_run h u max_retries (range max_retries) w)
    as (_ & Hfs & _).
Qed.

Lemma fixed_links_grown w0 h u :
  keeps (grown w0) (Fixed.extract_pdf_links h u).
Proof.
  unfold Fixed.extract_pdf_links. apply keeps_mbind.
  - apply keeps_grown_same. apply retry_results.
  - intros [r|]; (apply keeps_mbind; [by apply keeps_grown_same|]);
      intros _; apply keeps_ret.
Qed.

Lemma tool_links_grown w0 h u :
  keeps (grown w0) (Tool.extract_pdf_links h u).
Proof.
  apply keeps_grown_same. intros w. rewrite Download.tool_links_value.
  destruct (server h (length (sent w)) u) as [|r]; simpl; [done|].
  by destruct (Download.passes r).
Qed.

Section WithEngine.

Context `{Engine}.

Lemma scan_pages_keep (I : world -> Prop) kw info cname pages :
  (forall ms, keeps I (extend_results ms)) ->
  keeps I (for_each pages (fun pt : Z * str =>
             matches ← lift (Tool.search_keywords_in_text kw pt.2 pt.1
                               info cname);
             extend_results matches)).
Proof.
  intros Hext. apply keeps_for_each. intros pt _.
  apply keeps_mbind; [apply keeps_lift|]. apply Hext.
Qed.

Lemma fixed_pdfs_grown w0 has_pdfplumber self h key cname bucket pdfs :
  keeps (grown w0)
        (Fixed.process_pdfs has_pdfplumber self h key cname bucket pdfs).
Proof.
  unfold Fixed.process_pdfs. apply keeps_for_each. intros info _.
  apply keeps_mbind.
  - apply keeps_grown_same. intros w.
    by destruct (FetchFacts.fixed_download_effect h info
                   (path_join (path_join (path_join (Tool.base_dir self) key)
                                         bucket) (filename info)) w)
      as [Hres _].
  - intros ok. apply keeps_when. apply keeps_mbind.
    + by apply keeps_grown_same.
    + intros pages. apply scan_pages_keep. apply keeps_grown_extend.
Qed.

Lemma tool_pdfs_grown w0 self h key cname bucket pdfs :
  keeps (grown w0) (Tool.process_pdfs self h key cname bucket pdfs).
Proof.
  unfold Tool.process_pdfs. apply keeps_for_each. intros info _.
  apply keeps_mbind.
  - apply keeps_grown_same. intros w.
    by destruct (FetchFacts.tool_download_effect h info
                   (path_join (path_join (path_join (Tool.base_dir self) key)
                                         bucket) (filename info)) w)
      as [Hres _].
  - intros ok. apply keeps_when. apply keeps_mbind.
    + by apply keeps_grown_same.
    + intros pages. apply scan_pages_keep. apply keeps_grown_extend.
Qed.

Lemma fixed_committee_grown w0 has_pdfplumber self h key c :
  keeps (grown w0) (Fixed.process_committee has_pdfplumber self h key c).
Proof.
  unfold Fixed.process_committee.
  apply keeps_mbind; [by apply keeps_grown_same|]. intros _.
  apply keeps_mbind; [apply fixed_links_grown|]. intros current.
  apply keeps_mbind; [apply fixed_links_grown|]. intros archive.
  apply keeps_mbind; [apply fixed_pdfs_grown|]. intros _.
  apply fixed_pdfs_grown.
Qed.

Lemma tool_committee_grown w0 self h key c :
  keeps (grown w0) (Tool.process_committee self h key c).
Proof.
  unfold Tool.process_committee.
  apply keeps_mbind; [by apply keeps_grown_same|]. intros _.
  apply keeps_mbind; [apply tool_links_grown|]. intros current.
  apply keeps_mbind; [apply tool_links_grown|]. intros archive.
  apply keeps_mbind; [apply tool_pdfs_grown|]. intros _.
  apply tool_pdfs_grown.
Qed.

(** X17.  The coordinator only ever appends to [self.results]: whatever a
    committee run or a whole run finds or fails on, also when it ends by
    an exception, the findings recorded before are still there, in
    place.  Both miners. *)
Theorem results_only_grow
    (has_pdfplumber : bool) (self : Tool.miner) (h : host)
    (key : string) (c : committee_t) (w : world) :
  results w `prefix_of`
    results (Fixed.process_committee has_pdfplumber self h key c w).2
  /\ results w `prefix_of`
       results (Fixed.run_committees has_pdfplumber self h w).2
  /\ results w `prefix_of` results (Tool.process_committee self h key c w).2
  /\ results w `prefix_of` results (Tool.run_committees self h w).2.
Proof.
  assert (Hw : grown w w) by (unfold grown; done).
  split; [exact (fixed_committee_grown w _ _ _ _ _ w Hw)|].
  split.
  { refine (keeps_for_each (grown w) _ _ _ w Hw). intros kc _.
    apply keeps_mbind; [apply fixed_committee_grown|].
    intros _. by apply keeps_grown_same. }
  split; [exact (tool_committee_grown w _ _ _ _ w Hw)|].
  refine (keeps_for_each (grown w) _ _ _ w Hw). intros kc _.
  apply keeps_mbind; [apply tool_committee_grown|].
  intros _. by apply keeps_grown_same.
Qed.

Lemma offline_hit w0 download h info path :
  Download.is_download_pdf download ->
  is_Some (fs w0 !! path) ->
  keeps (offline w0) (download h info path).
Proof.
  intros [prelude Hval]%Download.download_cases Hsome w (Hfs & Hsent & Hlog).
  unfold offline. rewrite Hval. unfold download_value.
  assert (Hhit : path_exists w path = true)
    by (apply FetchFacts.path_exists_true; by rewrite Hfs).
  rewrite Hhit. simpl.
  split; [done|]. split; [done|].
  etransitivity; [exact Hlog|]. by apply prefix_app_r.
Qed.

Lemma offline_extend w0 ms : keeps (offline w0) (extend_results ms).
Proof. by intros w Hw. Qed.

Lemma offline_extract_fixed w0 has_pdfplumber h path :
  keeps (offline w0) (Fixed.extract_at has_pdfplumber h path).
Proof.
  intros w (Hfs & Hsent & Hlog). unfold offline. simpl.
  split; [done|]. split; [done|].
  etransitivity; [exact Hlog|]. by apply prefix_app_r.
Qed.

Lemma offline_extract_tool w0 h path :
  keeps (offline w0) (Tool.extract_at h path).
Proof.
  intros w (Hfs & Hsent & Hlog). unfold offline. simpl.
  split; [done|]. split; [done|].
  etransitivity; [exact Hlog|]. by apply prefix_app_r.
Qed.

(** X18.  A run over documents that are all on disk already is offline:
    the document loop sends no request, and it changes no file other
    than the log file, which only grows.  Both miners. *)
Theorem cached_documents_are_not_requested
    (has_pdfplumber : bool) (self : Tool.miner) (h : host)
    (key cname bucket : string) (pdfs : list pdf_info) (w : world) :
  (forall info, info ∈ pdfs ->
     is_Some (fs w !! path_join (path_join (path_join (Tool.base_dir self)
                                                      key) bucket)
                                (filename info))) ->
  let out := Fixed.process_pdfs has_pdfplumber self h key cname bucket pdfs
               w in
  let out' := Tool.process_pdfs self h key cname bucket pdfs w in
  (sent out.2 = sent w /\ other_files_kept w out.2
   /\ log w `prefix_of` log out.2)
  /\ (sent out'.2 = sent w /\ other_files_kept w out'.2
      /\ log w `prefix_of` log out'.2).
Proof.
  intros Hcached. cbv zeta.
  assert (Hw : offline w w) by done.
  split.
  - assert (Hk : keeps (offline w)
              (Fixed.process_pdfs has_pdfplumber self h key cname bucket pdfs)).
    { unfold Fixed.process_pdfs. apply keeps_for_each. intros info Hin.
      apply keeps_mbind.
      - apply (offline_hit w Fixed.download_pdf); [by right|by apply Hcached].
      - intros ok. apply keeps_when.
        apply keeps_mbind; [apply offline_extract_fixed|].
        intros pages. apply scan_pages_keep. apply offline_extend. }
    destruct (Hk w Hw) as (Hfs & Hsent & Hlog).
    split; [done|]. split; [|done]. intros p _. by rewrite Hfs.
  - assert (Hk : keeps (offline w)
              (Tool.process_pdfs self h key cname bucket pdfs)).
    { unfold Tool.process_pdfs. apply keeps_for_each. intros info Hin.
      apply keeps_mbind.
      - apply (offline_hit w Tool.download_pdf); [by left|by apply Hcached].
      - intros ok. apply keeps_when.
        apply keeps_mbind; [apply offline_extract_tool|].
        intros pages. apply scan_pages_keep. apply offline_extend. }
    destruct (Hk w Hw) as (Hfs & Hsent & Hlog).
    split; [done|]. split; [|done]. intros p _. by rewrite Hfs.
Qed.

(** The two listing pages of a committee are both answered without a 200,
    three times each. *)
Definition listings_fail (h : host) (c : committee_t) (w : world) : Prop :=
  exhausted h (main_url c) w 3
  /\ forall i r, (i < 3)%nat ->
       server h (length (sent w) + 3 + i) (archive_url c) = Responds r ->
       status_code r <> 200.

(** What [process_committee] adds to the log when its two listing pages
    cannot be fetched: its opening line and, for each page, the effects
    of three attempts and one error line. *)
Definition failing_listings_log (h : host) (c : committee_t) (w : world)
  : list event :=
  [LogInfo]
  ++ turns_log h (main_url c) 3 0 (length (sent w)) 3 ++ [LogError]
  ++ turns_log h (archive_url c) 3 0 (length (sent w) + 3) 3 ++ [LogError].

Lemma links_exhausted h u w :
  exhausted h u w 3 ->
  let out := Fixed.extract_pdf_links h u w in
  out.1 = Ok [] /\ results out.2 = results w /\ fs out.2 = fs w
  /\ sent out.2 = sent w ++ replicate 3 u
  /\ log out.2 = log w ++ retry_log h u 3 w 3 ++ [LogError].
Proof.
  intros Hex. cbv zeta.
  destruct (FetchFacts.retry_exhausted h u 3 w Hex)
    as (Hout & Hfs & Hres & Hsent & Hlog).
  unfold Fixed.extract_pdf_links, mbind, M_bind, bind.
  destruct (Fixed.get_page_with_retry h u 3 w) as [o w1].
  cbn [fst snd] in *. subst o.
  cbn [emit modify ret fst snd results fs sent log].
  rewrite Hlog, <- app_assoc. done.
Qed.

Lemma committee_with_failing_listings has_pdfplumber self h key c w :
  listings_fail h c w ->
  let out := Fixed.process_committee has_pdfplumber self h key c w in
  out.1 = Ok tt /\ results out.2 = results w /\ fs out.2 = fs w
  /\ sent out.2
     = sent w ++ replicate 3 (main_url c) ++ replicate 3 (archive_url c)
  /\ log out.2 = log w ++ failing_listings_log h c w.
Proof.
  intros [Hmain Harch]. cbv zeta.
  unfold Fixed.process_committee, failing_listings_log.
  unfold mbind, M_bind, bind.
  change (emit LogInfo w) with (Ok tt, logged w [LogInfo]). cbv beta iota.
  destruct (links_exhausted h (main_url c) (logged w [LogInfo]) Hmain)
    as (H1 & H2 & H3 & H4 & H5).
  unfold retry_log in H5.
  change (sent (logged w [LogInfo])) with (sent w) in H4, H5.
  change (fs (logged w [LogInfo])) with (fs w) in H3.
  change (results (logged w [LogInfo])) with (results w) in H2.
  change (log (logged w [LogInfo])) with (log w ++ [LogInfo]) in H5.
  destruct (Fixed.extract_pdf_links h (main_url c) (logged w [LogInfo]))
    as [o1 w1].
  cbn [fst snd] in *. subst o1.
  assert (Harch' : exhausted h (archive_url c) w1 3).
  { intros i r Hi Hsrv. apply (Harch i r Hi).
    rewrite H4, length_app in Hsrv. exact Hsrv. }
  destruct (links_exhausted h (archive_url c) w1 Harch')
    as (H6 & H7 & H8 & H9 & H10).
  unfold retry_log in H10. rewrite H4, length_app in H10.
  change (length (replicate 3 (main_url c))) with 3%nat in H10.
  destruct (Fixed.extract_pdf_links h (archive_url c) w1) as [o2 w2].
  cbn [fst snd] in *. subst o2.
  cbn [for_each Fixed.process_pdfs ret fst snd].
  split; [done|]. split; [congruence|]. split; [congruence|].
  split; [rewrite H9, H4, <- app_assoc; done|].
  rewrite H10, H5. by rewrite <- !app_assoc.
Qed.

(** X19.  A committee whose two listing pages cannot be fetched costs six
    requests and the lines it adds to the log (its opening line and, for
    each page, the effects of three attempts and one error line):
    [process_committee] returns normally, no file other than the log file
    is changed, and [self.results] is as before. *)
Theorem committee_without_listings_is_empty
    (has_pdfplumber : bool) (self : Tool.miner) (h : host)
    (key : string) (c : committee_t) (w : world) :
  listings_fail h c w ->
  let out := Fixed.process_committee has_pdfplumber self h key c w in
  out.1 = Ok tt
  /\ results out.2 = results w
  /\ other_files_kept w out.2
  /\ sent out.2
     = sent w ++ replicate 3 (main_url c) ++ replicate 3 (archive_url c)
  /\ log out.2 = log w ++ failing_listings_log h c w.
Proof.
  intros Hfail. cbv zeta.
  destruct (committee_with_failing_listings has_pdfplumber self h key c w
              Hfail) as (Hout & Hres & Hfs & Hsent & Hlog).
  split; [done|]. split; [done|]. split; [|done].
  intros p _. by rewrite Hfs.
Qed.

(** X20.  A committee that cannot be reached does not stop the run: the
    loop of [run] goes on with the committees after it, from a world that
    differs only by the six requests and by what was added to the log;
    no file other than the log file is changed. *)
Theorem unreachable_committee_does_not_stop_run
    (has_pdfplumber : bool) (dir : string) (kw : keywords_t) (h : host)
    (key : string) (c : committee_t) (rest : list (string * committee_t))
    (w : world) :
  listings_fail h c w ->
  let self := {| Tool.base_dir := dir; Tool.committees := (key, c) :: rest;
                 Tool.keywords := kw |} in
  let self' := {| Tool.base_dir := dir; Tool.committees := rest;
                  Tool.keywords := kw |} in
  exists w',
    Fixed.run_committees has_pdfplumber self h w
    = Fixed.run_committees has_pdfplumber self' h w'
    /\ results w' = results w
    /\ other_files_kept w w'
    /\ sent w'
       = sent w ++ replicate 3 (main_url c) ++ replicate 3 (archive_url c)
    /\ log w' = log w ++ failing_listings_log h c w ++ [Sleep 5 10].
Proof.
  intros Hfail. cbv zeta.
  destruct (committee_with_failing_listings has_pdfplumber
              {| Tool.base_dir := dir; Tool.committees := (key, c) :: rest;
                 Tool.keywords := kw |} h key c w Hfail)
    as (Hout & Hres & Hfs & Hsent & Hlog).
  unfold Fixed.run_committees. simpl.
  unfold bind at 1. unfold mbind, M_bind. unfold bind at 1.
  destruct (Fixed.process_committee has_pdfplumber _ h key c w) as [o w1].
  simpl in *. subst o.
  eexists. split; [reflexivity|]. simpl.
  split; [done|]. split; [intros p _; by rewrite Hfs|]. split; [done|].
  by rewrite Hlog, <- app_assoc.
Qed.

(** X21.  A document whose file yields no text adds no finding and does
    not stop the loop, which goes on with the next document. *)
Theorem document_without_text_is_skipped
    (has_pdfplumber : bool) (self : Tool.miner) (h : host)
    (key cname bucket : string) (info : pdf_info) (rest : list pdf_info)
    (w : world) :
  let path := path_join (path_join (path_join (Tool.base_dir self) key)
                                   bucket) (filename info) in
  let w1 := (Fixed.download_pdf h info path w).2 in
  (Fixed.download_pdf h info path w).1 = Ok true ->
  (Fixed.extract_text_from_pdf has_pdfplumber (pdf_at h w1 path)).1 = [] ->
  exists w2,
    Fixed.process_pdfs has_pdfplumber self h key cname bucket (info :: rest)
      w
    = Fixed.process_pdfs has_pdfplumber self h key cname bucket rest w2
    /\ results w2 = results w /\ fs w2 = fs w1 /\ sent w2 = sent w1.
Proof.
  cbv zeta. intros Hdl Hnone.
  destruct (FetchFacts.fixed_download_effect h info
              (path_join (path_join (path_join (Tool.base_dir self) key)
                                    bucket) (filename info)) w)
    as (Hres & _).
  unfold Fixed.process_pdfs. simpl.
  unfold bind at 1. unfold mbind, M_bind. unfold bind at 1.
  destruct (Fixed.download_pdf h info _ w) as [o w1]. simpl in *. subst o.
  simpl. unfold bind at 1. unfold Fixed.extract_at at 1. simpl.
  rewrite Hnone. simpl.
  eexists. split; [reflexivity|]. simpl. done.
Qed.

End WithEngine.

(** A server that never answers a listing with a 200. *)
Lemma blocking_host_fails_listings c w :
  listings_fail Samples.blocking_host c w.
Proof.
  split; intros i r _; simpl; intros [= <-]; simpl; lia.
Qed.

Definition highway : committee_t :=
  {| name := "Highway";
     main_url :=
       "https://dekalbcounty.org/government/county-boards-commissions/county-highway/";
     archive_url :=
       "https://dekalbcounty.org/government/county-boards-commissions/county-highway/highway-committee-archive/" |}.

Lemma cached_documents_are_not_requested_witness :
  let w := {| fs := {[ "dekalb_pdfs/highway/current/minutes-01-05-2024.pdf"%string
                       := [] ]};
              sent := []; log := []; results := [] |} in
  sent (Fixed.process_pdfs true Samples.the_miner Samples.blocking_host
          "highway" "Highway" "current" [Samples.minutes] w).2 = []
  /\ sent (Tool.process_pdfs Samples.the_miner Samples.blocking_host
             "highway" "Highway" "current" [Samples.minutes] w).2 = [].
Proof.
  cbv zeta.
  destruct (cached_documents_are_not_requested true Samples.the_miner
              Samples.blocking_host "highway" "Highway" "current"
              [Samples.minutes]
              {| fs := {[ "dekalb_pdfs/highway/current/minutes-01-05-2024.pdf"%string
                          := [] ]};
                 sent := []; log := []; results := [] |})
    as [[H1 _] [H2 _]].
  - intros info ->%list_elem_of_singleton. simpl.
    rewrite lookup_singleton_eq. by eexists.
  - split; [exact H1|exact H2].
Defined.

Lemma committee_without_listings_is_empty_witness :
  (Fixed.process_committee true Samples.the_miner Samples.blocking_host
     "highway" highway Samples.fresh).1 = Ok tt
  /\ results (Fixed.process_committee true Samples.the_miner
                Samples.blocking_host "highway" highway Samples.fresh).2
     = [].
Proof.
  destruct (committee_without_listings_is_empty true Samples.the_miner
              Samples.blocking_host "highway" highway Samples.fresh
              (blocking_host_fails_listings highway Samples.fresh))
    as (H1 & H2 & _).
  split; [exact H1|exact H2].
Defined.

Lemma unreachable_committee_does_not_stop_run_witness :
  exists w',
    Fixed.run_committees true
      {| Tool.base_dir := "dekalb_pdfs";
         Tool.committees := [("highway", highway); ("highway2", highway)];
         Tool.keywords := default_keywords |}
      Samples.blocking_host Samples.fresh
    = Fixed.run_committees true
        {| Tool.base_dir := "dekalb_pdfs";
           Tool.committees := [("highway2", highway)];
           Tool.keywords := default_keywords |}
        Samples.blocking_host w'
    /\ results w' = [].
Proof.
  destruct (unreachable_committee_does_not_stop_run true "dekalb_pdfs"
              default_keywords Samples.blocking_host "highway" highway
              [("highway2"%string, highway)] Samples.fresh
              (blocking_host_fails_listings highway Samples.fresh))
    as (w' & Hrun & Hres & _).
  exists w'. split; [exact Hrun|exact Hres].
Defined.

(** A cached file that holds no text for any library. *)
Lemma document_without_text_is_skipped_witness :
  let h := {| server := fun _ _ => ConnFails; writable := fun _ => true;
              read_pdf := fun _ =>
                {| plumber := Opened [PageText None];
                   pypdf2 := Opened [PageText (Some Samples.short_page)];
                   ocr := OpenRaises |};
              page_links := fun _ _ => [] |} in
  let w := {| fs := {[ "dekalb_pdfs/highway/current/minutes-01-05-2024.pdf"%string
                       := [] ]};
              sent := []; log := []; results := [] |} in
  exists w2,
    Fixed.process_pdfs true Samples.the_miner h "highway" "Highway" "current"
      [Samples.minutes; Samples.agenda] w
    = Fixed.process_pdfs true Samples.the_miner h "highway" "Highway"
        "current" [Samples.agenda] w2
    /\ results w2 = [].
Proof.
  cbv zeta.
  edestruct (document_without_text_is_skipped true Samples.the_miner)
    as (w2 & Hrun & Hres & _); [| |exists w2; split; [exact Hrun|exact Hres]].
  - vm_compute. reflexivity.
  - vm_compute. reflexivity.
Defined.

End Coordinator.

(** ** The manual analyzer *)

Module Analyzer.

Import Py Re Data Spec.

Lemma startswith_app (t u p : str) :
  startswith t p = true -> startswith (t ++ u) p = true.
Proof.
  revert t. induction p as [|c p IH]; intros t.
  - intros _. by destruct (t ++ u).
  - destruct t as [|c' t]; simpl; [done|].
    intros [-> Hp]%andb_prop. simpl. by apply IH.
Qed.

Lemma endswith_app (x b p : str) :
  endswith b p = true -> endswith (x ++ b) p = true.
Proof. unfold endswith. rewrite rev_app_distr. apply startswith_app. Qed.

Lemma endswith_slash (a : str) :
  endswith a (s "/") = true -> exists a', a = a' ++ s "/".
Proof.
  unfold endswith. simpl. destruct (rev a) as [|c r] eqn:Hr; [done|].
  simpl. intros [->%Ascii.eqb_eq _]%andb_prop.
  exists (rev r). by rewrite <- (rev_involutive a), Hr.
Qed.

(** [os.path.join] puts something in front of its second argument. *)
Lemma os_path_join_suffix (a b : str) : exists x, os_path_join a b = x ++ b.
Proof.
  unfold os_path_join. destruct (startswith b (s "/")); [by exists []|].
  destruct (match a with [] => true | _ => endswith a (s "/") end);
    [by exists a|]. exists (a ++ s "/"). by rewrite <- app_assoc.
Qed.

Lemma basename_from_plain (cur y : str) :
  "/"%char ∉ y -> basename_from cur y = cur ++ y.
Proof.
  revert cur. induction y as [|c y IH]; intros cur Hy; simpl.
  - by rewrite app_nil_r.
  - apply not_elem_of_cons in Hy as [Hc Hy].
    destruct (Ascii.eqb c "/") eqn:Hcs.
    + by apply Ascii.eqb_eq in Hcs as ->.
    + rewrite IH by done. by rewrite <- app_assoc.
Qed.

Lemma basename_from_slash (cur x y : str) :
  basename_from cur (x ++ "/"%char :: y) = basename_from [] y.
Proof.
  revert cur. induction x as [|c x IH]; intros cur; simpl; [done|].
  destruct (Ascii.eqb c "/"); apply IH.
Qed.

Lemma basename_join (root file : str) :
  "/"%char ∉ file -> basename (os_path_join root file) = file.
Proof.
  intros Hf. unfold os_path_join, basename.
  assert (Hs : startswith file (s "/") = false).
  { destruct file as [|c file]; [done|]. simpl.
    apply not_elem_of_cons in Hf as [Hc _].
    apply andb_false_intro1. apply Ascii.eqb_neq. congruence. }
  rewrite Hs. destruct root as [|c root].
  - simpl. by apply basename_from_plain.
  - destruct (endswith (c :: root) (s "/")) eqn:He.
    + apply endswith_slash in He as [a' ->]. rewrite <- app_assoc. simpl.
      rewrite basename_from_slash. by apply basename_from_plain.
    + simpl app at 2. rewrite basename_from_slash.
      by apply basename_from_plain.
Qed.

Section WithEngine.

Context `{Engine}.

Variable kw : list (string * list string).
Variable d : Manual.disk.

(** What a run of the analyzer leaves behind: the findings [added] behind
    those it had, its earlier prints kept, and either a count or the
    [re.error] of the first pattern that does not compile. *)
Definition appended (a : Manual.analyzer) (added : list Manual.finding)
    (total : Z) (out : exc Z * Manual.analyzer) : Prop :=
  Manual.results out.2 = Manual.results a ++ added
  /\ Manual.printed a `prefix_of` Manual.printed out.2
  /\ match out.1 with
     | Ok n => n = total + Z.of_nat (length added)
     | Raise e => exists pat, e = ReError pat /\ first_invalid kw = Some pat
     end.

Lemma search_labels t page_num pdf_name ms :
  Manual.search_keywords_in_text kw t page_num pdf_name = Ok ms ->
  Forall (fun f => Manual.pdf_filename f = pdf_name
                   /\ Manual.page f = page_num) ms.
Proof.
  intros Hs. apply Classification.manual_search_occurrences in Hs.
  apply Forall_forall. intros f Hf.
  apply list_elem_of_lookup in Hf as [i Hi].
  destruct (Forall2_lookup_l _ _ _ _ _ Hs Hi)
    as (o & _ & tier & pattern & _ & _ & ->).
  done.
Qed.

Lemma search_raises t page_num pdf_name e :
  Manual.search_keywords_in_text kw t page_num pdf_name = Raise e ->
  exists pat, e = ReError pat /\ first_invalid kw = Some pat.
Proof.
  rewrite LoopFacts.manual_search_scan, OccFacts.scan_catalog_value.
  destruct (first_invalid kw) as [pat|]; [|done].
  intros [= <-]. by exists pat.
Qed.

Lemma search_ok t page_num pdf_name :
  first_invalid kw = None ->
  exists ms, Manual.search_keywords_in_text kw t page_num pdf_name = Ok ms.
Proof.
  rewrite LoopFacts.manual_search_scan, OccFacts.scan_catalog_value.
  intros ->. by eexists.
Qed.

Lemma search_raises_not t page_num pdf_name ms :
  Manual.search_keywords_in_text kw t page_num pdf_name = Ok ms ->
  first_invalid kw = None /\ True.
Proof.
  rewrite LoopFacts.manual_search_scan, OccFacts.scan_catalog_value.
  by destruct (first_invalid kw).
Qed.

Lemma count_matches_run pdf_name : forall tps total a,
  exists added,
    appended a added total (Manual.count_matches kw pdf_name tps
                              total a)
    /\ Manual.printed (Manual.count_matches kw pdf_name tps total
                         a).2 = Manual.printed a
    /\ Forall (fun f => Manual.pdf_filename f = pdf_name
                        /\ Manual.page f ∈ map fst tps) added
    /\ (forall e, (Manual.count_matches kw pdf_name tps total a).1
                  = Raise e -> tps <> [] /\ added = []).
Proof.
  induction tps as [|pt pages IH]; intros total a.
  - exists []. unfold appended. simpl. rewrite app_nil_r.
    split; [split; [done|split; [done|lia]]|]. split; [done|].
    split; [done|]. by intros e.
  - simpl. unfold mbind, M_bind, bind, lift.
    destruct (Manual.search_keywords_in_text kw pt.2 pt.1 pdf_name)
      as [ms|e] eqn:Hs.
    + simpl.
      destruct (IH (total + Z.of_nat (length ms))
                   {| Manual.results := Manual.results a ++ ms;
                      Manual.printed := Manual.printed a |})
        as (added & (Hres & Hpr & Hout) & Hsame & Hlab & Hraise).
      simpl in *. exists (ms ++ added). unfold appended.
      rewrite Hres, Hsame, app_assoc. split; [split; [done|split; [done|]]|].
      * destruct (Manual.count_matches kw pdf_name pages _ _).1 as [n|e'];
          [|done]. rewrite length_app. lia.
      * split; [done|]. split.
        -- apply Forall_app. split.
           ++ eapply Forall_impl; [exact (search_labels _ _ _ _ Hs)|].
              intros f [-> ->]. split; [done|]. simpl. apply elem_of_cons.
              by left.
           ++ eapply Forall_impl; [exact Hlab|].
              intros f [-> Hin]. split; [done|]. simpl. apply elem_of_cons.
              by right.
        -- intros e' He'. rewrite He' in Hout.
           destruct Hout as (pat & _ & Hbad).
           destruct (search_raises_not _ _ _ _ Hs). congruence.
    + simpl. exists []. unfold appended. simpl. rewrite app_nil_r.
      split; [split; [done|split; [done|]]|].
      * by apply (search_raises _ _ _ _ Hs).
      * split; [done|]. split; [done|]. by intros e' _.
Qed.

Lemma count_matches_raises pdf_name pt pages total a pat :
  first_invalid kw = Some pat ->
  Manual.count_matches kw pdf_name (pt :: pages) total a
  = (Raise (ReError pat), a).
Proof.
  intros Hbad. simpl. unfold mbind, M_bind, bind, lift.
  by rewrite LoopFacts.manual_search_scan, OccFacts.scan_catalog_value, Hbad.
Qed.

(** The pages [analyze_pdf] gets for a path. *)
Definition pages_of (pdf_path : str) : list (Z * str) :=
  (Manual.extract_text_from_pdf (Manual.pdf_of d pdf_path)).1.

Lemma analyze_pdf_eq pdf_path a :
  Manual.analyze_pdf kw d pdf_path a
  = let pdf_name := string_of_list_ascii (basename pdf_path) in
    let r := Manual.extract_text_from_pdf (Manual.pdf_of d pdf_path) in
    let a1 := {| Manual.results := Manual.results a;
                 Manual.printed :=
                   (Manual.printed a ++ [Manual.Analyzing pdf_name])
                   ++ map Manual.Extraction r.2 |} in
    match r.1 with
    | [] => (Ok 0, {| Manual.results := Manual.results a;
                      Manual.printed :=
                        Manual.printed a1 ++ [Manual.NoText] |})
    | _ :: _ =>
        match Manual.count_matches kw pdf_name r.1 0 a1 with
        | (Ok n, a2) =>
            (Ok n, {| Manual.results := Manual.results a2;
                      Manual.printed :=
                        Manual.printed a2 ++ [Manual.Found n] |})
        | (Raise e, a2) => (Raise e, a2)
        end
    end.
Proof.
  unfold Manual.analyze_pdf, Manual.extract_in, Manual.say, modify.
  unfold mbind, M_bind, bind. cbv zeta. cbn [fst snd Manual.results
    Manual.printed].
  generalize (Manual.extract_text_from_pdf (Manual.pdf_of d pdf_path)).
  intros [[|pt pages] evs]; cbn [fst snd]; [done|].
  by destruct (Manual.count_matches kw _ (pt :: pages) 0 _) as [[n|e] a2].
Qed.

Lemma analyze_pdf_run pdf_path a :
  exists added,
    appended a added 0 (Manual.analyze_pdf kw d pdf_path a)
    /\ Forall (fun f =>
                 Manual.pdf_filename f
                 = string_of_list_ascii (basename pdf_path)
                 /\ Manual.page f ∈ map fst (pages_of pdf_path)) added
    /\ (forall e, (Manual.analyze_pdf kw d pdf_path a).1 = Raise e ->
                  pages_of pdf_path <> [] /\ added = [])
    /\ (forall pat, pages_of pdf_path <> [] ->
                    first_invalid kw = Some pat ->
                    (Manual.analyze_pdf kw d pdf_path a).1
                    = Raise (ReError pat)).
Proof.
  rewrite analyze_pdf_eq. unfold pages_of, appended. cbv zeta.
  generalize (Manual.extract_text_from_pdf (Manual.pdf_of d pdf_path)).
  intros [[|pt pages] evs]; cbn [fst snd].
  - exists []. simpl. rewrite app_nil_r.
    split; [split; [done|split; [|done]]|].
    + rewrite <- !app_assoc. by apply prefix_app_r.
    + split; [done|]. split; [by intros e|]. by intros pat.
  - set (a1 := {| Manual.results := Manual.results a;
                  Manual.printed := (Manual.printed a ++ [_]) ++ _ |}).
    destruct (count_matches_run (string_of_list_ascii (basename pdf_path))
                (pt :: pages) 0 a1)
      as (added & (Hres & _ & Hout) & Hsame & Hlab & Hraise).
    exists added.
    pose proof (count_matches_raises (string_of_list_ascii (basename pdf_path))
                  pt pages 0 a1) as Hbad.
    destruct (Manual.count_matches kw _ (pt :: pages) 0 a1) as [[n|e] a2].
    + simpl in *. split; [split; [done|split; [|done]]|].
      * rewrite Hsame. unfold a1. simpl. rewrite <- !app_assoc.
        by apply prefix_app_r.
      * split; [done|]. split; [by intros e|].
        intros pat _ Hpat. by specialize (Hbad pat Hpat).
    + simpl in *. split; [split; [done|split; [|done]]|].
      * rewrite Hsame. unfold a1. simpl. rewrite <- !app_assoc.
        by apply prefix_app_r.
      * split; [done|]. split.
        -- intros e' _. split; [done|]. by destruct (Hraise e eq_refl).
        -- intros pat _ Hpat. specialize (Hbad pat Hpat). congruence.
Qed.


(** X22.  [analyze_pdf] returns the number of findings it has appended to
    [self.results]; every one of them carries the base name of the path
    and the number of a page that was extracted from the file, and the
    findings recorded before stay in place. *)
Theorem analyze_pdf_counts_its_findings
    (pdf_path : str) (a : Manual.analyzer) :
  let out := Manual.analyze_pdf kw d pdf_path a in
  exists added,
    Manual.results out.2 = Manual.results a ++ added
    /\ Forall (fun f =>
                 Manual.pdf_filename f
                 = string_of_list_ascii (basename pdf_path)
                 /\ Manual.page f ∈ map fst (pages_of pdf_path)) added
    /\ forall n, out.1 = Ok n -> n = Z.of_nat (length added).
Proof.
  cbv zeta.
  destruct (analyze_pdf_run pdf_path a)
    as (added & (Hres & _ & Hout) & Hlab & _).
  exists added. split; [done|]. split; [done|].
  intros n Hn. rewrite Hn in Hout. lia.
Qed.


#[local] Arguments Manual.analyze_all : simpl never.


(** X25.  The findings of a file that the walk has found under a folder
    are labelled with the bare file name, without the folder. *)
Theorem walked_file_is_labelled_by_its_name
    (root file : str) (a : Manual.analyzer) (f : Manual.finding) :
  "/"%char ∉ file ->
  f ∈ Manual.results (Manual.analyze_pdf kw d (os_path_join root file) a).2 ->
  f ∈ Manual.results a
  \/ Manual.pdf_filename f = string_of_list_ascii file.
Proof.
  intros Hfile Hf.
  destruct (analyze_pdf_run (os_path_join root file) a)
    as (added & (Hres & _) & Hlab & _).
  rewrite Hres in Hf. apply elem_of_app in Hf as [Hf|Hf]; [by left|right].
  rewrite Forall_forall in Hlab. destruct (Hlab f Hf) as [-> _].
  by rewrite basename_join.
Qed.

End WithEngine.

(** X26.  Every path that [analyze_folder] collects from a walk ends in
    [.pdf], in whatever case, and is a file of the walk joined to its
    root. *)
Theorem collected_paths_end_in_pdf (tree : list (str * list str)) :
  Forall (fun p =>
            endswith (lower p) (s ".pdf") = true
            /\ exists root files file,
                 (root, files) ∈ tree /\ file ∈ files
                 /\ p = os_path_join root file)
         (Manual.pdf_files tree).
Proof.
  apply Forall_forall. intros p Hp. unfold Manual.pdf_files in Hp.
  apply list_elem_of_In, in_flat_map in Hp as ([root files] & Hin & Hp).
  apply in_map_iff in Hp as (file & <- & Hfile). simpl in Hfile.
  apply list_elem_of_In, list_elem_of_filter in Hfile as [Hpdf Hfile].
  apply list_elem_of_In in Hin. simpl. split.
  - destruct (os_path_join_suffix root file) as [x ->].
    unfold lower. rewrite map_app. apply endswith_app.
    by apply Is_true_true.
  - by exists root, files, file.
Qed.

(** A folder with a PDF file in upper case, a text file, and a PDF file in
    a sub-folder; every PDF file holds the sample page. *)
Definition sample_disk : Manual.disk :=
  {| Manual.walk := fun folder =>
       if bool_decide (folder = s "pdfs")
       then Some [ (s "pdfs", [s "A.PDF"; s "notes.txt"]);
                   (s "pdfs/2024", [s "minutes-01-05-2024.pdf"]) ]
       else None;
     Manual.pdf_of := fun _ =>
       {| plumber := OpenRaises;
          pypdf2 := Opened [PageText (Some Samples.page_text)];
          ocr := OpenRaises |} |}.

Definition new_analyzer : Manual.analyzer :=
  {| Manual.results := []; Manual.printed := [] |}.

Lemma walked_file_is_labelled_by_its_name_witness :
  Forall (fun f => Manual.pdf_filename f = "A.PDF"%string)
         (Manual.results
            (Manual.analyze_pdf Samples.manual_keywords sample_disk
               (os_path_join (s "pdfs") (s "A.PDF")) new_analyzer).2).
Proof.
  apply Forall_forall. intros f Hf.
  destruct (walked_file_is_labelled_by_its_name Samples.manual_keywords
              sample_disk (s "pdfs") (s "A.PDF") new_analyzer f) as [Hin|Hlab].
  - apply (bool_decide_unpack _). vm_compute. exact I.
  - exact Hf.
  - by apply not_elem_of_nil in Hin.
  - exact Hlab.
Defined.

(** The sample folder: two of its three files are analysed, each gives the
    five findings of the sample page, and the total printed is ten. *)
Example sample_folder_run :
  let out := Manual.analyze_folder Samples.manual_keywords sample_disk
               (s "pdfs") new_analyzer in
  out.1 = Ok tt
  /\ Manual.printed out.2
     = [ Manual.FoundFiles 2;
         Manual.Analyzing "A.PDF"; Manual.Extraction CallPyPDF2;
         Manual.Found 5;
         Manual.Analyzing "minutes-01-05-2024.pdf";
         Manual.Extraction CallPyPDF2; Manual.Found 5;
         Manual.Complete 2 10 ]
  /\ length (Manual.results out.2) = 10%nat.
Proof. vm_compute. done. Qed.

(** With a pattern that does not compile the first file with text ends
    the run. *)
Example sample_folder_run_with_bad_pattern :
  Manual.analyze_folder [("priority_1"%string, ["("%string])] sample_disk
    (s "pdfs") new_analyzer
  = (Raise (ReError "("),
     {| Manual.results := [];
        Manual.printed := [ Manual.FoundFiles 2; Manual.Analyzing "A.PDF";
                            Manual.Extraction CallPyPDF2 ] |}).
Proof. vm_compute. reflexivity. Qed.

End Analyzer.
